(** * Chat-room coordination core: a shallow embedding and its properties

    The development embeds the real-time chat subsystem of the backend:

    - [src/services/socketService.ts]  (class [SocketService]): the
      connection registry ([connectedUsers], [userRooms]), the socket event
      handlers ([handleJoinRoom], [handleLeaveRoom], [handleSendMessage],
      [handlePrivateMessage], [getOnlineUsersInRoom], ...);
    - [src/routes/chat.ts]: the REST handlers [POST /rooms],
      [POST /rooms/:id/join], [POST /rooms/:id/leave],
      [GET /rooms/:id/messages];
    - [src/routes/users.ts]: [PATCH /profile], which renames an account;
    - [src/config/redis.ts] (class [CacheService]) and the rate limiter of
      [src/middleware/auth.ts];
    - [src/database/schema.ts]: the tables [chat_rooms], [chat_messages],
      [room_participants] with their serial keys and the unique index
      [user_room_idx] on [(userId, roomId)].

    Handlers are written in a small state-and-exception monad over a [World]
    that holds the database tables, the in-memory registry, the Socket.IO
    adapter (which socket sits in which room) and the log of emitted events.
    Every [await db....] is one database statement; a statement either runs
    or is rejected by the database (a fault, consumed from [dbFaults]), in
    which case it throws exactly as the drizzle promise rejects.

    In the transition system of [run] and [exec] a handler runs to its end
    before the next one starts. Where what is proved depends on handlers
    taking turns at their [await]s, the handler is cut into the stretches
    between its [await]s: [handleSendMessage] for the order of delivery
    ([Server], [act], [perform]), [cacheMessage] for the cache of recent
    messages. Redis is a state of its own ([Redis]), passed to the
    functions that use it. *)

From Stdlib Require Import ZArith List Sorted Ascii String.
From stdpp Require Import base decidable option list sorting gmap strings fin_maps fin_sets.

Local Open Scope Z_scope.
Local Open Scope string_scope.

(** ** Rows, as declared in [schema.ts] *)

(** [users] (the columns the chat core reads). *)
Record UserRow := mkUserRow {
  u_id : Z;
  u_username : string;
  u_avatar : option string;
  u_role : string;
  u_isActive : bool }.

(** [chat_rooms]. [r_type] is the varchar column: ['public'], ['private'] or
    ['direct']. *)
Record ChatRoom := mkChatRoom {
  r_id : Z;
  r_name : string;
  r_description : option string;
  r_type : string;
  r_createdBy : Z;
  r_isActive : bool;
  r_maxParticipants : Z }.

(** [room_participants]. *)
Record RoomParticipant := mkRoomParticipant {
  p_id : Z;
  p_userId : Z;
  p_roomId : Z;
  p_role : string;
  p_joinedAt : Z;
  p_lastSeenAt : option Z;
  p_isActive : bool }.

(** [chat_messages]. [metadata] is an opaque JSON value, kept as text. *)
Record ChatMessageRow := mkChatMessageRow {
  m_id : Z;
  m_content : string;
  m_type : string;
  m_senderId : Z;
  m_roomId : Z;
  m_replyToId : option Z;
  m_metadata : option string;
  m_isEdited : bool;
  m_isDeleted : bool;
  m_createdAt : Z }.

(** ** Interfaces of [socketService.ts] *)

Record SocketUser := mkSocketUser {
  su_id : Z;
  su_username : string;
  su_avatar : option string;
  su_role : string }.

Record ChatMessage := mkChatMessage {
  cm_id : Z;
  cm_content : string;
  cm_type : string;
  cm_senderId : Z;
  cm_senderUsername : string;
  cm_senderAvatar : option string;
  cm_roomId : Z;
  cm_replyToId : option Z;
  cm_metadata : option string;
  cm_createdAt : Z }.

Record RoomInfo := mkRoomInfo {
  ri_id : Z;
  ri_name : string;
  ri_description : option string;
  ri_type : string;
  ri_participantCount : nat }.

(** Payload of the ['send-message'] event. *)
Record SendData := mkSendData {
  sd_roomId : Z;
  sd_content : string;
  sd_type : option string;
  sd_replyToId : option Z;
  sd_metadata : option string }.

(** Events the server emits to sockets, with their payloads (['joined-room']
    without its list of recent messages). *)
Inductive ServerEvent :=
| EvError (message : string)
| EvUserInfo (user : SocketUser) (rooms : list (Z * string * option string * string))
| EvJoinedRoom (room : RoomInfo)
| EvUserJoined (userId : Z) (username : string) (avatar : option string) (roomId : Z)
| EvUserLeft (userId : Z) (username : string) (roomId : Z)
| EvLeftRoom (roomId : Z)
| EvNewMessage (message : ChatMessage)
| EvUserTyping (userId : Z) (username : string) (roomId : Z)
| EvUserStopTyping (userId : Z) (roomId : Z)
| EvReactionUpdated (messageId : Z) (emoji : string) (userId : Z) (username : string)
| EvOnlineUsers (roomId : Z) (users : list SocketUser)
| EvNewDmRoom (roomId : Z) (name : string) (otherUser : Z * string * option string)
| EvUserOffline (userId : Z) (username : string).

(** ** The database *)

(** A table is the list of its rows in insertion order; an update rewrites
    rows in place. A [select] without [orderBy] returns rows in that order.
    Each serial key has its sequence. *)
Record Db := mkDb {
  users : list UserRow;
  chatRooms : list ChatRoom;
  roomSeq : Z;
  roomParticipants : list RoomParticipant;
  participantSeq : Z;
  chatMessages : list ChatMessageRow;
  messageSeq : Z }.

(** ** The world a handler runs in *)

Record World := mkWorld {
  db : Db;
  (** the database's answer to the next statements: [true] rejects one *)
  dbFaults : list bool;
  (** [new Date()] *)
  now : Z;
  (** [private connectedUsers = new Map<string, SocketUser>()] *)
  connectedUsers : gmap string SocketUser;
  (** [private userRooms = new Map<number, Set<string>>()] *)
  userRooms : gmap Z (gset string);
  (** Socket.IO: the connected sockets ([io.sockets.sockets]) and, for each,
      the chat rooms [room:<id>] it has joined ([socket.rooms]) *)
  sockets : gmap string (gset Z);
  (** every [emit], oldest first: the receiving socket and the event *)
  outbox : list (string * ServerEvent) }.

Definition setDb (d : Db) (w : World) : World :=
  mkWorld d (dbFaults w) (now w) (connectedUsers w) (userRooms w) (sockets w) (outbox w).
Definition setFaults (fl : list bool) (w : World) : World :=
  mkWorld (db w) fl (now w) (connectedUsers w) (userRooms w) (sockets w) (outbox w).
Definition setNow (t : Z) (w : World) : World :=
  mkWorld (db w) (dbFaults w) t (connectedUsers w) (userRooms w) (sockets w) (outbox w).
Definition setConnectedUsers (c : gmap string SocketUser) (w : World) : World :=
  mkWorld (db w) (dbFaults w) (now w) c (userRooms w) (sockets w) (outbox w).
Definition setUserRooms (u : gmap Z (gset string)) (w : World) : World :=
  mkWorld (db w) (dbFaults w) (now w) (connectedUsers w) u (sockets w) (outbox w).
Definition setSockets (s : gmap string (gset Z)) (w : World) : World :=
  mkWorld (db w) (dbFaults w) (now w) (connectedUsers w) (userRooms w) s (outbox w).
Definition setOutbox (o : list (string * ServerEvent)) (w : World) : World :=
  mkWorld (db w) (dbFaults w) (now w) (connectedUsers w) (userRooms w) (sockets w) o.

(** ** The handler monad: state, and exceptions that keep the state *)

Inductive Res (A : Type) : Type :=
| Ret (a : A)
| Throw.
Arguments Ret {A} a.
Arguments Throw {A}.

Definition M (A : Type) : Type := World -> World * Res A.

Definition mret {A} (a : A) : M A := fun w => (w, Ret a).

Definition mbind {A B} (m : M A) (k : A -> M B) : M B := fun w =>
  match m w with
  | (w', Ret a) => k a w'
  | (w', Throw) => (w', Throw)
  end.

(** [try { m } catch (error) { h }] *)
Definition tryCatch {A} (m : M A) (h : M A) : M A := fun w =>
  match m w with
  | (w', Ret a) => (w', Ret a)
  | (w', Throw) => h w'
  end.

Definition mthrow {A} : M A := fun w => (w, Throw).
Definition getWorld : M World := fun w => (w, Ret w).
Definition modifyWorld (f : World -> World) : M unit := fun w => (f w, Ret tt).

Notation "x <- m ;; k" := (mbind m (fun x => k))
  (at level 100, m at next level, right associativity).
Notation "m ;;; k" := (mbind m (fun _ => k))
  (at level 100, right associativity).

(** One database statement. A statement is a function on [Db] that may
    itself throw (a violated constraint); the database may also reject it
    before it runs. *)
Definition dbRun {A} (stmt : Db -> Db * Res A) : M A := fun w =>
  match dbFaults w with
  | true :: fl => (setFaults fl w, Throw)
  | false :: fl => let (d, r) := stmt (db w) in (setDb d (setFaults fl w), r)
  | [] => let (d, r) := stmt (db w) in (setDb d w, r)
  end.

(** A read-only statement. *)
Definition query {A} (q : Db -> A) : Db -> Db * Res A := fun d => (d, Ret (q d)).

(** ** Database statements (drizzle queries of the handlers) *)

(** [db.select().from(t).where(c)]: the rows of [t] that satisfy [c]. *)
Definition selectWhere {R} (t : Db -> list R) (c : R -> bool) : Db -> Db * Res (list R) :=
  query (fun d => List.filter c (t d)).

(** [.limit(1)] followed by the destructuring [const [row] = ...]. *)
Definition selectFirst {R} (t : Db -> list R) (c : R -> bool) : Db -> Db * Res (option R) :=
  query (fun d => head (List.filter c (t d))).

Definition setChatRooms (l : list ChatRoom) (s : Z) (d : Db) : Db :=
  mkDb (users d) l s (roomParticipants d) (participantSeq d) (chatMessages d) (messageSeq d).
Definition setRoomParticipants (l : list RoomParticipant) (s : Z) (d : Db) : Db :=
  mkDb (users d) (chatRooms d) (roomSeq d) l s (chatMessages d) (messageSeq d).
Definition setChatMessages (l : list ChatMessageRow) (s : Z) (d : Db) : Db :=
  mkDb (users d) (chatRooms d) (roomSeq d) (roomParticipants d) (participantSeq d) l s.

(** [db.insert(chatRooms).values({...}).returning()]: the serial key is
    taken from the sequence. *)
Definition insertChatRoom (name : string) (description : option string) (type : string)
    (createdBy : Z) (maxParticipants : Z) : Db -> Db * Res ChatRoom := fun d =>
  let row := mkChatRoom (roomSeq d) name description type createdBy true maxParticipants in
  (setChatRooms (chatRooms d ++ [row]) (roomSeq d + 1) d, Ret row).

(** Values of an insert into [room_participants]. *)
Record NewParticipant := mkNewParticipant {
  np_userId : Z;
  np_roomId : Z;
  np_role : string;
  np_joinedAt : Z;
  np_lastSeenAt : option Z;
  np_isActive : bool }.

Definition sameUserRoom (userId roomId : Z) (p : RoomParticipant) : bool :=
  (p_userId p =? userId)%Z && (p_roomId p =? roomId)%Z.

(** The rows of one insert, one after the other; [user_room_idx] rejects a
    second row for the same [(userId, roomId)]. Every row tried takes a
    value of the sequence. *)
Fixpoint insertParticipantRows (vals : list NewParticipant) (tbl : list RoomParticipant)
    (seq : Z) : option (list RoomParticipant) * Z :=
  match vals with
  | [] => (Some tbl, seq)
  | v :: vs =>
      if existsb (sameUserRoom (np_userId v) (np_roomId v)) tbl
      then (None, seq + 1)
      else insertParticipantRows vs
             (tbl ++ [mkRoomParticipant seq (np_userId v) (np_roomId v) (np_role v)
                        (np_joinedAt v) (np_lastSeenAt v) (np_isActive v)])
             (seq + 1)
  end.

(** [db.insert(roomParticipants).values(...)]: all rows or, on a unique
    violation, none (the statement throws). *)
Definition insertParticipants (vals : list NewParticipant) : Db -> Db * Res unit := fun d =>
  match insertParticipantRows vals (roomParticipants d) (participantSeq d) with
  | (Some tbl, seq) => (setRoomParticipants tbl seq d, Ret tt)
  | (None, seq) => (setRoomParticipants (roomParticipants d) seq d, Throw)
  end.

(** [db.update(roomParticipants).set(...).where(c)] *)
Definition updateParticipants (c : RoomParticipant -> bool)
    (set : RoomParticipant -> RoomParticipant) : Db -> Db * Res unit := fun d =>
  (setRoomParticipants (map (fun p => if c p then set p else p) (roomParticipants d))
     (participantSeq d) d, Ret tt).

Definition setSeen (lastSeenAt : Z) (isActive : bool) (p : RoomParticipant) : RoomParticipant :=
  mkRoomParticipant (p_id p) (p_userId p) (p_roomId p) (p_role p) (p_joinedAt p)
    (Some lastSeenAt) isActive.
Definition setRejoined (joinedAt : Z) (p : RoomParticipant) : RoomParticipant :=
  mkRoomParticipant (p_id p) (p_userId p) (p_roomId p) (p_role p) joinedAt
    (p_lastSeenAt p) true.
Definition setInactive (p : RoomParticipant) : RoomParticipant :=
  mkRoomParticipant (p_id p) (p_userId p) (p_roomId p) (p_role p) (p_joinedAt p)
    (p_lastSeenAt p) false.

(** [db.insert(chatMessages).values({...}).returning()] *)
Definition insertChatMessage (content type : string) (senderId roomId : Z)
    (replyToId : option Z) (metadata : option string) (createdAt : Z)
    : Db -> Db * Res ChatMessageRow := fun d =>
  let row := mkChatMessageRow (messageSeq d) content type senderId roomId replyToId
               metadata false false createdAt in
  (setChatMessages (chatMessages d ++ [row]) (messageSeq d + 1) d, Ret row).

(** The [where] clauses. *)
Definition isActiveRoom (roomId : Z) (r : ChatRoom) : bool :=
  (r_id r =? roomId)%Z && r_isActive r.
Definition isRoom (roomId : Z) (r : ChatRoom) : bool := (r_id r =? roomId)%Z.
Definition isDirectRoomNamed (name : string) (r : ChatRoom) : bool :=
  (r_name r =? name)%string && (r_type r =? "direct")%string.
Definition isParticipant (roomId userId : Z) (p : RoomParticipant) : bool :=
  (p_roomId p =? roomId)%Z && (p_userId p =? userId)%Z.
Definition isActiveParticipant (roomId userId : Z) (p : RoomParticipant) : bool :=
  (p_roomId p =? roomId)%Z && (p_userId p =? userId)%Z && p_isActive p.
Definition isActiveIn (roomId : Z) (p : RoomParticipant) : bool :=
  (p_roomId p =? roomId)%Z && p_isActive p.
Definition isUser (userId : Z) (u : UserRow) : bool := (u_id u =? userId)%Z.

(** ** Socket.IO *)

(** [io.in(`room:${roomId}`).allSockets()] *)
Definition roomSockets (roomId : Z) (w : World) : list string :=
  map fst (List.filter (fun sr : string * gset Z => bool_decide (roomId ∈ sr.2)) (map_to_list (sockets w))).

Definition emitTo (targets : list string) (ev : ServerEvent) : M unit :=
  modifyWorld (fun w => setOutbox (outbox w ++ map (fun s => (s, ev)) targets) w).

(** [socket.emit(ev)] *)
Definition socketEmit (sid : string) (ev : ServerEvent) : M unit := emitTo [sid] ev.

(** [this.io.to(`room:${roomId}`).emit(ev)] *)
Definition ioToRoomEmit (roomId : Z) (ev : ServerEvent) : M unit := fun w =>
  emitTo (roomSockets roomId w) ev w.

(** [socket.to(`room:${roomId}`).emit(ev)]: the room but the sender. *)
Definition socketToRoomEmit (sid : string) (roomId : Z) (ev : ServerEvent) : M unit := fun w =>
  emitTo (List.filter (fun s => negb (s =? sid)%string) (roomSockets roomId w)) ev w.

(** [socket.join(`room:${roomId}`)] *)
Definition socketJoin (sid : string) (roomId : Z) : M unit :=
  modifyWorld (fun w => setSockets (alter (fun rs => rs ∪ {[roomId]}) sid (sockets w)) w).

(** [socket.leave(`room:${roomId}`)] *)
Definition socketLeave (sid : string) (roomId : Z) : M unit :=
  modifyWorld (fun w => setSockets (alter (fun rs => rs ∖ {[roomId]}) sid (sockets w)) w).

(** [Array.from(socket.rooms)] restricted to the [room:] names. *)
Definition socketRooms (sid : string) (w : World) : list Z :=
  match sockets w !! sid with
  | Some rs => elements rs
  | None => []
  end.

Fixpoint forEach {A} (l : list A) (f : A -> M unit) : M unit :=
  match l with
  | [] => mret tt
  | x :: l' => f x ;;; forEach l' f
  end.

(** ** [SocketService] *)

(** [new Date()] *)
Definition newDate : M Z := fun w => (w, Ret (now w)).

(** [setupMiddleware]: the token decodes to [uid]; the socket is admitted
    with the user row's data, or refused. *)
Definition authenticate (uid : Z) : M (option SocketUser) :=
  tryCatch
    (user <- dbRun (selectFirst users (isUser uid)) ;;
     match user with
     | None => mret None
     | Some u =>
         if negb (u_isActive u) then mret None
         else mret (Some (mkSocketUser (u_id u) (u_username u) (u_avatar u) (u_role u)))
     end)
    (mret None).

(** The registry part of the ['connection'] handler. *)
Definition registerSocket (sid : string) (user : SocketUser) (w : World) : World :=
  let w1 := setConnectedUsers (<[sid := user]> (connectedUsers w)) w in
  let ur :=
    match userRooms w1 !! su_id user with
    | None => <[su_id user := ∅]> (userRooms w1)
    | Some _ => userRooms w1
    end in
  setUserRooms (alter (fun s => s ∪ {[sid]}) (su_id user) ur) w1.

(** The registry part of the ['disconnect'] handler. *)
Definition unregisterSocket (sid : string) (user : SocketUser) (w : World) : World :=
  let w1 := setConnectedUsers (delete sid (connectedUsers w)) w in
  match userRooms w1 !! su_id user with
  | Some userSocketIds =>
      let s := userSocketIds ∖ {[sid]} in
      let ur := <[su_id user := s]> (userRooms w1) in
      if (size s =? 0)%nat then setUserRooms (delete (su_id user) ur) w1
      else setUserRooms ur w1
  | None => w1
  end.

(** [getUserConnectionCount] *)
Definition getUserConnectionCount (userId : Z) (w : World) : nat :=
  match userRooms w !! userId with
  | Some userSocketIds => size userSocketIds
  | None => 0%nat
  end.

(** [db.select({ count: chatRooms.id }).from(roomParticipants).where(...)]:
    the column selected belongs to [chat_rooms], which is not part of the
    query. Drizzle's select builder refuses to build such a query: the
    [await] throws and no statement is sent to the database. *)
Definition selectRoomIdFromParticipants (roomId : Z) : M (list Z) := mthrow.

(** [getRoomInfo]: it throws ['Room not found'] for a room that is not in
    the table, and on its second query for a room that is. *)
Definition getRoomInfo (roomId : Z) : M RoomInfo :=
  room <- dbRun (selectFirst chatRooms (isRoom roomId)) ;;
  match room with
  | None => mthrow
  | Some room =>
      participantCount <- selectRoomIdFromParticipants roomId ;;
      mret (mkRoomInfo (r_id room) (r_name room) (r_description room) (r_type room)
              (length participantCount))
  end.

(** [sendUserInfo] *)
Definition sendUserInfo (sid : string) (user : SocketUser) : M unit :=
  userRooms_ <- dbRun (query (fun d =>
      List.filter
        (fun r => r_isActive r &&
           existsb (fun p => (p_roomId p =? r_id r)%Z && (p_userId p =? su_id user)%Z
                             && p_isActive p) (roomParticipants d))
        (chatRooms d))) ;;
  socketEmit sid
    (EvUserInfo user
       (map (fun r => (r_id r, r_name r, r_description r, r_type r)) userRooms_)).

(** [handleJoinRoom]. Between [socket.join] and [getRoomInfo] the handler
    reads the recent messages of the room ([getRoomMessages], below); that
    read writes neither the database nor the registry, and whether it
    returns or throws the handler ends in the same [catch], since
    [getRoomInfo] throws. It is left out here, and with it the messages in
    the payload of ['joined-room']. *)
Definition handleJoinRoom (sid : string) (user : SocketUser) (roomId : Z) : M unit :=
  room <- dbRun (selectFirst chatRooms (isActiveRoom roomId)) ;;
  match room with
  | None => socketEmit sid (EvError "Room not found")
  | Some room =>
      participant <- dbRun (selectFirst roomParticipants (isParticipant roomId (su_id user))) ;;
      if bool_decide (participant = None) && (r_type room =? "private")%string
      then socketEmit sid (EvError "Access denied to private room")
      else
        (match participant with
         | None =>
             t <- newDate ;;
             dbRun (insertParticipants
                      [mkNewParticipant (su_id user) roomId "member" t (Some t) true])
         | Some p =>
             t <- newDate ;;
             dbRun (updateParticipants (fun q => (p_id q =? p_id p)%Z) (setSeen t true))
         end) ;;;
        socketJoin sid roomId ;;;
        roomInfo <- getRoomInfo roomId ;;
        socketEmit sid (EvJoinedRoom roomInfo) ;;;
        socketToRoomEmit sid roomId
          (EvUserJoined (su_id user) (su_username user) (su_avatar user) roomId)
  end.

(** [handleLeaveRoom] *)
Definition handleLeaveRoom (sid : string) (user : SocketUser) (roomId : Z) : M unit :=
  socketLeave sid roomId ;;;
  t <- newDate ;;
  dbRun (updateParticipants (isParticipant roomId (su_id user)) (setSeen t false)) ;;;
  socketToRoomEmit sid roomId (EvUserLeft (su_id user) (su_username user) roomId) ;;;
  socketEmit sid (EvLeftRoom roomId).

(** [data.type || 'text'] *)
Definition typeOrText (type : option string) : string :=
  match type with
  | Some t => if (t =? "")%string then "text" else t
  | None => "text"
  end.

(** [message.replyToId || undefined] *)
Definition replyOrUndefined (replyToId : option Z) : option Z :=
  match replyToId with
  | Some r => if (r =? 0)%Z then None else Some r
  | None => None
  end.

(** [handleSendMessage]. The handler ends with [cacheMessage], after the
    broadcast; Redis being a state of its own, that call is modelled apart
    ([cacheMessage], below). *)
Definition handleSendMessage (sid : string) (user : SocketUser) (data : SendData) : M unit :=
  participant <- dbRun (selectFirst roomParticipants
                          (isActiveParticipant (sd_roomId data) (su_id user))) ;;
  match participant with
  | None => socketEmit sid (EvError "You are not a member of this room")
  | Some _ =>
      t <- newDate ;;
      message <- dbRun (insertChatMessage (sd_content data) (typeOrText (sd_type data))
                          (su_id user) (sd_roomId data) (sd_replyToId data)
                          (sd_metadata data) t) ;;
      let chatMessage :=
        mkChatMessage (m_id message) (m_content message) (m_type message) (su_id user)
          (su_username user) (su_avatar user) (sd_roomId data)
          (replyOrUndefined (m_replyToId message)) (m_metadata message)
          (m_createdAt message) in
      ioToRoomEmit (sd_roomId data) (EvNewMessage chatMessage)
  end.

(** The name under which [handlePrivateMessage] files a direct room. *)
Definition dmRoomName (user recipient : string) : string :=
  "DM: " +:+ user +:+ " & " +:+ recipient.

(** [handlePrivateMessage], "Create or get direct message room": the room
    the message of [user] to [recipient] goes to. *)
Definition resolveDirectRoom (user : SocketUser) (recipient : UserRow) : M ChatRoom :=
  let roomName := dmRoomName (su_username user) (u_username recipient) in
  room <- dbRun (selectFirst chatRooms (isDirectRoomNamed roomName)) ;;
  match room with
  | Some room => mret room
  | None =>
      room <- dbRun (insertChatRoom roomName (Some "Direct message conversation") "direct"
                       (su_id user) 2) ;;
      t <- newDate ;;
      dbRun (insertParticipants
               [mkNewParticipant (su_id user) (r_id room) "member" t None true;
                mkNewParticipant (u_id recipient) (r_id room) "member" t None true]) ;;;
      mret room
  end.

(** [handlePrivateMessage] *)
Definition handlePrivateMessage (sid : string) (user : SocketUser)
    (recipientId : Z) (content : string) : M unit :=
  recipient <- dbRun (selectFirst users (isUser recipientId)) ;;
  match recipient with
  | None => socketEmit sid (EvError "Recipient not found")
  | Some recipient =>
      room <- resolveDirectRoom user recipient ;;
      handleSendMessage sid user (mkSendData (r_id room) content (Some "text") None None) ;;;
      w <- getWorld ;;
      match userRooms w !! recipientId with
      | Some recipientSocketIds =>
          forEach (elements recipientSocketIds) (fun socketId =>
            io <- getWorld ;;
            match sockets io !! socketId with
            | Some _ =>
                socketJoin socketId (r_id room) ;;;
                socketEmit socketId
                  (EvNewDmRoom (r_id room)
                     (dmRoomName (su_username user) (u_username recipient))
                     (su_id user, su_username user, su_avatar user))
            | None => mret tt
            end)
      | None => mret tt
      end
  end.

(** [getOnlineUsersInRoom] *)
Definition getOnlineUsersInRoom (roomId : Z) (w : World) : list SocketUser :=
  omap (fun socketId => connectedUsers w !! socketId) (roomSockets roomId w).

(** The handlers as registered by [setupEventHandlers], each with its
    [try]/[catch]. *)
Definition onJoinRoom (sid : string) (user : SocketUser) (roomId : Z) : M unit :=
  tryCatch (handleJoinRoom sid user roomId)
           (socketEmit sid (EvError "Failed to join room")).

Definition onLeaveRoom (sid : string) (user : SocketUser) (roomId : Z) : M unit :=
  tryCatch (handleLeaveRoom sid user roomId)
           (socketEmit sid (EvError "Failed to leave room")).

Definition onSendMessage (sid : string) (user : SocketUser) (data : SendData) : M unit :=
  tryCatch (handleSendMessage sid user data)
           (socketEmit sid (EvError "Failed to send message")).

Definition onTypingStart (sid : string) (user : SocketUser) (roomId : Z) : M unit :=
  socketToRoomEmit sid roomId (EvUserTyping (su_id user) (su_username user) roomId).

Definition onTypingStop (sid : string) (user : SocketUser) (roomId : Z) : M unit :=
  socketToRoomEmit sid roomId (EvUserStopTyping (su_id user) roomId).

Definition onToggleReaction (sid : string) (user : SocketUser)
    (messageId : Z) (emoji : string) : M unit :=
  w <- getWorld ;;
  forEach (socketRooms sid w) (fun room =>
    socketToRoomEmit sid room
      (EvReactionUpdated messageId emoji (su_id user) (su_username user))).

Definition onGetOnlineUsers (sid : string) (roomId : Z) : M unit :=
  w <- getWorld ;;
  socketEmit sid (EvOnlineUsers roomId (getOnlineUsersInRoom roomId w)).

Definition onSendPrivateMessage (sid : string) (user : SocketUser)
    (recipientId : Z) (content : string) : M unit :=
  tryCatch (handlePrivateMessage sid user recipientId content)
           (socketEmit sid (EvError "Failed to send private message")).

(** ['connection']: Socket.IO has admitted the socket; the handler stores
    it and sends the user info ([sendUserInfo] is not awaited: its failure
    does not reach the handler). *)
Definition onConnection (sid : string) (user : SocketUser) : M unit :=
  modifyWorld (fun w => setSockets (<[sid := ∅]> (sockets w)) w) ;;;
  modifyWorld (registerSocket sid user) ;;;
  tryCatch (sendUserInfo sid user) (mret tt).

(** ['disconnect']: Socket.IO has already taken the socket out of its rooms
    and of [io.sockets.sockets] when the handler runs. *)
Definition onDisconnect (sid : string) (user : SocketUser) : M unit :=
  modifyWorld (fun w => setSockets (delete sid (sockets w)) w) ;;;
  modifyWorld (unregisterSocket sid user) ;;;
  w <- getWorld ;;
  forEach (socketRooms sid w) (fun room =>
    socketToRoomEmit sid room (EvUserOffline (su_id user) (su_username user))).

(** ** [routes/chat.ts] *)

Record HttpResponse := mkHttpResponse {
  status : Z;
  success : bool;
  message : string;
  data : option ChatRoom }.

(** Body of [POST /rooms]. *)
Record CreateRoomBody := mkCreateRoomBody {
  b_name : string;
  b_description : option string;
  b_type : option string;
  b_maxParticipants : option Z }.

(** The express-validator chain of [POST /rooms]. *)
Definition validCreateRoom (b : CreateRoomBody) : bool :=
  (1 <=? String.length (b_name b))%nat && (String.length (b_name b) <=? 255)%nat
  && match b_description b with
     | Some dsc => (String.length dsc <=? 1000)%nat
     | None => true
     end
  && match b_type b with
     | Some t => (t =? "public")%string || (t =? "private")%string
     | None => true
     end.

(** [POST /rooms] *)
Definition postRooms (userId : Z) (b : CreateRoomBody) : M HttpResponse :=
  tryCatch
    (if negb (validCreateRoom b)
     then mret (mkHttpResponse 400 false "Validation failed" None)
     else
       let type := match b_type b with Some t => t | None => "public" end in
       let participantsLimit := match b_maxParticipants b with Some n => n | None => 50 end in
       newRoom <- dbRun (insertChatRoom (b_name b) (b_description b) type userId
                           participantsLimit) ;;
       t <- newDate ;;
       dbRun (insertParticipants
                [mkNewParticipant userId (r_id newRoom) "admin" t None true]) ;;;
       mret (mkHttpResponse 201 true "Chat room created successfully" (Some newRoom)))
    (mret (mkHttpResponse 500 false "Internal server error" None)).

(** [POST /rooms/:id/join]; [id] is [parseInt(req.params.id)], [None] for
    [NaN]. *)
Definition postRoomsJoin (userId : Z) (id : option Z) : M HttpResponse :=
  tryCatch
    (match id with
     | None => mret (mkHttpResponse 400 false "Invalid room ID" None)
     | Some roomId =>
         room <- dbRun (selectFirst chatRooms (isActiveRoom roomId)) ;;
         match room with
         | None => mret (mkHttpResponse 404 false "Room not found" None)
         | Some room =>
             existingParticipant <-
               dbRun (selectFirst roomParticipants (isParticipant roomId userId)) ;;
             match existingParticipant with
             | Some existingParticipant =>
                 (if negb (p_isActive existingParticipant)
                  then t <- newDate ;;
                       dbRun (updateParticipants (isParticipant roomId userId)
                                (setRejoined t))
                  else mret tt) ;;;
                 mret (mkHttpResponse 200 true "Successfully joined the room" None)
             | None =>
                 rows <- dbRun (selectWhere roomParticipants (isActiveIn roomId)) ;;
                 match rows with
                 | [] => mthrow
                 | first :: _ =>
                     let count := p_id first in
                     if (count >=? r_maxParticipants room)%Z
                     then mret (mkHttpResponse 400 false "Room is at maximum capacity" None)
                     else
                       t <- newDate ;;
                       dbRun (insertParticipants
                                [mkNewParticipant userId roomId "member" t None true]) ;;;
                       mret (mkHttpResponse 200 true "Successfully joined the room" None)
                 end
             end
         end
     end)
    (mret (mkHttpResponse 500 false "Internal server error" None)).

(** [POST /rooms/:id/leave] *)
Definition postRoomsLeave (userId : Z) (id : option Z) : M HttpResponse :=
  tryCatch
    (match id with
     | None => mret (mkHttpResponse 400 false "Invalid room ID" None)
     | Some roomId =>
         dbRun (updateParticipants (isParticipant roomId userId) setInactive) ;;;
         mret (mkHttpResponse 200 true "Successfully left the room" None)
     end)
    (mret (mkHttpResponse 500 false "Internal server error" None)).

(** ** [routes/users.ts] *)

Definition setUsers (l : list UserRow) (d : Db) : Db :=
  mkDb l (chatRooms d) (roomSeq d) (roomParticipants d) (participantSeq d)
    (chatMessages d) (messageSeq d).

(** [db.update(users).set(...).where(c).returning(...)] *)
Definition updateUsers (c : UserRow -> bool) (set : UserRow -> UserRow)
    : Db -> Db * Res (list UserRow) := fun d =>
  (setUsers (map (fun u => if c u then set u else u) (users d)) d,
   Ret (map set (List.filter c (users d)))).

(** Body of [PATCH /profile]. *)
Record ProfileBody := mkProfileBody {
  pb_firstName : option string;
  pb_lastName : option string;
  pb_username : option string }.

(** validator.js [isAlphanumeric] in its default locale: letters and
    digits, at least one. *)
Definition isAlphanumericChar (c : ascii) : bool :=
  let n := nat_of_ascii c in
  ((48 <=? n) && (n <=? 57) || (65 <=? n) && (n <=? 90) || (97 <=? n) && (n <=? 122))%nat.

Definition isAlphanumeric (s : string) : bool :=
  negb (s =? "")%string && forallb isAlphanumericChar (list_ascii_of_string s).

Definition lengthWithin (lo hi : nat) (s : string) : bool :=
  (lo <=? String.length s)%nat && (String.length s <=? hi)%nat.

(** The express-validator chain of [PATCH /profile]; every field is
    [optional()]. *)
Definition validProfile (b : ProfileBody) : bool :=
  match pb_firstName b with Some n => lengthWithin 1 50 n | None => true end
  && match pb_lastName b with Some n => lengthWithin 1 50 n | None => true end
  && match pb_username b with
     | Some n => lengthWithin 3 30 n && isAlphanumeric n
     | None => true
     end.

Definition withUsername (username : option string) (u : UserRow) : UserRow :=
  match username with
  | Some n => mkUserRow (u_id u) n (u_avatar u) (u_role u) (u_isActive u)
  | None => u
  end.

(** [PATCH /profile]: the account of the caller takes the names given. Of
    the columns it writes, [username] is the one kept here; the user the
    answer carries is left out. *)
Definition patchProfile (userId : Z) (b : ProfileBody) : M HttpResponse :=
  tryCatch
    (if negb (validProfile b)
     then mret (mkHttpResponse 400 false "Validation failed" None)
     else
       existingUser <-
         match pb_username b with
         | Some username =>
             dbRun (selectFirst users
                      (fun u => (u_username u =? username)%string
                                && negb (u_id u =? userId)%Z))
         | None => mret None
         end ;;
       match existingUser with
       | Some _ => mret (mkHttpResponse 409 false "Username already taken" None)
       | None =>
           match pb_firstName b, pb_lastName b, pb_username b with
           | None, None, None =>
               mret (mkHttpResponse 400 false "No valid fields to update" None)
           | _, _, _ =>
               dbRun (updateUsers (isUser userId) (withUsername (pb_username b))) ;;;
               mret (mkHttpResponse 200 true "Profile updated successfully" None)
           end
       end)
    (mret (mkHttpResponse 500 false "Internal server error" None)).

(** ** The server as a transition system *)

(** What can happen to the server: a socket connects (its token decodes to
    [uid]) or disconnects, a connected socket sends one of its events, an
    authenticated user calls a REST route, time passes, or the database
    becomes unreliable for the statements to come. In [run] a handler runs
    to its end before the next event is taken. *)
Inductive Event :=
| Connection (sid : string) (uid : Z)
| Disconnect (sid : string)
| JoinRoom (sid : string) (roomId : Z)
| LeaveRoom (sid : string) (roomId : Z)
| SendMessage (sid : string) (data : SendData)
| TypingStart (sid : string) (roomId : Z)
| TypingStop (sid : string) (roomId : Z)
| ToggleReaction (sid : string) (messageId : Z) (emoji : string)
| GetOnlineUsers (sid : string) (roomId : Z)
| SendPrivateMessage (sid : string) (recipientId : Z) (content : string)
| PostRooms (userId : Z) (body : CreateRoomBody)
| PostRoomsJoin (userId : Z) (id : option Z)
| PostRoomsLeave (userId : Z) (id : option Z)
| Tick (t : Z)
| DbFaults (fl : list bool).

(** The handlers of a socket close over [socket.data.user], the user the
    registry holds for it; a socket that is not connected has none. *)
Definition withSocket (sid : string) (h : SocketUser -> M unit) : M unit := fun w =>
  match connectedUsers w !! sid with
  | Some user => h user w
  | None => (w, Ret tt)
  end.

Definition handle (e : Event) : M unit :=
  match e with
  | Connection sid uid =>
      user <- authenticate uid ;;
      match user with
      | Some user => onConnection sid user
      | None => mret tt
      end
  | Disconnect sid => withSocket sid (onDisconnect sid)
  | JoinRoom sid roomId => withSocket sid (fun user => onJoinRoom sid user roomId)
  | LeaveRoom sid roomId => withSocket sid (fun user => onLeaveRoom sid user roomId)
  | SendMessage sid data => withSocket sid (fun user => onSendMessage sid user data)
  | TypingStart sid roomId => withSocket sid (fun user => onTypingStart sid user roomId)
  | TypingStop sid roomId => withSocket sid (fun user => onTypingStop sid user roomId)
  | ToggleReaction sid messageId emoji =>
      withSocket sid (fun user => onToggleReaction sid user messageId emoji)
  | GetOnlineUsers sid roomId => withSocket sid (fun _ => onGetOnlineUsers sid roomId)
  | SendPrivateMessage sid recipientId content =>
      withSocket sid (fun user => onSendPrivateMessage sid user recipientId content)
  | PostRooms userId body => postRooms userId body ;;; mret tt
  | PostRoomsJoin userId id => postRoomsJoin userId id ;;; mret tt
  | PostRoomsLeave userId id => postRoomsLeave userId id ;;; mret tt
  | Tick t => modifyWorld (setNow t)
  | DbFaults fl => modifyWorld (setFaults fl)
  end.

Definition run (e : Event) (w : World) : World := (handle e w).1.

Definition exec (es : list Event) (w : World) : World := fold_left (fun w e => run e w) es w.

(** Socket.IO gives a new connection an id no connected socket has. *)
Definition admissible (e : Event) (w : World) : Prop :=
  match e with
  | Connection sid _ => sockets w !! sid = None
  | _ => True
  end.

(** The server starts on some database, with nobody connected. *)
Definition initWorld (d : Db) (t : Z) : World := mkWorld d [] t ∅ ∅ ∅ [].

Inductive reachable : World -> Prop :=
| reachable_init d t : reachable (initWorld d t)
| reachable_step w e : reachable w -> admissible e w -> reachable (run e w).

(** ** Reasoning about handlers *)

(** [pres I m]: running [m] keeps [I], whether [m] returns or throws. *)
Definition pres {A} (I : World -> Prop) (m : M A) : Prop := forall w, I w -> I (m w).1.

(** ** The connection registry *)

(** Socket.IO's own view of the connections, which the registry is to
    follow: the sockets that are connected, each with the id of the user
    the middleware has put in [socket.data.user]. A connection whose token
    is accepted enters it, a disconnect leaves it, and no handler of
    [SocketService] writes it. *)
Definition liveStep (e : Event) (w : World) (live : gmap string Z) : gmap string Z :=
  match e with
  | Connection sid uid =>
      match (authenticate uid w).2 with
      | Ret (Some user) => <[sid := su_id user]> live
      | _ => live
      end
  | Disconnect sid => delete sid live
  | _ => live
  end.

Fixpoint liveSockets (es : list Event) (w : World) (live : gmap string Z) : gmap string Z :=
  match es with
  | [] => live
  | e :: es' => liveSockets es' (run e w) (liveStep e w live)
  end.

(** A user has a live connection when some socket Socket.IO holds is
    theirs. *)
Definition hasLiveConnection (userId : Z) (live : gmap string Z) : Prop :=
  exists sid, live !! sid = Some userId.

(** The sockets of a user that Socket.IO holds. *)
Definition liveSocketsOf (userId : Z) (live : gmap string Z) : gset string :=
  dom (filter (fun p : string * Z => p.2 = userId) live).

(** The two maps of the registry agree with each other and with Socket.IO's
    own table of connected sockets. *)
Definition registryConsistent (w : World) : Prop :=
  (forall sid u, connectedUsers w !! sid = Some u ->
     exists S, userRooms w !! su_id u = Some S /\ sid ∈ S)
  /\ (forall uid (S : gset string), userRooms w !! uid = Some S ->
        S <> ∅ /\ forall sid, sid ∈ S ->
          exists u, connectedUsers w !! sid = Some u /\ su_id u = uid)
  /\ dom (sockets w) = dom (connectedUsers w).

(** A run of events each of which is admissible when its turn comes. *)
Fixpoint admissibleAll (es : list Event) (w : World) : Prop :=
  match es with
  | [] => True
  | e :: es' => admissible e w /\ admissibleAll es' (run e w)
  end.

(** ** Sample data *)

Definition alice : UserRow := mkUserRow 1 "alice" None "user" true.
Definition bob : UserRow := mkUserRow 2 "bob" None "user" true.
Definition carol : UserRow := mkUserRow 3 "carol" None "user" true.

(** A database with three accounts and nothing else. *)
Definition db0 : Db := mkDb [alice; bob; carol] [] 1 [] 1 [] 1.
Definition world0 : World := initWorld db0 0.

Definition suAlice : SocketUser := mkSocketUser 1 "alice" None "user".
Definition suBob : SocketUser := mkSocketUser 2 "bob" None "user".
Definition suCarol : SocketUser := mkSocketUser 3 "carol" None "user".

(** Alice opens two connections and closes the first. *)
Definition twoDevices : list Event :=
  [Connection "s1" 1; Connection "s2" 1; Disconnect "s1"].

(** ** What a connection receives *)

(** The id of the message an emitted event delivers to socket [sid] for
    room [roomId], if it is one. *)
Definition newMessageId (sid : string) (roomId : Z) (x : string * ServerEvent) : option Z :=
  match x with
  | (s, EvNewMessage m) =>
      if (s =? sid)%string && (cm_roomId m =? roomId)%Z then Some (cm_id m) else None
  | _ => None
  end.

(** The ids of the messages of room [roomId] that socket [sid] has received,
    in the order of their reception. *)
Definition receivedIds (sid : string) (roomId : Z) (w : World) : list Z :=
  omap (newMessageId sid roomId) (outbox w).

(** Every delivered message is a row of [chat_messages]. *)
Definition deliveredArePersisted (w : World) : Prop :=
  forall sid m, (sid, EvNewMessage m) ∈ outbox w ->
    exists row, row ∈ chatMessages (db w) /\ m_id row = cm_id m
                /\ m_roomId row = cm_roomId m /\ m_content row = cm_content m.

Definition deliveryInv (w : World) : Prop :=
  (forall sid roomId,
     StronglySorted Z.lt (receivedIds sid roomId w)
     /\ Forall (fun i => i < messageSeq (db w)) (receivedIds sid roomId w))
  /\ deliveredArePersisted w.

(** A statement that leaves [chat_messages] and its sequence alone. *)
Definition msgStable {A} (stmt : Db -> Db * Res A) : Prop :=
  forall d, chatMessages (stmt d).1 = chatMessages d /\ messageSeq (stmt d).1 = messageSeq d.

(** Alice creates the public room "general" (capacity 10), Bob joins it,
    both connect and subscribe, and each sends a message. *)
Definition generalChat : list Event :=
  [PostRooms 1 (mkCreateRoomBody "general" None (Some "public") (Some 10));
   PostRoomsJoin 2 (Some 1);
   Connection "s1" 1; Connection "s2" 2;
   JoinRoom "s1" 1; JoinRoom "s2" 1;
   SendMessage "s1" (mkSendData 1 "hello" None None None);
   SendMessage "s2" (mkSendData 1 "hi" None None None)].

(** ** Membership *)

(** [userId] holds an active Membership in [roomId]. *)
Definition activeMember (userId roomId : Z) (d : Db) : Prop :=
  exists p, p ∈ roomParticipants d /\ p_userId p = userId /\ p_roomId p = roomId
            /\ p_isActive p = true.

(** [userId] has a Membership row in [roomId], active or not. *)
Definition hasMembership (userId roomId : Z) (d : Db) : Prop :=
  exists p, p ∈ roomParticipants d /\ p_userId p = userId /\ p_roomId p = roomId.

(** The identities of the active members of [roomId], by row order. *)
Definition listActiveMembers (roomId : Z) (d : Db) : list Z :=
  map p_userId (List.filter (isActiveIn roomId) (roomParticipants d)).

(** Carol connects after the general chat; she never joined the room. *)
Definition carolArrives : list Event := (generalChat ++ [Connection "s3" 3])%list.

(** The row [handleSendMessage] writes for [data], and the object it
    broadcasts. *)
Definition sentRow (user : SocketUser) (data : SendData) (w : World) : ChatMessageRow :=
  mkChatMessageRow (messageSeq (db w)) (sd_content data) (typeOrText (sd_type data))
    (su_id user) (sd_roomId data) (sd_replyToId data) (sd_metadata data) false false (now w).

Definition sentMessage (user : SocketUser) (data : SendData) (w : World) : ChatMessage :=
  mkChatMessage (messageSeq (db w)) (sd_content data) (typeOrText (sd_type data))
    (su_id user) (su_username user) (su_avatar user) (sd_roomId data)
    (replyOrUndefined (sd_replyToId data)) (sd_metadata data) (now w).

Definition isErrorEvent (x : string * ServerEvent) : bool :=
  match x with
  | (_, EvError _) => true
  | _ => false
  end.

(** A reply to message 999, which does not exist. *)
Definition replyToNothing : SendData := mkSendData 1 "re: ?" None (Some 999) None.

(** A message of 4000 characters. *)
Definition longContent : string := String.concat "" (repeat "0123456789" 400).
Definition longMessage : SendData := mkSendData 1 longContent None None None.

(** ** Joining over REST *)

(** Alice creates two rooms; the second, "duo", holds two participants. Its
    creator's Membership is row 2 of [room_participants]. *)
Definition duoRoom : list Event :=
  [PostRooms 1 (mkCreateRoomBody "lobby" None None None);
   PostRooms 1 (mkCreateRoomBody "duo" None (Some "public") (Some 2))].

(** Alice creates "pair", a room for two, and Bob joins it. *)
Definition pairRoom : list Event :=
  [PostRooms 1 (mkCreateRoomBody "pair" None (Some "public") (Some 2));
   PostRoomsJoin 2 (Some 1)].

Definition responseOf {A} (x : World * Res A) : option A :=
  match x.2 with
  | Ret a => Some a
  | Throw => None
  end.

(** ** Creating a room *)

(** The statement that fails, if any: [faultAt n fl] says the database
    rejects the [n]-th statement to come. *)
Definition faultAt (n : nat) (fl : list bool) : bool := nth n fl false.

(** The rows [POST /rooms] writes. *)
Definition createdRoom (userId : Z) (b : CreateRoomBody) (w : World) : ChatRoom :=
  mkChatRoom (roomSeq (db w)) (b_name b) (b_description b)
    (match b_type b with Some t => t | None => "public" end) userId true
    (match b_maxParticipants b with Some n => n | None => 50 end).

Definition adminRow (userId : Z) (w : World) : RoomParticipant :=
  mkRoomParticipant (participantSeq (db w)) userId (roomSeq (db w)) "admin" (now w) None true.

(** The foreign key of [room_participants.room_id]: a Membership row names
    a room whose id the sequence has already given out. *)
Definition participantsReferRooms (d : Db) : Prop :=
  Forall (fun p => p_roomId p < roomSeq d) (roomParticipants d).

(** The database rejects the second statement to come. *)
Definition secondStatementFails : World := run (DbFaults [false; true]) world0.

(** ** Subscribing *)



(** ** Leaving *)

(** What identifies a Membership row and never changes. *)
Definition rowKey (p : RoomParticipant) : Z * Z * Z := (p_id p, p_userId p, p_roomId p).

(** A Membership row but for its [lastSeenAt]. *)
Definition rowButSeen (p : RoomParticipant) : Z * Z * Z * string * Z * bool :=
  (p_id p, p_userId p, p_roomId p, p_role p, p_joinedAt p, p_isActive p).

(** Alice creates "general" over REST and opens a connection, which she
    does not subscribe to the room. *)
Definition aliceNotSubscribed : World :=
  exec [PostRooms 1 (mkCreateRoomBody "general" None (Some "public") (Some 10));
        Connection "s1" 1; Tick 5] world0.

(** ** Direct messages *)

(** Alice writes to Bob, then Bob writes to Alice. *)
Definition dmBothWays : list Event :=
  [Connection "s1" 1; Connection "s2" 2;
   SendPrivateMessage "s1" 2 "hi bob";
   SendPrivateMessage "s2" 1 "hi alice"].



(** Alice writes to herself. *)
Definition dmToSelf : list Event :=
  [Connection "s1" 1; SendPrivateMessage "s1" 1 "note to self"].


(** ** Presence *)

(** Socket [sid] is connected and subscribed to the channel of [roomId]. *)
Definition subscribed (sid : string) (roomId : Z) (w : World) : Prop :=
  exists rs, sockets w !! sid = Some rs /\ roomId ∈ rs.

(** After the general chat Bob leaves room 1 over REST. *)
Definition bobLeavesOverRest : list Event := (generalChat ++ [PostRoomsLeave 2 (Some 1)])%list.


(** Some later activity: Bob connects and creates a room of his own, time
    passes. *)
Definition laterActivity : list Event :=
  [Connection "s2" 2; PostRooms 2 (mkCreateRoomBody "DM: alice & bob" None None None); Tick 7].

(** ** Constraints of the schema *)

(** The columns of [user_room_idx]. *)
Definition membershipKey (p : RoomParticipant) : Z * Z := (p_userId p, p_roomId p).

(** [user_room_idx]: one Membership row per user and room. *)
Definition uniqueMemberships (d : Db) : Prop :=
  NoDup (map membershipKey (roomParticipants d)).

(** The serial primary keys: distinct, and below their sequences. *)
Definition primaryKeys (d : Db) : Prop :=
  (NoDup (map r_id (chatRooms d)) /\ Forall (fun r => r_id r < roomSeq d) (chatRooms d))
  /\ (NoDup (map p_id (roomParticipants d))
      /\ Forall (fun p => p_id p < participantSeq d) (roomParticipants d))
  /\ (NoDup (map m_id (chatMessages d))
      /\ Forall (fun m => m_id m < messageSeq d) (chatMessages d)).

Definition schemaOk (d : Db) : Prop := primaryKeys d /\ uniqueMemberships d.

(** A statement that keeps a property of the database. *)
Definition stmtKeeps {A} (J : Db -> Prop) (stmt : Db -> Db * Res A) : Prop :=
  forall d, J d -> J (stmt d).1.

(** What a Membership row is for good: its key, whose it is, and the role. *)
Definition rowIdentity (p : RoomParticipant) : Z * Z * Z * string :=
  (p_id p, p_userId p, p_roomId p, p_role p).

(** [d'] holds all of [d], in place, and possibly more after it: rooms and
    messages as they were, Membership rows with their identity. *)
Definition grows (d d' : Db) : Prop :=
  chatRooms d `prefix_of` chatRooms d'
  /\ chatMessages d `prefix_of` chatMessages d'
  /\ map rowIdentity (roomParticipants d) `prefix_of` map rowIdentity (roomParticipants d').

(** The references between the tables: a Membership names a room that
    exists, and the author of a message has a Membership row, active or
    not, in the room of the message. *)
Definition roomExists (roomId : Z) (d : Db) : Prop :=
  exists r, r ∈ chatRooms d /\ r_id r = roomId.

Definition referencesOk (d : Db) : Prop :=
  (forall p, p ∈ roomParticipants d -> roomExists (p_roomId p) d)
  /\ (forall m, m ∈ chatMessages d -> hasMembership (m_senderId m) (m_roomId m) d).

(** [referencesOk] while a handler holds a room it has just read, or a
    Membership it has just checked. *)
Definition refsWithRoom (roomId : Z) (d : Db) : Prop :=
  referencesOk d /\ roomExists roomId d.

Definition refsWithMember (userId roomId : Z) (d : Db) : Prop :=
  referencesOk d /\ hasMembership userId roomId d.

(** ** The public methods of [SocketService] *)

(** [getConnectedUsers] *)
Definition getConnectedUsers (w : World) : list SocketUser :=
  map snd (map_to_list (connectedUsers w)).

(** [sendToUser] *)
Definition sendToUser (userId : Z) (ev : ServerEvent) : M unit :=
  w <- getWorld ;;
  match userRooms w !! userId with
  | Some userSocketIds =>
      forEach (elements userSocketIds) (fun socketId =>
        io <- getWorld ;;
        match sockets io !! socketId with
        | Some _ => socketEmit socketId ev
        | None => mret tt
        end)
  | None => mret tt
  end.

(** [sendToRoom] *)
Definition sendToRoom (roomId : Z) (ev : ServerEvent) : M unit := ioToRoomEmit roomId ev.

(** The connected sockets that belong to [userId]. *)
Definition connectionsOf (userId : Z) (w : World) : list string :=
  map fst (List.filter (fun su : string * SocketUser => (su_id su.2 =? userId)%Z)
             (map_to_list (connectedUsers w))).

(** Alice on two devices, Bob on one. *)
Definition threeSockets : list Event :=
  [Connection "s1" 1; Connection "s2" 2; Connection "s3" 1].

(** The user a socket is registered with, from the row of the account. *)
Definition socketUserOf (u : UserRow) : SocketUser :=
  mkSocketUser (u_id u) (u_username u) (u_avatar u) (u_role u).

(** The account the token names is missing, or not active. *)
Definition noActiveAccount (uid : Z) (d : Db) : Prop :=
  forall u, head (List.filter (isUser uid) (users d)) = Some u -> u_isActive u = false.

(** Dave's account has been deactivated. *)
Definition dave : UserRow := mkUserRow 4 "dave" None "user" false.
Definition worldWithDave : World :=
  initWorld (mkDb [alice; bob; carol; dave] [] 1 [] 1 [] 1) 0.

(** ** [config/redis.ts] *)

(** What Redis holds for the chat server: the counters of the rate limiter,
    under [rate_limit:<key>:<window>] (the window number is the last
    segment of the key, so the pair of key and number stands for it), and
    the recent messages of the rooms, under [room:<id>:messages]; each with
    the time, in milliseconds, at which it expires, if it does. [redisUp]
    tells whether Redis carries out the commands it is sent or rejects
    them. The client is created with [maxRetriesPerRequest: null]: while
    Redis cannot be reached a command waits, and the call does not return;
    of such calls nothing is said here. *)
Record Redis := mkRedis {
  redisUp : bool;
  counters : gmap (string * Z) (Z * Z);
  entries : gmap Z (list ChatMessage * option Z) }.

Definition setCounters (c : gmap (string * Z) (Z * Z)) (r : Redis) : Redis :=
  mkRedis (redisUp r) c (entries r).
Definition setEntries (e : gmap Z (list ChatMessage * option Z)) (r : Redis) : Redis :=
  mkRedis (redisUp r) (counters r) e.

(** A key that has a time to live is gone once that time is reached. *)
Definition expired (now : Z) (expiresAt : option Z) : bool :=
  match expiresAt with
  | Some e => (e <=? now)%Z
  | None => false
  end.

(** The class [CacheService]. Its methods catch what the client throws. *)
Module CacheService.

(** [set(key, value, ttl?)] for the key of a room: [SETEX] when [ttl] is
    given and not 0, which Redis rejects for a negative [ttl]; [SET], with
    no time to live, otherwise. It answers whether the value was stored. *)
Definition set (roomId : Z) (value : list ChatMessage) (ttl : option Z) (now : Z)
    (r : Redis) : Redis * bool :=
  if redisUp r then
    match ttl with
    | Some ttl =>
        if (ttl =? 0)%Z then (setEntries (<[roomId := (value, None)]> (entries r)) r, true)
        else if (ttl <? 0)%Z then (r, false)
        else (setEntries (<[roomId := (value, Some (now + ttl * 1000))]> (entries r)) r,
              true)
    | None => (setEntries (<[roomId := (value, None)]> (entries r)) r, true)
    end
  else (r, false).

(** [get(key)] for the key of a room: the value stored, read back from its
    JSON (a date comes back as the string of the same instant, which is not
    told apart here), or [null]: when there is none, when it has expired,
    and when Redis fails. *)
Definition get (roomId : Z) (now : Z) (r : Redis) : option (list ChatMessage) :=
  if redisUp r then
    match entries r !! roomId with
    | Some (value, expiresAt) => if expired now expiresAt then None else Some value
    | None => None
    end
  else None.

(** [incrementRateLimit(key, window)]: a pipeline of [INCR key] and
    [EXPIRE key window]. The counter, which starts from 0 when the key does
    not exist or has expired, is raised by one, and on every call the key
    is given [window] seconds to live from now ([EXPIRE] deletes it when
    [window] is not positive). The answer is the new count, and [null] when
    that is 0 and when Redis fails. *)
Definition incrementRateLimit (key : string * Z) (window : Z) (now : Z) (r : Redis)
    : Redis * option Z :=
  if redisUp r then
    let count :=
      match counters r !! key with
      | Some (count, expiresAt) => if (now <? expiresAt)%Z then count + 1 else 1
      | None => 1
      end in
    let counters' :=
      if (0 <? window)%Z then <[key := (count, now + window * 1000)]> (counters r)
      else delete key (counters r) in
    (setCounters counters' r, if (count =? 0)%Z then None else Some count)
  else (r, None).

End CacheService.

(** ** [middleware/auth.ts]: the rate limiter *)

(** [Math.ceil(windowMs / 1000)] *)
Definition ceilSeconds (windowMs : Z) : Z := - ((- windowMs) / 1000).

(** What the limiter does with a request: let it through, with the
    [X-RateLimit-Limit], [-Remaining] and [-Reset] headers when it could
    count it, or answer 429 with [retryAfter]. *)
Inductive RateDecision :=
| RateNext (headers : option (Z * Z * Z))
| RateTooMany (retryAfter : Z).

(** [createRateLimiter(windowMs, maxRequests)] on a request whose key (by
    default its IP address) is [key], at time [now]. The key of the counter
    names the client and the window, and not the limiter. *)
Definition createRateLimiter (windowMs maxRequests : Z) (key : string) (now : Z) (r : Redis)
    : Redis * RateDecision :=
  let rateLimitKey := (key, now / windowMs) in
  match CacheService.incrementRateLimit rateLimitKey (ceilSeconds windowMs) now r with
  | (r', None) => (r', RateNext None)
  | (r', Some current) =>
      if (current >? maxRequests)%Z
      then (r', RateTooMany (ceilSeconds windowMs))
      else (r', RateNext (Some (maxRequests, Z.max 0 (maxRequests - current),
                                now + windowMs)))
  end.

(** The limiters of the routes: [chatRateLimit] ([routes/chat.ts]),
    [authRateLimit] ([routes/auth.ts]), [aiRateLimit] ([routes/ai.ts]). *)
Definition chatRateLimit : string -> Z -> Redis -> Redis * RateDecision :=
  createRateLimiter (15 * 60 * 1000) 100.
Definition authRateLimit : string -> Z -> Redis -> Redis * RateDecision :=
  createRateLimiter (15 * 60 * 1000) 5.
Definition aiRateLimit : string -> Z -> Redis -> Redis * RateDecision :=
  createRateLimiter (60 * 1000) 10.

(** A request on its way through a limiter. *)
Record RateRequest := mkRateRequest {
  rq_windowMs : Z;
  rq_maxRequests : Z;
  rq_key : string;
  rq_now : Z }.

Definition rateLimit (q : RateRequest) : Redis -> Redis * RateDecision :=
  createRateLimiter (rq_windowMs q) (rq_maxRequests q) (rq_key q) (rq_now q).

(** One request after the other, each through its limiter. *)
Fixpoint rateLimitAll (reqs : list RateRequest) (r : Redis) : Redis * list RateDecision :=
  match reqs with
  | [] => (r, [])
  | q :: reqs' =>
      let (r1, dec) := rateLimit q r in
      let (r2, decs) := rateLimitAll reqs' r1 in
      (r2, dec :: decs)
  end.

(** The counter a request is counted in. *)
Definition counterOf (q : RateRequest) : string * Z := (rq_key q, rq_now q / rq_windowMs q).

Definition sameCounter (q q' : RateRequest) : bool :=
  (rq_key q' =? rq_key q)%string
  && (rq_now q' / rq_windowMs q' =? rq_now q / rq_windowMs q)%Z.

(** How many of the requests were counted in the counter of [q]. *)
Definition countedWith (q : RateRequest) (reqs : list RateRequest) : Z :=
  Z.of_nat (length (List.filter (sameCounter q) reqs)).

(** Redis, up and empty. *)
Definition redis0 : Redis := mkRedis true ∅ ∅.

(** Redis is up, and the counter of [q] holds the number of the requests
    seen that were counted in it, and outlives the window of [q]. *)
Definition counterCounts (q : RateRequest) (seen : list RateRequest) (r : Redis) : Prop :=
  redisUp r = true
  /\ match counters r !! counterOf q with
     | Some (count, expiresAt) =>
         count = countedWith q seen
         /\ (rq_now q / rq_windowMs q + 1) * rq_windowMs q <= expiresAt
     | None => countedWith q seen = 0
     end.

(** Five requests of one client to the chat routes, one a second. *)
Definition fiveChatRequests : list RateRequest :=
  map (fun i => mkRateRequest (15 * 60 * 1000) 100 "10.0.0.1" (Z.of_nat i * 1000)) (seq 1 5).

(** ** The cache of recent messages *)

(** [Array.prototype.slice(start)] *)
Definition slice {A} (start : Z) (l : list A) : list A :=
  let len := Z.of_nat (length l) in
  let k := if (start <? 0)%Z then Z.max (len + start) 0 else Z.min start len in
  drop (Z.to_nat k) l.

(** [cacheMessage] awaits the cache twice. Up to its first [await] it
    reads the entry of the room: [cached] is what [get] answers, or the
    empty list. *)
Definition cacheMessageGet (roomId : Z) (now : Z) (r : Redis) : list ChatMessage :=
  match CacheService.get roomId now r with
  | Some cached => cached
  | None => []
  end.

(** Resumed with [cached], it appends the message, keeps the last hundred
    and writes the whole list back, to live for five minutes. *)
Definition cacheMessageSet (roomId : Z) (cached : list ChatMessage) (message : ChatMessage)
    (now : Z) (r : Redis) : Redis :=
  let cached := (cached ++ [message])%list in
  let cached :=
    if (100 <? length cached)%nat then drop (length cached - 100) cached else cached in
  (CacheService.set roomId cached (Some 300) now r).1.

(** A call of [cacheMessage] that no other command to Redis comes between:
    it reads at [getAt] and writes at [setAt]. *)
Record CacheCall := mkCacheCall {
  cc_message : ChatMessage;
  cc_getAt : Z;
  cc_setAt : Z }.

Definition cacheMessage (roomId : Z) (c : CacheCall) (r : Redis) : Redis :=
  cacheMessageSet roomId (cacheMessageGet roomId (cc_getAt c) r) (cc_message c)
    (cc_setAt c) r.

(** Calls of [cacheMessage] that do not overlap: each has written before
    the next one reads. *)
Definition cacheAll (roomId : Z) (calls : list CacheCall) (r : Redis) : Redis :=
  fold_left (fun r c => cacheMessage roomId c r) calls r.

(** Each call reads less than [gap] after the call before it has written. *)
Definition gapsBelow (gap : Z) (calls : list CacheCall) : Prop :=
  forall i c c', calls !! i = Some c -> calls !! S i = Some c' ->
    cc_getAt c' < cc_setAt c + gap.

(** Two calls of [cacheMessage] that overlap: both have read before either
    writes. *)
Definition cacheOverlapping (roomId : Z) (c1 c2 : CacheCall) (r : Redis) : Redis :=
  let cached1 := cacheMessageGet roomId (cc_getAt c1) r in
  let cached2 := cacheMessageGet roomId (cc_getAt c2) r in
  cacheMessageSet roomId cached2 (cc_message c2) (cc_setAt c2)
    (cacheMessageSet roomId cached1 (cc_message c1) (cc_setAt c1) r).

(** ** Reading the history of a room *)

(** A row of [chatMessages.innerJoin(users, eq(chatMessages.senderId, users.id))]. *)
Definition JoinedRow : Type := ChatMessageRow * UserRow.

Definition joinSender (d : Db) : list JoinedRow :=
  flat_map (fun m => map (fun u => (m, u)) (List.filter (isUser (m_senderId m)) (users d)))
           (chatMessages d).

(** [and(eq(chatMessages.roomId, roomId), eq(chatMessages.isDeleted, false))] *)
Definition isVisibleIn (roomId : Z) (row : JoinedRow) : bool :=
  (m_roomId row.1 =? roomId)%Z && negb (m_isDeleted row.1).

(** [desc(chatMessages.createdAt)]: [a] may come before [b]. *)
Definition newerFirst (a b : JoinedRow) : Prop := m_createdAt b.1 <= m_createdAt a.1.

(** What [orderBy(desc(chatMessages.createdAt))] promises: the same rows,
    newest first. The order of rows written at the same time is the
    database's choice. *)
Definition ordersByCreatedAtDesc (orderBy : list JoinedRow -> list JoinedRow) : Prop :=
  forall rows, orderBy rows ≡ₚ rows /\ StronglySorted newerFirst (orderBy rows).

(** The select of [getRoomMessages] and of [GET /rooms/:id/messages], up to
    the columns they pick; without [.offset()] the offset is 0. The database
    rejects a negative [LIMIT] or [OFFSET]. *)
Definition selectHistory (orderBy : list JoinedRow -> list JoinedRow) (roomId limit offset : Z)
    : Db -> Db * Res (list JoinedRow) := fun d =>
  if ((limit <? 0) || (offset <? 0))%Z then (d, Throw)
  else (d, Ret (take (Z.to_nat limit)
                  (drop (Z.to_nat offset)
                     (orderBy (List.filter (isVisibleIn roomId) (joinSender d)))))).

(** The object [getRoomMessages] builds from a row. *)
Definition toChatMessage (msg : JoinedRow) : ChatMessage :=
  mkChatMessage (m_id msg.1) (m_content msg.1) (m_type msg.1) (m_senderId msg.1)
    (u_username msg.2) (u_avatar msg.2) (m_roomId msg.1)
    (replyOrUndefined (m_replyToId msg.1)) (m_metadata msg.1) (m_createdAt msg.1).

(** [getRoomMessages]: the cache first, else the table, whose answer is
    cached for five minutes. *)
Definition getRoomMessages (orderBy : list JoinedRow -> list JoinedRow) (roomId limit : Z)
    (r : Redis) : M (Redis * list ChatMessage) :=
  t <- newDate ;;
  match CacheService.get roomId t r with
  | Some cached => mret (r, slice (- limit) cached)
  | None =>
      messages <- dbRun (selectHistory orderBy roomId limit 0) ;;
      let chatMessages_ := map toChatMessage (rev messages) in
      mret ((CacheService.set roomId chatMessages_ (Some 300) t r).1, chatMessages_)
  end.

(** ** [GET /rooms/:id/messages] *)

(** A value of the query string: an integer, or something else. *)
Inductive QueryValue :=
| QInt (n : Z)
| QOther (s : string).

(** [query(name).optional().isInt({ min, max })] *)
Definition optionalIsInt (min : Z) (max : option Z) (v : option QueryValue) : bool :=
  match v with
  | None => true
  | Some (QInt n) =>
      (min <=? n)%Z && match max with Some m => (n <=? m)%Z | None => true end
  | Some (QOther _) => false
  end.

(** [parseInt(v) || dflt], for a value that passed [optionalIsInt]. *)
Definition parseIntOr (v : option QueryValue) (dflt : Z) : Z :=
  match v with
  | Some (QInt n) => if (n =? 0)%Z then dflt else n
  | _ => dflt
  end.

(** A message as the route returns it. *)
Record RestMessage := mkRestMessage {
  rm_id : Z;
  rm_content : string;
  rm_type : string;
  rm_metadata : option string;
  rm_isEdited : bool;
  rm_createdAt : Z;
  rm_sender : Z * string * option string }.

Definition toRestMessage (row : JoinedRow) : RestMessage :=
  mkRestMessage (m_id row.1) (m_content row.1) (m_type row.1) (m_metadata row.1)
    (m_isEdited row.1) (m_createdAt row.1) (u_id row.2, u_username row.2, u_avatar row.2).

Inductive MessagesResponse :=
| MessagesOk (messages : list RestMessage)
| MessagesError (status : Z) (message : string).

Definition getRoomsMessages (orderBy : list JoinedRow -> list JoinedRow) (userId : Z)
    (id : option Z) (limit offset : option QueryValue) : M MessagesResponse :=
  tryCatch
    (if negb (optionalIsInt 1 (Some 50) limit && optionalIsInt 0 None offset)
     then mret (MessagesError 400 "Validation failed")
     else
       let limit := parseIntOr limit 20 in
       let offset := parseIntOr offset 0 in
       match id with
       | None => mret (MessagesError 400 "Invalid room ID")
       | Some roomId =>
           participant <- dbRun (selectFirst roomParticipants
                                   (isActiveParticipant roomId userId)) ;;
           match participant with
           | None => mret (MessagesError 403 "You are not a member of this room")
           | Some _ =>
               messages <- dbRun (selectHistory orderBy roomId limit offset) ;;
               mret (MessagesOk (rev (map toRestMessage messages)))
           end
       end)
    (mret (MessagesError 500 "Internal server error")).

(** The rows of a room a reader may see, as the routes hand them out. *)
Definition visibleRows (roomId : Z) (d : Db) : list JoinedRow :=
  List.filter (isVisibleIn roomId) (joinSender d).

(** An [orderBy] for the examples: insertion sort. *)
Definition newerFirstb (a b : JoinedRow) : bool := (m_createdAt b.1 <=? m_createdAt a.1)%Z.

Fixpoint insertSorted (row : JoinedRow) (rows : list JoinedRow) : list JoinedRow :=
  match rows with
  | [] => [row]
  | x :: rows' => if newerFirstb row x then row :: rows else x :: insertSorted row rows'
  end.

Definition insertionSort (rows : list JoinedRow) : list JoinedRow :=
  foldr insertSorted [] rows.

Fixpoint gapsBelowb (gap : Z) (calls : list CacheCall) : bool :=
  match calls with
  | c :: rest =>
      match rest with
      | c' :: _ => (cc_getAt c' <? cc_setAt c + gap)%Z && gapsBelowb gap rest
      | [] => true
      end
  | [] => true
  end.

(** A burst in room 1: 101 messages of Alice's, one a second, each cached
    within five milliseconds. *)
Definition numbered (i : nat) : ChatMessage :=
  mkChatMessage (Z.of_nat i) "ping" "text" 1 "alice" None 1 None None (Z.of_nat i * 1000).

Definition burst : list CacheCall :=
  map (fun i => mkCacheCall (numbered i) (Z.of_nat i * 1000) (Z.of_nat i * 1000 + 5))
      (seq 1 101).

(** The general chat goes on: two more messages, at times 10 and 20. *)
Definition busyRoom : list Event :=
  (generalChat ++
   [Tick 10; SendMessage "s1" (mkSendData 1 "anyone?" None None None);
    Tick 20; SendMessage "s2" (mkSendData 1 "here" None None None)])%list.

(** ** Subscriptions and the table of rooms *)

(** [ensures I m Q]: from a state in [I], [m] returns in [Q], or throws in
    [I]. *)
Definition ensures {A} (I : World -> Prop) (m : M A) (Q : A -> World -> Prop) : Prop :=
  forall w, I w ->
    match (m w).2 with
    | Ret a => Q a (m w).1
    | Throw => I (m w).1
    end.

(** Every subscription is to a room of the table; and the rooms a handler
    has come to know on its way are in the table. *)
Definition subscriptionsExist (known : list Z) (w : World) : Prop :=
  (forall sid roomId, subscribed sid roomId w -> roomExists roomId (db w))
  /\ Forall (fun roomId => roomExists roomId (db w)) known.

(** ** The first direct message *)

(** The room [resolveDirectRoom] creates for [user] and [recipient], and the
    database with the room and the two Memberships in it. *)
Definition directRoom (user : SocketUser) (recipient : UserRow) (d : Db) : ChatRoom :=
  mkChatRoom (roomSeq d) (dmRoomName (su_username user) (u_username recipient))
    (Some "Direct message conversation") "direct" (su_id user) true 2.

Definition withDirectRoom (user : SocketUser) (recipient : UserRow) (t : Z) (d : Db) : Db :=
  setRoomParticipants
    (roomParticipants d ++
       [mkRoomParticipant (participantSeq d) (su_id user) (roomSeq d) "member" t None true;
        mkRoomParticipant (participantSeq d + 1) (u_id recipient) (roomSeq d) "member" t
          None true])%list
    (participantSeq d + 1 + 1)
    (setChatRooms (chatRooms d ++ [directRoom user recipient d])%list (roomSeq d + 1) d).

(** The sockets of [l] join room [n]. *)
Definition joinAll (n : Z) (l : list string) (m : gmap string (gset Z)) : gmap string (gset Z) :=
  fold_left (fun m s => alter (fun rs => rs ∪ {[n]}) s m) l m.

(** ** Reactions *)

(** The rooms two sockets are both subscribed to. *)
Definition sharedRooms (a b : string) (w : World) : gset Z :=
  default ∅ (sockets w !! a) ∩ default ∅ (sockets w !! b).

(** How many of the events go to socket [s]. *)
Definition copiesTo (s : string) (targets : list string) : nat :=
  length (List.filter (String.eqb s) targets).

(** Alice and Bob, each on one connection, are both in two rooms. *)
Definition twoSharedRooms : list Event :=
  [PostRooms 1 (mkCreateRoomBody "general" None None None);
   PostRooms 1 (mkCreateRoomBody "random" None None None);
   Connection "s1" 1; Connection "s2" 2;
   JoinRoom "s1" 1; JoinRoom "s1" 2; JoinRoom "s2" 1; JoinRoom "s2" 2].

(** ** The rooms the server creates *)

(** A room as the server creates them: active, and either a direct room,
    for two, under the name of a direct room, or a public or private room
    under a name of 1 to 255 characters. *)
Definition wellFormedRoom (r : ChatRoom) : Prop :=
  r_isActive r = true
  /\ ((r_type r = "direct" /\ r_maxParticipants r = 2
       /\ exists sender recipient, r_name r = dmRoomName sender recipient)
      \/ ((r_type r = "public" \/ r_type r = "private")
          /\ (1 <= String.length (r_name r) <= 255)%nat)).

(** The table of rooms is [base] and, after it, rooms the server created. *)
Definition roomsSince (base : list ChatRoom) (d : Db) : Prop :=
  exists new, chatRooms d = (base ++ new)%list /\ Forall wellFormedRoom new.

(** ** Sends that overlap *)

(** [handleSendMessage] awaits the database twice: the Membership select,
    and the insert. Between the moment a statement has run and the moment
    the handler is resumed with its answer, other handlers run. These are
    the three stretches of the handler. *)

(** Up to the first [await]: the Membership select. *)
Definition sendCheck (user : SocketUser) (data : SendData) : M (option RoomParticipant) :=
  dbRun (selectFirst roomParticipants
           (isActiveParticipant (sd_roomId data) (su_id user))).

(** Resumed with the Membership: refuse, or insert the message. *)
Definition sendStore (sid : string) (user : SocketUser) (data : SendData)
    (participant : option RoomParticipant) : M (option ChatMessageRow) :=
  match participant with
  | None => socketEmit sid (EvError "You are not a member of this room") ;;; mret None
  | Some _ =>
      t <- newDate ;;
      message <- dbRun (insertChatMessage (sd_content data) (typeOrText (sd_type data))
                          (su_id user) (sd_roomId data) (sd_replyToId data)
                          (sd_metadata data) t) ;;
      mret (Some message)
  end.

(** Resumed with the inserted row: the broadcast. *)
Definition sendEmit (user : SocketUser) (data : SendData) (message : ChatMessageRow)
    : M unit :=
  let chatMessage :=
    mkChatMessage (m_id message) (m_content message) (m_type message) (su_id user)
      (su_username user) (su_avatar user) (sd_roomId data)
      (replyOrUndefined (m_replyToId message)) (m_metadata message)
      (m_createdAt message) in
  ioToRoomEmit (sd_roomId data) (EvNewMessage chatMessage).

(** A ['send-message'] handler waiting to be resumed. *)
Inductive InFlight :=
| Checked (sid : string) (user : SocketUser) (data : SendData)
    (participant : option RoomParticipant)
| Stored (sid : string) (user : SocketUser) (data : SendData) (message : ChatMessageRow).

(** The server with its sends in flight. *)
Record Server := mkServer {
  world : World;
  inFlight : list InFlight }.

(** What the event loop does next: it handles an event to its end (as
    [run] does), it takes a ['send-message'] up to its first [await], or it
    resumes the [i]th send in flight up to its next [await]. *)
Inductive Action :=
| Atomic (e : Event)
| StartSend (sid : string) (data : SendData)
| Resume (i : nat).

(** The [catch] of the ['send-message'] handler. *)
Definition sendFailed (sid : string) (w : World) : World :=
  (socketEmit sid (EvError "Failed to send message") w).1.

Definition act (a : Action) (s : Server) : Server :=
  match a with
  | Atomic e => mkServer (run e (world s)) (inFlight s)
  | StartSend sid data =>
      match connectedUsers (world s) !! sid with
      | None => s
      | Some user =>
          match sendCheck user data (world s) with
          | (w', Ret participant) =>
              mkServer w' (inFlight s ++ [Checked sid user data participant])
          | (w', Throw) => mkServer (sendFailed sid w') (inFlight s)
          end
      end
  | Resume i =>
      match inFlight s !! i with
      | None => s
      | Some (Checked sid user data participant) =>
          match sendStore sid user data participant (world s) with
          | (w', Ret (Some message)) =>
              mkServer w' (<[i := Stored sid user data message]> (inFlight s))
          | (w', Ret None) => mkServer w' (delete i (inFlight s))
          | (w', Throw) => mkServer (sendFailed sid w') (delete i (inFlight s))
          end
      | Some (Stored sid user data message) =>
          mkServer (sendEmit user data message (world s)).1 (delete i (inFlight s))
      end
  end.

Definition perform (acts : list Action) (s : Server) : Server :=
  fold_left (fun s a => act a s) acts s.

(** The server starts with no send in flight. *)
Definition initServer (d : Db) (t : Z) : Server := mkServer (initWorld d t) [].



(** An action that sends a message: ['send-message'], or the private
    message, whose handler calls [handleSendMessage]. *)
Definition sends (a : Action) : bool :=
  match a with
  | StartSend _ _ => true
  | Atomic (SendMessage _ _) => true
  | Atomic (SendPrivateMessage _ _ _) => true
  | _ => false
  end.

(** The sends do not overlap: none starts while another is in flight.
    Everything else may run between the stretches of a send. *)
Fixpoint oneAtATime (acts : list Action) (s : Server) : Prop :=
  match acts with
  | [] => True
  | a :: acts' => (sends a = true -> inFlight s = []) /\ oneAtATime acts' (act a s)
  end.




(** The same two sends, one after the other. *)
Definition sendsInTurn : list Action :=
  (map Atomic
     [PostRooms 1 (mkCreateRoomBody "general" None (Some "public") (Some 10));
      PostRoomsJoin 2 (Some 1);
      Connection "s1" 1; Connection "s2" 2;
      JoinRoom "s1" 1; JoinRoom "s2" 1]
   ++ [StartSend "s1" (mkSendData 1 "first" None None None);
       Resume 0; Atomic (TypingStart "s2" 1); Resume 0;
       StartSend "s2" (mkSendData 1 "second" None None None);
       Resume 0; Resume 0])%list.

(** ** What a join announces *)

(** The two events that announce a join. *)
Definition isAnnouncement (ev : ServerEvent) : bool :=
  match ev with
  | EvJoinedRoom _ => true
  | EvUserJoined _ _ _ _ => true
  | _ => false
  end.

(** No join has been announced to anyone. *)
Definition neverAnnounced (w : World) : Prop :=
  Forall (fun x : string * ServerEvent => isAnnouncement x.2 = false) (outbox w).

(** What ['join-room'] answers. *)
Definition joinRoomErrors : list string :=
  ["Room not found"; "Access denied to private room"; "Failed to join room"].
(** * Properties *)

(** ** Reasoning principles for handlers *)

Section Pres.
Context (I : World -> Prop).

Lemma pres_mret {A} (a : A) : pres I (mret a).
Proof. intros w H. exact H. Qed.

Lemma pres_mthrow {A} : pres I (@mthrow A).
Proof. intros w H. exact H. Qed.

Lemma pres_getWorld : pres I getWorld.
Proof. intros w H. exact H. Qed.

Lemma pres_newDate : pres I newDate.
Proof. intros w H. exact H. Qed.

Lemma pres_mbind {A B} (m : M A) (k : A -> M B) :
  pres I m -> (forall a, pres I (k a)) -> pres I (mbind m k).
Proof.
  intros Hm Hk w H. unfold mbind. specialize (Hm w H).
  destruct (m w) as [w' [a|]]; simpl in *; [by apply Hk | done].
Qed.

Lemma pres_tryCatch {A} (m h : M A) : pres I m -> pres I h -> pres I (tryCatch m h).
Proof.
  intros Hm Hh w H. unfold tryCatch. specialize (Hm w H).
  destruct (m w) as [w' [a|]]; simpl in *; [done | by apply Hh].
Qed.

Lemma pres_forEach {A} (l : list A) (f : A -> M unit) :
  (forall a, pres I (f a)) -> pres I (forEach l f).
Proof.
  intros Hf. induction l as [|x l IH]; simpl.
  - apply pres_mret.
  - apply pres_mbind; [apply Hf | intros _; apply IH].
Qed.

Lemma pres_modifyWorld (f : World -> World) :
  (forall w, I w -> I (f w)) -> pres I (modifyWorld f).
Proof. intros Hf w H. by apply Hf. Qed.

Lemma pres_dbRun {A} (stmt : Db -> Db * Res A) :
  (forall w fl, I w -> I (setFaults fl w)) ->
  (forall w, I w -> I (setDb (stmt (db w)).1 w)) ->
  pres I (dbRun stmt).
Proof.
  intros Hf Hd w H. unfold dbRun.
  destruct (dbFaults w) as [|[] fl].
  - specialize (Hd w H). destruct (stmt (db w)); exact Hd.
  - simpl. by apply Hf.
  - specialize (Hd _ (Hf w fl H)). simpl in Hd.
    destruct (stmt (db w)); exact Hd.
Qed.

Lemma pres_emitTo (tg : list string) (ev : ServerEvent) :
  (forall w, I w -> I (setOutbox (outbox w ++ map (fun s => (s, ev)) tg) w)) ->
  pres I (emitTo tg ev).
Proof. intros He w H. by apply He. Qed.

Lemma pres_withSocket (sid : string) (h : SocketUser -> M unit) :
  (forall user, pres I (h user)) -> pres I (withSocket sid h).
Proof.
  intros Hh w H. unfold withSocket.
  destruct (connectedUsers w !! sid); [by apply Hh | done].
Qed.
End Pres.

Lemma pres_ioToRoomEmit I roomId ev :
  (forall w tg, I w -> I (setOutbox (outbox w ++ map (fun s => (s, ev)) tg) w)) ->
  pres I (ioToRoomEmit roomId ev).
Proof. intros He w H. by apply He. Qed.

Lemma pres_socketToRoomEmit I sid roomId ev :
  (forall w tg, I w -> I (setOutbox (outbox w ++ map (fun s => (s, ev)) tg) w)) ->
  pres I (socketToRoomEmit sid roomId ev).
Proof. intros He w H. by apply He. Qed.

Lemma pres_socketEmit I sid ev :
  (forall w tg, I w -> I (setOutbox (outbox w ++ map (fun s => (s, ev)) tg) w)) ->
  pres I (socketEmit sid ev).
Proof. intros He w H. by apply He. Qed.

(** The two ways a statement can end. *)
Lemma dbRun_cases {A} (stmt : Db -> Db * Res A) w :
  exists fl,
    dbRun stmt w = (setFaults fl w, Throw)
    \/ dbRun stmt w = (setDb (stmt (db w)).1 (setFaults fl w), (stmt (db w)).2).
Proof.
  unfold dbRun. destruct w as [d fl t cu ur so o]; simpl.
  destruct fl as [|[] fl].
  - exists []. right. unfold setDb, setFaults; simpl. by destruct (stmt d).
  - exists fl. by left.
  - exists fl. right. unfold setDb, setFaults; simpl. by destruct (stmt d).
Qed.

Lemma dbRun_step {A} (stmt : Db -> Db * Res A) w :
  dbRun stmt w =
    if faultAt 0 (dbFaults w)
    then (setFaults (tail (dbFaults w)) w, Throw)
    else (setDb (stmt (db w)).1 (setFaults (tail (dbFaults w)) w), (stmt (db w)).2).
Proof.
  unfold dbRun, faultAt. destruct w as [d fl t cu ur so o]; simpl.
  destruct fl as [|[] fl]; simpl; [| done |]; unfold setDb, setFaults; simpl;
    by destruct (stmt d).
Qed.

Lemma faultAt_tail n fl : faultAt n (tail fl) = faultAt (S n) fl.
Proof. unfold faultAt. destruct fl; [by destruct n | done]. Qed.

(** With no fault pending a statement just runs. *)
Lemma dbRun_nofault {A} (stmt : Db -> Db * Res A) w :
  dbFaults w = [] -> dbRun stmt w = (setDb (stmt (db w)).1 w, (stmt (db w)).2).
Proof. intros E. unfold dbRun. rewrite E. by destruct (stmt (db w)). Qed.

(** Peels the control structure of a handler down to its primitive steps. *)
Ltac pres_with leaf :=
  repeat first
    [ leaf
    | apply pres_mret | apply pres_mthrow | apply pres_getWorld | apply pres_newDate
    | apply pres_mbind; [| intros ?]
    | apply pres_tryCatch
    | apply pres_forEach; intros ?
    | apply pres_withSocket; intros ?
    | match goal with
      | |- pres _ (match ?x with _ => _ end) => destruct x
      end ].

(** The same, led by the shape of the handler. *)
Ltac pres_shape leaf :=
  repeat first
    [ leaf
    | lazymatch goal with
      | |- pres _ (mret _) => apply pres_mret
      | |- pres _ mthrow => apply pres_mthrow
      | |- pres _ (selectRoomIdFromParticipants _) => apply pres_mthrow
      | |- pres _ getWorld => apply pres_getWorld
      | |- pres _ newDate => apply pres_newDate
      | |- pres _ (mbind _ _) => apply pres_mbind; [| intros ?]
      | |- pres _ (tryCatch _ _) => apply pres_tryCatch
      | |- pres _ (forEach _ _) => apply pres_forEach; intros ?
      | |- pres _ (withSocket _ _) => apply pres_withSocket; intros ?
      | |- pres _ (match ?x with _ => _ end) => destruct x
      end ].

Ltac pres_struct :=
  repeat first
    [ apply pres_mret | apply pres_mthrow | apply pres_getWorld | apply pres_newDate
    | apply pres_mbind; [| intros ?]
    | apply pres_tryCatch
    | apply pres_forEach; intros ?
    | apply pres_withSocket; intros ?
    | match goal with
      | |- pres _ (match ?x with _ => _ end) => destruct x
      end ].

Ltac unfold_handlers :=
  unfold onJoinRoom, onLeaveRoom, onSendMessage, onTypingStart, onTypingStop,
    onToggleReaction, onGetOnlineUsers, onSendPrivateMessage,
    handleJoinRoom, handleLeaveRoom, handlePrivateMessage, resolveDirectRoom,
    getRoomInfo, selectRoomIdFromParticipants, sendUserInfo, authenticate, postRooms,
    postRoomsJoin, postRoomsLeave.

(** ** The connection registry *)

Lemma registry_emitOk ev w tg :
  registryConsistent w ->
  registryConsistent (setOutbox (outbox w ++ map (fun s => (s, ev)) tg) w).
Proof. intros H. exact H. Qed.

Lemma registry_dbRun {A} (stmt : Db -> Db * Res A) : pres registryConsistent (dbRun stmt).
Proof. apply pres_dbRun; intros; assumption. Qed.

Lemma registry_socketJoin sid roomId : pres registryConsistent (socketJoin sid roomId).
Proof.
  apply pres_modifyWorld. intros w (H1 & H2 & H3).
  split; [exact H1 | split; [exact H2 |]]. simpl. by rewrite dom_alter_L.
Qed.

Lemma registry_socketLeave sid roomId : pres registryConsistent (socketLeave sid roomId).
Proof.
  apply pres_modifyWorld. intros w (H1 & H2 & H3).
  split; [exact H1 | split; [exact H2 |]]. simpl. by rewrite dom_alter_L.
Qed.

Ltac registry_prims :=
  first [ apply registry_dbRun | apply registry_socketJoin | apply registry_socketLeave
        | apply pres_socketEmit, registry_emitOk
        | apply pres_ioToRoomEmit, registry_emitOk
        | apply pres_socketToRoomEmit, registry_emitOk ].

Lemma registry_handleSendMessage sid user data :
  pres registryConsistent (handleSendMessage sid user data).
Proof. unfold handleSendMessage. pres_struct; registry_prims. Qed.

(** A new socket enters both maps. *)
Lemma registry_register sid user w :
  registryConsistent w -> sockets w !! sid = None ->
  registryConsistent (registerSocket sid user (setSockets (<[sid := ∅]> (sockets w)) w)).
Proof.
  intros (H1 & H2 & H3) Hfresh.
  assert (Hcu : connectedUsers w !! sid = None).
  { apply not_elem_of_dom. rewrite <- H3. by apply not_elem_of_dom. }
  unfold registerSocket; simpl.
  set (ur := match userRooms w !! su_id user with
             | Some _ => userRooms w
             | None => <[su_id user := ∅]> (userRooms w)
             end).
  assert (Hur : forall uid, ur !! uid =
            if decide (uid = su_id user)
            then Some (default ∅ (userRooms w !! uid)) else userRooms w !! uid).
  { intros uid. unfold ur. case_decide as Hd.
    - subst uid. destruct (userRooms w !! su_id user) eqn:E; simpl.
      + by rewrite E.
      + by rewrite lookup_insert_eq.
    - destruct (userRooms w !! su_id user); [done|]. by rewrite lookup_insert_ne. }
  split; [| split; [intros uid S H; split |]]; simpl in *.
  - intros s u. rewrite lookup_insert. case_decide as Hs.
    + intros [= <-]. subst s. rewrite lookup_alter_eq, Hur.
      rewrite decide_True by done. simpl. eexists; split; [done | set_solver].
    + intros Hu. destruct (H1 _ _ Hu) as (S & HS & Hin).
      destruct (decide (su_id u = su_id user)) as [e|n].
      * rewrite e, lookup_alter_eq, Hur, decide_True by done.
        rewrite <- e, HS. simpl. eexists; split; [done | set_solver].
      * rewrite lookup_alter_ne, Hur, decide_False by done. eauto.
  - destruct (decide (uid = su_id user)) as [->|n].
    + rewrite lookup_alter_eq, Hur, decide_True in H by done.
      simpl in H. injection H as <-. set_solver.
    + rewrite lookup_alter_ne, Hur, decide_False in H by done.
      by apply H2 in H as [? _].
  - intros s Hs. destruct (decide (uid = su_id user)) as [->|n].
    + rewrite lookup_alter_eq, Hur, decide_True in H by done.
      simpl in H. injection H as <-.
      destruct (decide (s = sid)) as [->|ns].
      * exists user. by rewrite lookup_insert_eq.
      * rewrite lookup_insert_ne by done.
        destruct (userRooms w !! su_id user) as [S0|] eqn:E; simpl in Hs; [|set_solver].
        apply (H2 _ _ E). set_solver.
    + rewrite lookup_alter_ne, Hur, decide_False in H by done.
      destruct (H2 _ _ H) as [_ Hall]. destruct (Hall _ Hs) as (u & Hu & Hid).
      exists u. split; [|done]. rewrite lookup_insert_ne; [done|].
      intros <-. by rewrite Hcu in Hu.
  - by rewrite !dom_insert_L, H3.
Qed.

(** A disconnecting socket leaves both maps; the user's entry goes with
    their last socket. *)
Lemma registry_unregister sid user w :
  registryConsistent w -> connectedUsers w !! sid = Some user ->
  registryConsistent (unregisterSocket sid user (setSockets (delete sid (sockets w)) w)).
Proof.
  intros (H1 & H2 & H3) Hu.
  destruct (H1 _ _ Hu) as (S0 & HS0 & Hin0).
  unfold unregisterSocket; simpl. rewrite HS0.
  match goal with
  | |- registryConsistent (if ?b then setUserRooms ?A ?W else setUserRooms ?B ?W) =>
      replace (if b then setUserRooms A W else setUserRooms B W)
        with (setUserRooms (if b then A else B) W) by (by destruct b)
  end.
  set (ur := if (size (S0 ∖ {[sid]}) =? 0)%nat
             then delete (su_id user) (<[su_id user := S0 ∖ {[sid]}]> (userRooms w))
             else <[su_id user := S0 ∖ {[sid]}]> (userRooms w)).
  assert (Hl : forall uid, ur !! uid =
              if decide (uid = su_id user)
              then (if decide (S0 ∖ {[sid]} = ∅) then None else Some (S0 ∖ {[sid]}))
              else userRooms w !! uid).
  { intros uid. unfold ur. destruct (Nat.eqb_spec (size (S0 ∖ {[sid]})) 0) as [e|n].
    - apply size_empty_inv in e. apply leibniz_equiv in e.
      destruct (decide (uid = su_id user)) as [->|Hd].
      + rewrite decide_True by done. by rewrite lookup_delete_eq.
      + by rewrite lookup_delete_ne, lookup_insert_ne.
    - destruct (decide (uid = su_id user)) as [->|Hd].
      + rewrite decide_False; [by rewrite lookup_insert_eq|].
        intros e. apply n. rewrite e. apply size_empty.
      + by rewrite lookup_insert_ne. }
  clearbody ur.
  split; [| split; [intros uid S H; split |]]; simpl in *.
  - intros s u. rewrite lookup_delete. destruct (decide (sid = s)) as [|Hs]; [done|].
    intros Hu'. destruct (H1 _ _ Hu') as (S & HS & Hin).
    rewrite Hl. destruct (decide (su_id u = su_id user)) as [Hd|Hd].
    + rewrite Hd in HS. rewrite HS0 in HS. injection HS as <-.
      rewrite decide_False by set_solver. eexists; split; [done | set_solver].
    + eauto.
  - rewrite Hl in H. destruct (decide (uid = su_id user)) as [Hd|Hd].
    + destruct (decide (S0 ∖ {[sid]} = ∅)); [done | by injection H as <-].
    + by apply H2 in H as [? _].
  - intros s Hs. rewrite Hl in H. destruct (decide (uid = su_id user)) as [Hd|Hd].
    + destruct (decide (S0 ∖ {[sid]} = ∅)); [done|]. injection H as <-.
      assert (s <> sid) by set_solver. rewrite lookup_delete_ne by done.
      subst uid. apply (H2 _ _ HS0). set_solver.
    + destruct (H2 _ _ H) as [_ Hall]. destruct (Hall _ Hs) as (u & Hu' & Hid).
      exists u. split; [|done]. rewrite lookup_delete_ne; [done|].
      intros <-. rewrite Hu in Hu'. injection Hu' as <-. congruence.
  - by rewrite !dom_delete_L, H3.
Qed.

Lemma registry_authenticate sid uid :
  pres (fun w => registryConsistent w /\ sockets w !! sid = None) (authenticate uid).
Proof.
  unfold authenticate. pres_struct.
  apply pres_dbRun; intros; assumption.
Qed.

Lemma registry_Connection sid uid w :
  registryConsistent w -> sockets w !! sid = None ->
  registryConsistent (run (Connection sid uid) w).
Proof.
  intros H Ha. unfold run, handle, mbind.
  pose proof (registry_authenticate sid uid w (conj H Ha)) as Hauth.
  destruct (authenticate uid w) as [w1 [[user|]|]]; simpl in *; try tauto.
  destruct Hauth as [H1 Hf].
  unfold onConnection, mbind, modifyWorld; simpl.
  apply (pres_tryCatch registryConsistent (sendUserInfo sid user) (mret tt)).
  - unfold sendUserInfo. pres_struct; registry_prims.
  - apply pres_mret.
  - by apply registry_register.
Qed.

Lemma registry_Disconnect sid w :
  registryConsistent w -> registryConsistent (run (Disconnect sid) w).
Proof.
  intros H. unfold run, handle, withSocket.
  destruct (connectedUsers w !! sid) as [user|] eqn:Hu; [|done].
  unfold onDisconnect.
  change (registryConsistent
    ((w' <- getWorld ;;
      forEach (socketRooms sid w') (fun room =>
        socketToRoomEmit sid room (EvUserOffline (su_id user) (su_username user))))
     (unregisterSocket sid user (setSockets (delete sid (sockets w)) w))).1).
  apply (pres_mbind registryConsistent).
  - apply pres_getWorld.
  - intros w'. apply pres_forEach. intros room. registry_prims.
  - by apply registry_unregister.
Qed.

Lemma registry_run e w :
  registryConsistent w -> admissible e w -> registryConsistent (run e w).
Proof.
  intros H Ha. destruct e;
    [ by apply registry_Connection | by apply registry_Disconnect | .. ];
    clear Ha; revert w H; unfold run;
    match goal with |- forall w, _ -> registryConsistent (?m w).1 =>
      change (pres registryConsistent m) end;
    unfold handle; unfold_handlers;
    pres_shape ltac:(idtac; lazymatch goal with
                     | |- pres _ (handleSendMessage _ _ _) =>
                         apply registry_handleSendMessage
                     end);
    lazymatch goal with
    | |- pres _ (dbRun _) => apply registry_dbRun
    | |- pres _ (socketJoin _ _) => apply registry_socketJoin
    | |- pres _ (socketLeave _ _) => apply registry_socketLeave
    | |- pres _ (socketEmit _ _) => apply pres_socketEmit, registry_emitOk
    | |- pres _ (ioToRoomEmit _ _) => apply pres_ioToRoomEmit, registry_emitOk
    | |- pres _ (socketToRoomEmit _ _ _) => apply pres_socketToRoomEmit, registry_emitOk
    | |- pres _ (modifyWorld _) => apply pres_modifyWorld; intros ? H; exact H
    end.
Qed.

Lemma reachable_registryConsistent w : reachable w -> registryConsistent w.
Proof.
  induction 1 as [d t | w e Hr IH Ha].
  - split; [| split]; simpl.
    + intros sid u Hl. by rewrite lookup_empty in Hl.
    + intros uid S Hl. by rewrite lookup_empty in Hl.
    + by rewrite !dom_empty_L.
  - by apply registry_run.
Qed.

Lemma reachable_exec es w : reachable w -> admissibleAll es w -> reachable (exec es w).
Proof.
  revert w. induction es as [|e es IH]; intros w Hr Ha; simpl in *; [done|].
  destruct Ha as [Ha Hrest]. apply IH; [by apply reachable_step | done].
Qed.

Lemma connectedUsers_emits sid user (c : gmap string SocketUser) w :
  connectedUsers w = c ->
  connectedUsers
    ((w' <- getWorld ;;
      forEach (socketRooms sid w') (fun room =>
        socketToRoomEmit sid room (EvUserOffline (su_id user) (su_username user)))) w).1 = c.
Proof.
  revert w. change (pres (fun w => connectedUsers w = c)
    (w' <- getWorld ;;
      forEach (socketRooms sid w') (fun room =>
        socketToRoomEmit sid room (EvUserOffline (su_id user) (su_username user))))).
  pres_struct.
Qed.

Lemma run_Disconnect_connectedUsers sid user w :
  connectedUsers w !! sid = Some user ->
  connectedUsers (run (Disconnect sid) w) = delete sid (connectedUsers w).
Proof.
  intros Hu. unfold run; simpl. unfold withSocket. rewrite Hu.
  unfold onDisconnect.
  change (connectedUsers
    ((w' <- getWorld ;;
      forEach (socketRooms sid w') (fun room =>
        socketToRoomEmit sid room (EvUserOffline (su_id user) (su_username user))))
     (unregisterSocket sid user (setSockets (delete sid (sockets w)) w))).1
    = delete sid (connectedUsers w)).
  apply connectedUsers_emits. unfold unregisterSocket; simpl.
  destruct (userRooms w !! su_id user); [|done].
  by destruct (size _ =? 0)%nat.
Qed.

(** The registry is written by the connection and by the disconnect
    handler only. *)
Lemma connectedUsers_keep {A} (c : gmap string SocketUser) (m : M A) :
  (forall w, connectedUsers (m w).1 = connectedUsers w) ->
  pres (fun w => connectedUsers w = c) m.
Proof. intros H w E. by rewrite H. Qed.

Lemma connectedUsers_dbRun {A} (c : gmap string SocketUser) (stmt : Db -> Db * Res A) :
  pres (fun w => connectedUsers w = c) (dbRun stmt).
Proof. apply pres_dbRun; intros; assumption. Qed.

Ltac connectedUsers_prims :=
  first [ apply connectedUsers_dbRun
        | apply pres_socketEmit; intros; assumption
        | apply pres_ioToRoomEmit; intros; assumption
        | apply pres_socketToRoomEmit; intros; assumption
        | apply pres_modifyWorld; intros ? H; exact H ].

Lemma connectedUsers_run e w :
  (forall sid uid, e <> Connection sid uid) -> (forall sid, e <> Disconnect sid) ->
  connectedUsers (run e w) = connectedUsers w.
Proof.
  intros Hc Hd.
  enough (pres (fun w' => connectedUsers w' = connectedUsers w) (handle e)) as H
    by (by apply H).
  destruct e; [by destruct (Hc sid uid) | by destruct (Hd sid) | ..];
    unfold handle; unfold_handlers; unfold handleSendMessage, socketJoin, socketLeave;
    pres_with fail; connectedUsers_prims.
Qed.

Lemma run_Connection_connectedUsers sid uid w :
  connectedUsers (run (Connection sid uid) w)
  = match (authenticate uid w).2 with
    | Ret (Some user) => <[sid := user]> (connectedUsers w)
    | _ => connectedUsers w
    end.
Proof.
  assert (Ha : connectedUsers (authenticate uid w).1 = connectedUsers w).
  { enough (pres (fun w' => connectedUsers w' = connectedUsers w) (authenticate uid)) as H
      by (by apply H).
    unfold authenticate. pres_struct. apply connectedUsers_dbRun. }
  unfold run, handle, mbind.
  destruct (authenticate uid w) as [w1 [[user|]|]]; simpl in *; [| done | done].
  unfold onConnection, mbind, modifyWorld; simpl.
  enough (pres (fun w' => connectedUsers w' = <[sid := user]> (connectedUsers w))
            (tryCatch (sendUserInfo sid user) (mret tt))) as H.
  { apply H. unfold registerSocket; simpl. by rewrite Ha. }
  unfold sendUserInfo. pres_struct; connectedUsers_prims.
Qed.

(** The registry follows Socket.IO's view, event by event. *)
Lemma live_run e w (live : gmap string Z) :
  admissible e w ->
  registryConsistent w ->
  (forall sid, su_id <$> connectedUsers w !! sid = live !! sid) ->
  registryConsistent (run e w)
  /\ (forall sid, su_id <$> connectedUsers (run e w) !! sid = liveStep e w live !! sid).
Proof.
  intros Ha Hreg Hl. split; [by apply registry_run|]. intros s.
  destruct e;
    try (rewrite connectedUsers_run by (intros; discriminate); simpl; apply Hl).
  - rewrite run_Connection_connectedUsers. simpl.
    destruct ((authenticate uid w).2) as [[user|]|]; [| apply Hl | apply Hl].
    destruct (decide (sid = s)) as [<-|n].
    + by rewrite !lookup_insert_eq.
    + rewrite !lookup_insert_ne by done. apply Hl.
  - simpl. destruct (connectedUsers w !! sid) as [user|] eqn:Hu.
    + rewrite (run_Disconnect_connectedUsers _ _ _ Hu).
      destruct (decide (sid = s)) as [<-|n].
      * by rewrite !lookup_delete_eq.
      * rewrite !lookup_delete_ne by done. apply Hl.
    + assert (run (Disconnect sid) w = w) as ->.
      { unfold run, handle, withSocket. by rewrite Hu. }
      rewrite delete_id; [apply Hl|]. by rewrite <- Hl, Hu.
Qed.

Lemma live_exec es : forall w (live : gmap string Z),
  admissibleAll es w ->
  registryConsistent w ->
  (forall sid, su_id <$> connectedUsers w !! sid = live !! sid) ->
  registryConsistent (exec es w)
  /\ (forall sid, su_id <$> connectedUsers (exec es w) !! sid = liveSockets es w live !! sid).
Proof.
  induction es as [|e es IH]; intros w live Ha Hreg Hl; [done|].
  destruct Ha as [Ha Hrest].
  destruct (live_run e w live Ha Hreg Hl) as [Hreg' Hl'].
  simpl. by apply IH.
Qed.

(** What the agreement with Socket.IO's view gives for one user. *)
Lemma live_userRooms w (live : gmap string Z) uid :
  registryConsistent w ->
  (forall sid, su_id <$> connectedUsers w !! sid = live !! sid) ->
  userRooms w !! uid
  = if decide (liveSocketsOf uid live = ∅) then None else Some (liveSocketsOf uid live).
Proof.
  intros (H1 & H2 & _) Hl.
  assert (Hin : forall sid, sid ∈ liveSocketsOf uid live <-> live !! sid = Some uid).
  { intros sid. unfold liveSocketsOf. rewrite elem_of_dom. split.
    - intros [x Hx]. apply map_lookup_filter_Some in Hx as [Hx Hp]. simpl in Hp. by subst x.
    - intros Hx. exists uid. by apply map_lookup_filter_Some. }
  destruct (userRooms w !! uid) as [S|] eqn:E.
  - destruct (H2 _ _ E) as [Hne Hall].
    assert (S = liveSocketsOf uid live) as <-.
    { apply set_eq. intros sid. rewrite Hin. split.
      - intros Hs. destruct (Hall _ Hs) as (u & Hu & Hid). by rewrite <- Hl, Hu, <- Hid.
      - intros Hs. rewrite <- Hl in Hs.
        destruct (connectedUsers w !! sid) as [u|] eqn:Hu; [|done].
        injection Hs as Hid. destruct (H1 _ _ Hu) as (S' & HS' & Hs').
        rewrite Hid, E in HS'. by injection HS' as <-. }
    by rewrite decide_False.
  - rewrite decide_True; [done|]. apply set_eq. intros sid. rewrite Hin. split; [|set_solver].
    intros Hs. rewrite <- Hl in Hs.
    destruct (connectedUsers w !! sid) as [u|] eqn:Hu; [|done].
    injection Hs as Hid. destruct (H1 _ _ Hu) as (S' & HS' & _). congruence.
Qed.

(** C10. After any run of connections, disconnections and other events
    from a start with nobody connected, the registry agrees with Socket.IO's
    own view of the connections and its two maps agree with each other:
    [connectedUsers] holds exactly the sockets that are connected, each
    with its user; the [userRooms] entry of a user is the set of their
    connected sockets, and there is none when that set is empty; a
    connected socket sits in the entry of its owner and in no other; when a
    user's only socket disconnects, the entry is gone; and
    [getUserConnectionCount] is the number of the user's connected
    sockets, 0 exactly for the users with no live connection. *)
Theorem C10_registry_consistent (d : Db) (t : Z) (es : list Event) :
  admissibleAll es (initWorld d t) ->
  let w := exec es (initWorld d t) in
  let live := liveSockets es (initWorld d t) ∅ in
  dom (connectedUsers w) = dom live
  /\ dom (sockets w) = dom (connectedUsers w)
  /\ (forall sid, su_id <$> connectedUsers w !! sid = live !! sid)
  /\ (forall uid,
        userRooms w !! uid
        = if decide (liveSocketsOf uid live = ∅) then None
          else Some (liveSocketsOf uid live))
  /\ (forall sid u, connectedUsers w !! sid = Some u ->
        forall uid, (exists S : gset string, userRooms w !! uid = Some S /\ sid ∈ S)
                    <-> uid = su_id u)
  /\ (forall uid (S : gset string), userRooms w !! uid = Some S ->
        S <> ∅ /\ forall sid, sid ∈ S -> is_Some (connectedUsers w !! sid))
  /\ (forall sid uid, live !! sid = Some uid ->
        (forall sid', live !! sid' = Some uid -> sid' = sid) ->
        userRooms (run (Disconnect sid) w) !! uid = None)
  /\ (forall uid, getUserConnectionCount uid w = size (liveSocketsOf uid live))
  /\ (forall uid, getUserConnectionCount uid w = 0%nat <-> ~ hasLiveConnection uid live).
Proof.
  intros Ha w live.
  assert (Hinit : registryConsistent (initWorld d t)).
  { split; [| split]; simpl.
    - intros sid u Hl. by rewrite lookup_empty in Hl.
    - intros uid S Hl. by rewrite lookup_empty in Hl.
    - by rewrite !dom_empty_L. }
  destruct (live_exec es (initWorld d t) ∅ Ha Hinit) as [Hreg Hl].
  { intros sid. simpl. by rewrite !lookup_empty. }
  fold w in Hreg, Hl. fold live in Hl.
  pose proof Hreg as (H1 & H2 & H3).
  assert (Hin : forall uid sid, sid ∈ liveSocketsOf uid live <-> live !! sid = Some uid).
  { intros uid sid. unfold liveSocketsOf. rewrite elem_of_dom. split.
    - intros [x Hx]. apply map_lookup_filter_Some in Hx as [Hx Hp]. simpl in Hp. by subst x.
    - intros Hx. exists uid. by apply map_lookup_filter_Some. }
  assert (Hcount : forall uid, getUserConnectionCount uid w = size (liveSocketsOf uid live)).
  { intros uid. unfold getUserConnectionCount.
    rewrite (live_userRooms w live uid Hreg Hl).
    destruct (decide (liveSocketsOf uid live = ∅)) as [->|]; [by rewrite size_empty | done]. }
  split; [| split; [done | split; [done | split; [| split; [| split; [| split;
    [| split; [done|]]]]]]]].
  - apply set_eq. intros sid. rewrite !elem_of_dom, <- Hl.
    destruct (connectedUsers w !! sid); simpl; split; intros [? ?]; by eauto.
  - intros uid. by apply live_userRooms.
  - intros sid u Hu uid. split.
    + intros (S & HS & Hs). destruct (H2 _ _ HS) as [_ Hall].
      destruct (Hall _ Hs) as (u' & Hu' & Hid). congruence.
    + intros ->. by apply H1.
  - intros uid S HS. destruct (H2 _ _ HS) as [Hne Hall]. split; [done|].
    intros sid Hs. destruct (Hall _ Hs) as (u & Hu & _). by exists u.
  - intros sid uid Hs Honly.
    destruct (live_run (Disconnect sid) w live I Hreg Hl) as [Hreg' Hl'].
    rewrite (live_userRooms _ _ uid Hreg' Hl'). rewrite decide_True; [done|].
    apply set_eq. intros s. unfold liveSocketsOf. rewrite elem_of_dom. split; [|set_solver].
    intros [x Hx]. apply map_lookup_filter_Some in Hx as [Hx Hp]. simpl in Hp, Hx. subst x.
    apply lookup_delete_Some in Hx as [Hne Hx]. destruct Hne. symmetry. by apply Honly.
  - intros uid. rewrite Hcount. unfold hasLiveConnection. split.
    + intros Hz (sid & Hs). apply size_empty_inv in Hz. apply (Hin uid) in Hs. set_solver.
    + intros Hno. apply size_empty_iff. apply set_equiv. intros sid. split; [|set_solver].
      intros Hs. apply Hin in Hs. destruct Hno. by exists sid.
Qed.

(** Alice opens two connections and closes the first: her entry holds the
    second, and her count is 1. *)
Lemma C10_registry_consistent_witness :
  let w := exec twoDevices world0 in
  let live := liveSockets twoDevices world0 ∅ in
  dom (connectedUsers w) = dom live
  /\ dom (sockets w) = dom (connectedUsers w)
  /\ (forall sid, su_id <$> connectedUsers w !! sid = live !! sid)
  /\ (forall uid,
        userRooms w !! uid
        = if decide (liveSocketsOf uid live = ∅) then None
          else Some (liveSocketsOf uid live))
  /\ (forall sid u, connectedUsers w !! sid = Some u ->
        forall uid, (exists S : gset string, userRooms w !! uid = Some S /\ sid ∈ S)
                    <-> uid = su_id u)
  /\ (forall uid (S : gset string), userRooms w !! uid = Some S ->
        S <> ∅ /\ forall sid, sid ∈ S -> is_Some (connectedUsers w !! sid))
  /\ (forall sid uid, live !! sid = Some uid ->
        (forall sid', live !! sid' = Some uid -> sid' = sid) ->
        userRooms (run (Disconnect sid) w) !! uid = None)
  /\ (forall uid, getUserConnectionCount uid w = size (liveSocketsOf uid live))
  /\ (forall uid, getUserConnectionCount uid w = 0%nat <-> ~ hasLiveConnection uid live).
Proof.
  apply (C10_registry_consistent db0 0 twoDevices).
  vm_compute. repeat split.
Defined.

(** In that state Socket.IO holds Alice's second socket only, and the
    registry with it. *)
Example twoDevices_registry :
  let w := exec twoDevices world0 in
  map_to_list (liveSockets twoDevices world0 ∅) = [("s2", 1)]
  /\ map_to_list (su_id <$> connectedUsers w) = [("s2", 1)]
  /\ elements <$> userRooms w !! 1 = Some ["s2"]
  /\ getUserConnectionCount 1 w = 1%nat
  /\ getUserConnectionCount 2 w = 0%nat.
Proof. vm_compute. repeat split. Qed.

(** ** Delivery order *)

Lemma NoDup_map_filter {A B} (f : A -> B) (P : A -> bool) (l : list A) :
  NoDup (map f l) -> NoDup (map f (List.filter P l)).
Proof.
  induction l as [|x l IH]; simpl; [done|].
  rewrite NoDup_cons. intros [Hx Hl]. destruct (P x); simpl; [|by apply IH].
  apply NoDup_cons. split; [|by apply IH].
  intros Hin. apply Hx. apply list_elem_of_In, in_map_iff in Hin as (y & <- & Hy).
  apply filter_In in Hy as [Hy _]. apply list_elem_of_In, in_map. exact Hy.
Qed.

Lemma NoDup_roomSockets roomId w : NoDup (roomSockets roomId w).
Proof. unfold roomSockets. apply NoDup_map_filter, NoDup_fst_map_to_list. Qed.

(** One emit of a message reaches a socket at most once. *)
Lemma newMessageId_emit sid roomId cm (tg : list string) :
  NoDup tg ->
  omap (newMessageId sid roomId) (map (fun s => (s, EvNewMessage cm)) tg) = []
  \/ omap (newMessageId sid roomId) (map (fun s => (s, EvNewMessage cm)) tg) = [cm_id cm].
Proof.
  induction tg as [|s tg IH]; simpl; [by left|].
  rewrite NoDup_cons. intros [Hs Hnd].
  destruct ((s =? sid)%string && (cm_roomId cm =? roomId)%Z) eqn:E; [|by apply IH].
  right. f_equal.
  apply andb_true_iff in E as [E _]. apply String.eqb_eq in E. subst s.
  clear IH Hnd. induction tg as [|s tg IH]; simpl; [done|].
  apply not_elem_of_cons in Hs as [Hne Hs].
  destruct (String.eqb_spec s sid) as [e|_]; [congruence|]. simpl. by apply IH.
Qed.

Lemma newMessageId_other sid roomId ev (tg : list string) :
  (forall m, ev <> EvNewMessage m) ->
  omap (newMessageId sid roomId) (map (fun s => (s, ev)) tg) = [].
Proof.
  intros Hev. induction tg as [|s tg IH]; simpl; [done|].
  destruct ev; try exact IH. by destruct (Hev message0).
Qed.

Lemma delivery_emit_other ev w tg :
  (forall m, ev <> EvNewMessage m) ->
  deliveryInv w -> deliveryInv (setOutbox (outbox w ++ map (fun s => (s, ev)) tg) w).
Proof.
  intros Hev [Hs Hp]. split.
  - intros sid roomId. unfold receivedIds; simpl.
    rewrite omap_app, newMessageId_other, app_nil_r by done. apply Hs.
  - intros sid m Hin. simpl in Hin. apply elem_of_app in Hin as [Hin|Hin]; [exact (Hp _ _ Hin)|].
    apply list_elem_of_In, in_map_iff in Hin as (s & [= _ E] & _). by destruct (Hev m).
Qed.

Lemma delivery_dbRun {A} (stmt : Db -> Db * Res A) :
  msgStable stmt -> pres deliveryInv (dbRun stmt).
Proof.
  intros Hst. apply pres_dbRun.
  - intros w fl H. exact H.
  - intros w [Hs Hp]. destruct (Hst (db w)) as [E1 E2]. split.
    + intros sid roomId. simpl. rewrite E2. apply Hs.
    + intros sid m Hin. simpl. rewrite E1. exact (Hp _ _ Hin).
Qed.

(** Persist, then fan out: the step of [handleSendMessage] that matters. *)
Lemma delivery_send w w' cm row tg :
  deliveryInv w -> NoDup tg ->
  outbox w' = (outbox w ++ map (fun s => (s, EvNewMessage cm)) tg)%list ->
  chatMessages (db w') = (chatMessages (db w) ++ [row])%list ->
  messageSeq (db w') = messageSeq (db w) + 1 ->
  cm_id cm = messageSeq (db w) ->
  m_id row = cm_id cm -> m_roomId row = cm_roomId cm -> m_content row = cm_content cm ->
  deliveryInv w'.
Proof.
  intros [Hs Hp] Hnd Ho Hc Hq Hid Hr1 Hr2 Hr3. split.
  - intros sid roomId. unfold receivedIds. rewrite Ho, omap_app, Hq.
    destruct (Hs sid roomId) as [Hsort Hlt].
    destruct (newMessageId_emit sid roomId cm tg Hnd) as [-> | ->].
    + rewrite app_nil_r. split; [done|].
      eapply Forall_impl; [exact Hlt|]. simpl. intros; lia.
    + split.
      * apply StronglySorted_app_2; [| done | repeat constructor].
        intros x1 x2 Hx1 Hx2. apply list_elem_of_singleton in Hx2 as ->.
        rewrite Forall_forall in Hlt. rewrite Hid. by apply Hlt.
      * apply Forall_app. split.
        -- eapply Forall_impl; [exact Hlt|]. simpl. intros; lia.
        -- repeat constructor. lia.
  - intros sid m Hin. rewrite Ho in Hin. rewrite Hc.
    apply elem_of_app in Hin as [Hin|Hin].
    + destruct (Hp _ _ Hin) as (r & Hr & ?). exists r. split; [set_solver | done].
    + apply list_elem_of_In, in_map_iff in Hin as (s & [= _ <-] & _).
      exists row. split; [set_solver | done].
Qed.

Lemma delivery_handleSendMessage sid user data :
  pres deliveryInv (handleSendMessage sid user data).
Proof.
  intros w H. unfold handleSendMessage, mbind.
  destruct (dbRun_cases (selectFirst roomParticipants
              (isActiveParticipant (sd_roomId data) (su_id user))) w) as (fl & [E|E]);
    rewrite E; simpl; [exact H|].
  destruct (head _) as [p|]; simpl.
  - unfold mbind, newDate.
    match goal with |- context [dbRun ?s ?w1] =>
      destruct (dbRun_cases s w1) as (fl2 & [E2|E2]); rewrite E2; simpl end; [exact H|].
    eapply (delivery_send w); [exact H | apply NoDup_roomSockets | simpl; reflexivity
                             | reflexivity | reflexivity | reflexivity | reflexivity
                             | reflexivity | reflexivity].
  - apply (delivery_emit_other _ (setFaults fl w) [sid]); [done | exact H].
Qed.

Lemma msgStable_query {A} (q : Db -> A) : msgStable (query q).
Proof. by intros d. Qed.

Lemma msgStable_selectFirst {R} (t : Db -> list R) c : msgStable (selectFirst t c).
Proof. by intros d. Qed.

Lemma msgStable_selectWhere {R} (t : Db -> list R) c : msgStable (selectWhere t c).
Proof. by intros d. Qed.

Lemma msgStable_insertChatRoom name dsc type createdBy maxParticipants :
  msgStable (insertChatRoom name dsc type createdBy maxParticipants).
Proof. by intros d. Qed.

Lemma msgStable_insertParticipants vals : msgStable (insertParticipants vals).
Proof.
  intros d. unfold insertParticipants.
  by destruct (insertParticipantRows _ _ _) as [[?|] ?].
Qed.

Lemma msgStable_updateParticipants c set : msgStable (updateParticipants c set).
Proof. by intros d. Qed.

Ltac msgStable_solve :=
  first [ apply msgStable_query | apply msgStable_selectFirst | apply msgStable_selectWhere
        | apply msgStable_insertChatRoom | apply msgStable_insertParticipants
        | apply msgStable_updateParticipants ].

Lemma delivery_unregisterSocket sid user :
  pres deliveryInv (modifyWorld (unregisterSocket sid user)).
Proof.
  apply pres_modifyWorld. intros w H. unfold unregisterSocket; simpl.
  destruct (userRooms w !! su_id user); [|exact H].
  destruct (size _ =? 0)%nat; exact H.
Qed.

Ltac delivery_prims :=
  first [ apply delivery_handleSendMessage
        | apply delivery_unregisterSocket
        | apply delivery_dbRun; msgStable_solve
        | apply pres_socketEmit; intros; apply delivery_emit_other; [done | assumption]
        | apply pres_ioToRoomEmit; intros; apply delivery_emit_other; [done | assumption]
        | apply pres_socketToRoomEmit; intros; apply delivery_emit_other; [done | assumption]
        | apply pres_modifyWorld; intros ? H; exact H ].

Lemma delivery_run e w : deliveryInv w -> deliveryInv (run e w).
Proof.
  revert w. unfold run. change (pres deliveryInv (handle e)).
  destruct e; unfold handle, onConnection, onDisconnect;
    unfold_handlers; unfold socketJoin, socketLeave;
    pres_with ltac:(apply delivery_handleSendMessage); delivery_prims.
Qed.

Lemma reachable_deliveryInv w : reachable w -> deliveryInv w.
Proof.
  induction 1 as [d t | w e Hr IH Ha].
  - split.
    + intros sid roomId. split; constructor.
    + intros sid m Hin. simpl in Hin. by apply elem_of_nil in Hin.
  - by apply delivery_run.
Qed.



(** ** Sending *)

(** The scenario of the general chat: Bob's connection receives Alice's
    "hello", from author 1 in room 1, under the persisted id 1. *)
Example general_chat_delivers :
  omap (fun x => match x with
                 | ("s2", EvNewMessage m) =>
                     Some (cm_id m, cm_content m, cm_senderId m, cm_roomId m)
                 | _ => None
                 end) (outbox (exec generalChat world0))
  = [(1, "hello", 1, 1); (2, "hi", 2, 1)].
Proof. vm_compute. reflexivity. Qed.

Lemma filter_nil_iff {A} (P : A -> bool) (l : list A) :
  List.filter P l = [] <-> forall x, x ∈ l -> P x = false.
Proof.
  induction l as [|x l IH]; simpl.
  - split; [intros _ y Hy; by apply elem_of_nil in Hy | done].
  - destruct (P x) eqn:E.
    + split; [done|]. intros H. specialize (H x). rewrite E in H.
      discriminate H. by left.
    + rewrite IH. split.
      * intros H y Hy. apply elem_of_cons in Hy as [->|Hy]; [done | by apply H].
      * intros H y Hy. apply H. by right.
Qed.

Lemma isActiveParticipant_true roomId userId p :
  isActiveParticipant roomId userId p = true
  <-> p_userId p = userId /\ p_roomId p = roomId /\ p_isActive p = true.
Proof.
  unfold isActiveParticipant. rewrite !andb_true_iff, !Z.eqb_eq. tauto.
Qed.

Lemma no_active_participant userId roomId d :
  ~ activeMember userId roomId d ->
  List.filter (isActiveParticipant roomId userId) (roomParticipants d) = [].
Proof.
  intros Hno. apply filter_nil_iff. intros p Hp.
  destruct (isActiveParticipant roomId userId p) eqn:E; [|done].
  exfalso. apply Hno. exists p. by apply isActiveParticipant_true in E.
Qed.

Lemma activeMember_existsb userId roomId d :
  activeMember userId roomId d
  <-> existsb (isActiveParticipant roomId userId) (roomParticipants d) = true.
Proof.
  rewrite existsb_exists. split.
  - intros (p & Hp & H). exists p. split; [by apply list_elem_of_In|].
    by apply isActiveParticipant_true.
  - intros (p & Hp & H). exists p. split; [by apply list_elem_of_In|].
    by apply isActiveParticipant_true in H.
Qed.

(** C4. A send by an identity with no active Membership in the room fails:
    the database is left as it was (no Message row), the sockets keep
    their rooms, and the only event emitted is an error to the caller,
    'You are not a member of this room' whenever the database answered the
    membership query. *)
Theorem C4_send_by_non_member (w : World) (sid : string) (user : SocketUser)
    (data : SendData) :
  ~ activeMember (su_id user) (sd_roomId data) (db w) ->
  let w' := (onSendMessage sid user data w).1 in
  db w' = db w
  /\ sockets w' = sockets w
  /\ exists msg,
       outbox w' = (outbox w ++ [(sid, EvError msg)])%list
       /\ (head (dbFaults w) <> Some true -> msg = "You are not a member of this room").
Proof.
  intros Hno. simpl. unfold onSendMessage, tryCatch, handleSendMessage, mbind.
  unfold dbRun, selectFirst, query. rewrite (no_active_participant _ _ _ Hno). simpl.
  destruct (dbFaults w) as [|[] fl]; simpl.
  - split; [done | split; [done|]]. eexists. split; [done | done].
  - split; [done | split; [done|]]. eexists. split; [done|]. intros H. by destruct H.
  - split; [done | split; [done|]]. eexists. split; [done | done].
Qed.

Lemma C4_send_by_non_member_witness :
  let w := exec carolArrives world0 in
  let w' := (onSendMessage "s3" suCarol (mkSendData 1 "hi" None None None) w).1 in
  db w' = db w
  /\ sockets w' = sockets w
  /\ exists msg,
       outbox w' = (outbox w ++ [("s3", EvError msg)])%list
       /\ (head (dbFaults w) <> Some true -> msg = "You are not a member of this room").
Proof.
  apply (C4_send_by_non_member (exec carolArrives world0) "s3" suCarol
           (mkSendData 1 "hi" None None None)).
  rewrite activeMember_existsb. vm_compute. discriminate.
Defined.

Lemma active_participant_found userId roomId d :
  activeMember userId roomId d ->
  exists p, head (List.filter (isActiveParticipant roomId userId) (roomParticipants d)) = Some p.
Proof.
  intros (p & Hp & H).
  destruct (List.filter (isActiveParticipant roomId userId) (roomParticipants d)) as [|q l] eqn:E.
  - exfalso. rewrite filter_nil_iff in E. specialize (E p Hp).
    assert (isActiveParticipant roomId userId p = true) by (by apply isActiveParticipant_true).
    congruence.
  - by exists q.
Qed.

(** What a send by an active member does when the database is up. *)
Lemma handleSendMessage_member w sid user data :
  dbFaults w = [] -> activeMember (su_id user) (sd_roomId data) (db w) ->
  handleSendMessage sid user data w =
    (setOutbox (outbox w ++ map (fun s => (s, EvNewMessage (sentMessage user data w)))
                              (roomSockets (sd_roomId data) w))
       (setDb (setChatMessages (chatMessages (db w) ++ [sentRow user data w])
                 (messageSeq (db w) + 1) (db w)) w),
     Ret tt).
Proof.
  intros Hf Hm. destruct (active_participant_found _ _ _ Hm) as [p Hp].
  unfold handleSendMessage, mbind.
  rewrite dbRun_nofault by done. simpl. rewrite Hp. simpl.
  unfold mbind, newDate. rewrite dbRun_nofault by done. simpl.
  unfold ioToRoomEmit, emitTo, modifyWorld. simpl.
  destruct w as [d fl t cu ur so o]; destruct d; reflexivity.
Qed.

(** C5, as the code has it. A send by an active member is not validated
    by the handler: the content and the reply target go to the insert as
    they came. If the database accepts the two statements of the handler,
    one Message row is appended that carries them as given, whatever they
    are, and the message is broadcast to the sockets of the room. If the
    database refuses one of the statements, no row is written and the
    caller is sent the one error the handler has, ['Failed to send
    message']. *)
Theorem C5_send_is_not_validated (w : World) (sid : string) (user : SocketUser)
    (data : SendData) :
  activeMember (su_id user) (sd_roomId data) (db w) ->
  let w' := (onSendMessage sid user data w).1 in
  (faultAt 0 (dbFaults w) = false -> faultAt 1 (dbFaults w) = false ->
     chatMessages (db w') = (chatMessages (db w) ++ [sentRow user data w])%list
     /\ m_content (sentRow user data w) = sd_content data
     /\ m_replyToId (sentRow user data w) = sd_replyToId data
     /\ outbox w' = (outbox w ++ map (fun s => (s, EvNewMessage (sentMessage user data w)))
                                    (roomSockets (sd_roomId data) w))%list)
  /\ (faultAt 0 (dbFaults w) = true \/ faultAt 1 (dbFaults w) = true ->
        chatMessages (db w') = chatMessages (db w)
        /\ outbox w' = (outbox w ++ [(sid, EvError "Failed to send message")])%list).
Proof.
  intros Hm. destruct (active_participant_found _ _ _ Hm) as [p Hp]. simpl.
  unfold onSendMessage, tryCatch, handleSendMessage. unfold mbind, newDate.
  rewrite dbRun_step. destruct (faultAt 0 (dbFaults w)) eqn:F0; simpl.
  { unfold socketEmit, emitTo, modifyWorld. simpl.
    split; [intros; discriminate | intros _; done]. }
  rewrite Hp. simpl. rewrite dbRun_step. simpl.
  rewrite faultAt_tail. destruct (faultAt 1 (dbFaults w)) eqn:F1; simpl.
  { unfold socketEmit, emitTo, modifyWorld. simpl.
    split; [intros; discriminate | intros _; done]. }
  unfold ioToRoomEmit, emitTo, modifyWorld. simpl.
  split; [intros _ _; done | intros [H | H]; discriminate].
Qed.

Lemma C5_send_is_not_validated_witness :
  let w := exec generalChat world0 in
  let w' := (onSendMessage "s1" suAlice replyToNothing w).1 in
  chatMessages (db w') = (chatMessages (db w) ++ [sentRow suAlice replyToNothing w])%list
  /\ m_content (sentRow suAlice replyToNothing w) = sd_content replyToNothing
  /\ m_replyToId (sentRow suAlice replyToNothing w) = sd_replyToId replyToNothing
  /\ outbox w' = (outbox w ++ map (fun s => (s, EvNewMessage (sentMessage suAlice replyToNothing w)))
                                 (roomSockets (sd_roomId replyToNothing) w))%list.
Proof.
  apply (C5_send_is_not_validated (exec generalChat world0) "s1" suAlice replyToNothing).
  - apply activeMember_existsb. vm_compute. reflexivity.
  - vm_compute. reflexivity.
  - vm_compute. reflexivity.
Defined.

(** C5 fails as stated: Alice, an active member of room 1 where the only
    messages are 1 and 2, replies to message 999. The message is stored
    with that reply target, and what the send emits is the message, not an
    error. So it is, after it, with a message of 4000 characters. *)
Lemma C5_counterexample :
  let w := exec generalChat world0 in
  let w' := (onSendMessage "s1" suAlice replyToNothing w).1 in
  let w'' := (onSendMessage "s1" suAlice longMessage w').1 in
  map m_id (chatMessages (db w)) = [1; 2]
  /\ map (fun r => (m_id r, m_roomId r, m_replyToId r)) (chatMessages (db w'))
     = [(1, 1, None); (2, 1, None); (3, 1, Some 999)]
  /\ map (fun x => (x.1, newMessageId x.1 1 x)) (drop (length (outbox w)) (outbox w'))
     = [("s1", Some 3); ("s2", Some 3)]
  /\ map (fun r => (m_id r, String.length (m_content r))) (chatMessages (db w''))
     = [(1, 5%nat); (2, 2%nat); (3, 5%nat); (4, 4000%nat)]
  /\ map (fun x => (x.1, newMessageId x.1 1 x)) (drop (length (outbox w')) (outbox w''))
     = [("s1", Some 4); ("s2", Some 4)].
Proof. vm_compute. repeat split. Qed.

(** ** Creating a room *)

Lemma insertParticipants_fresh v d :
  existsb (sameUserRoom (np_userId v) (np_roomId v)) (roomParticipants d) = false ->
  insertParticipants [v] d =
    (setRoomParticipants
       (roomParticipants d ++
          [mkRoomParticipant (participantSeq d) (np_userId v) (np_roomId v) (np_role v)
             (np_joinedAt v) (np_lastSeenAt v) (np_isActive v)])
       (participantSeq d + 1) d, Ret tt).
Proof. intros E. unfold insertParticipants; simpl. by rewrite E. Qed.

Lemma no_row_for_room userId roomId (l : list RoomParticipant) :
  Forall (fun p => p_roomId p <> roomId) l ->
  existsb (sameUserRoom userId roomId) l = false.
Proof.
  induction 1 as [|p l Hp _ IH]; simpl; [done|].
  rewrite IH, orb_false_r. unfold sameUserRoom.
  destruct (Z.eqb_spec (p_roomId p) roomId); [done|]. by rewrite andb_false_r.
Qed.

(** C7, as the code has it. [POST /rooms] writes the Room row and the
    creator's admin Membership row with two statements and no transaction.
    If the first is rejected neither row is written; if the second is
    rejected the Room row stays, without its admin Membership; if both run,
    both rows are written. The first two end in a 500, the last in a 201. *)
Theorem C7_create_room_two_statements (w : World) (userId : Z) (b : CreateRoomBody) :
  validCreateRoom b = true ->
  participantsReferRooms (db w) ->
  let w' := (postRooms userId b w).1 in
  let r := status <$> responseOf (postRooms userId b w) in
  (faultAt 0 (dbFaults w) = true ->
     chatRooms (db w') = chatRooms (db w)
     /\ roomParticipants (db w') = roomParticipants (db w) /\ r = Some 500)
  /\ (faultAt 0 (dbFaults w) = false -> faultAt 1 (dbFaults w) = true ->
        chatRooms (db w') = (chatRooms (db w) ++ [createdRoom userId b w])%list
        /\ roomParticipants (db w') = roomParticipants (db w) /\ r = Some 500)
  /\ (faultAt 0 (dbFaults w) = false -> faultAt 1 (dbFaults w) = false ->
        chatRooms (db w') = (chatRooms (db w) ++ [createdRoom userId b w])%list
        /\ roomParticipants (db w') = (roomParticipants (db w) ++ [adminRow userId w])%list
        /\ r = Some 201).
Proof.
  intros Hv Hfk. simpl.
  assert (Hfresh : existsb (sameUserRoom userId (roomSeq (db w))) (roomParticipants (db w))
                   = false).
  { apply no_row_for_room. eapply Forall_impl; [exact Hfk|]. simpl. intros; lia. }
  unfold postRooms, tryCatch. rewrite Hv. simpl. unfold mbind, newDate.
  rewrite dbRun_step. destruct (faultAt 0 (dbFaults w)) eqn:F0; simpl.
  { split; [| split]; intros; try discriminate; done. }
  rewrite dbRun_step. simpl. rewrite faultAt_tail.
  destruct (faultAt 1 (dbFaults w)) eqn:F1; simpl.
  { split; [| split]; intros; try discriminate; done. }
  rewrite insertParticipants_fresh by exact Hfresh. simpl.
  split; [| split]; intros; try discriminate; done.
Qed.

Lemma C7_create_room_two_statements_witness :
  let w := secondStatementFails in
  let b := mkCreateRoomBody "general" None (Some "public") (Some 10) in
  let w' := (postRooms 1 b w).1 in
  chatRooms (db w') = (chatRooms (db w) ++ [createdRoom 1 b w])%list
  /\ roomParticipants (db w') = roomParticipants (db w)
  /\ status <$> responseOf (postRooms 1 b w) = Some 500.
Proof.
  apply (C7_create_room_two_statements secondStatementFails 1
           (mkCreateRoomBody "general" None (Some "public") (Some 10))).
  - vm_compute. reflexivity.
  - vm_compute. constructor.
  - vm_compute. reflexivity.
  - vm_compute. reflexivity.
Defined.

(** C7 fails as stated: when the database rejects the second statement of
    [POST /rooms], the request ends in a 500 and leaves the room "general"
    in [chat_rooms] with no Membership row at all. *)
Lemma C7_counterexample :
  let w := secondStatementFails in
  let b := mkCreateRoomBody "general" None (Some "public") (Some 10) in
  let w' := (postRooms 1 b w).1 in
  map (fun r => (r_id r, r_name r, r_createdBy r)) (chatRooms (db w')) = [(1, "general", 1)]
  /\ roomParticipants (db w') = []
  /\ status <$> responseOf (postRooms 1 b w) = Some 500.
Proof. vm_compute. repeat split. Qed.

(** ** Subscribing *)

Lemma isParticipant_true roomId userId p :
  isParticipant roomId userId p = true <-> p_userId p = userId /\ p_roomId p = roomId.
Proof. unfold isParticipant. rewrite andb_true_iff, !Z.eqb_eq. tauto. Qed.

Lemma no_participant userId roomId d :
  ~ hasMembership userId roomId d ->
  List.filter (isParticipant roomId userId) (roomParticipants d) = []
  /\ existsb (sameUserRoom userId roomId) (roomParticipants d) = false.
Proof.
  intros Hno. split.
  - apply filter_nil_iff. intros p Hp.
    destruct (isParticipant roomId userId p) eqn:E; [|done].
    exfalso. apply Hno. exists p. by apply isParticipant_true in E.
  - destruct (existsb _ _) eqn:E; [|done]. exfalso. apply Hno.
    apply existsb_exists in E as (p & Hp & E). exists p.
    split; [by apply list_elem_of_In|].
    unfold sameUserRoom in E. by rewrite andb_true_iff, !Z.eqb_eq in E.
Qed.

Lemma head_filter_Some {A} (P : A -> bool) (l : list A) x :
  head (List.filter P l) = Some x -> x ∈ l /\ P x = true.
Proof.
  intros H. assert (Hin : In x (List.filter P l)).
  { destruct (List.filter P l); [done|]. injection H as ->. by left. }
  apply filter_In in Hin as [Hin HP]. split; [by apply list_elem_of_In | done].
Qed.

Lemma head_filter_weaken {A} (P Q : A -> bool) (l : list A) x :
  (forall y, P y = true -> Q y = true) ->
  head (List.filter P l) = Some x -> exists y, head (List.filter Q l) = Some y.
Proof.
  intros HPQ H. apply head_filter_Some in H as [Hin HP].
  destruct (List.filter Q l) as [|y l'] eqn:E; [|by exists y].
  rewrite filter_nil_iff in E. specialize (E x Hin). rewrite HPQ in E; done.
Qed.

Lemma activeRoom_isRoom roomId r : isActiveRoom roomId r = true -> isRoom roomId r = true.
Proof. unfold isActiveRoom, isRoom. by intros [? _]%andb_true_iff. Qed.

(** The end of [handleJoinRoom]: the socket joins the room, and
    [getRoomInfo] throws. *)
Lemma getRoomInfo_throws roomId w :
  exists fl, getRoomInfo roomId w = (setFaults fl w, Throw).
Proof.
  unfold getRoomInfo. unfold mbind at 1.
  destruct (dbRun_cases (selectFirst chatRooms (isRoom roomId)) w) as (fl & [E | E]);
    rewrite E; [by exists fl |].
  simpl. destruct (head _) as [room |].
  - exists fl. unfold mbind, selectRoomIdFromParticipants, mthrow. by destruct w.
  - exists fl. unfold mthrow. by destruct w.
Qed.


Section JoinRoom.
Context (w : World) (sid : string) (user : SocketUser) (roomId : Z).
Hypothesis nofault : dbFaults w = [].



Context (room : ChatRoom).
Hypothesis found :
  head (List.filter (isActiveRoom roomId) (chatRooms (db w))) = Some room.




End JoinRoom.





(** ** Joining over REST *)

(** What the capacity check decides on: for a caller without a Membership
    row, in an active room with at least one active member, the join is
    refused exactly when the [id] of the first active Membership row is at
    least the room's capacity. *)
Lemma postRoomsJoin_newcomer userId roomId w room first rest :
  dbFaults w = [] ->
  head (List.filter (isActiveRoom roomId) (chatRooms (db w))) = Some room ->
  ~ hasMembership userId roomId (db w) ->
  List.filter (isActiveIn roomId) (roomParticipants (db w)) = first :: rest ->
  status <$> responseOf (postRoomsJoin userId (Some roomId) w)
  = Some (if (p_id first >=? r_maxParticipants room)%Z then 400 else 200).
Proof.
  intros Hf Hroom Hno Hrows. destruct (no_participant _ _ _ Hno) as [Hnone Hfresh].
  unfold postRoomsJoin, tryCatch. unfold mbind at 1.
  rewrite dbRun_nofault by done. simpl. rewrite Hroom.
  unfold mbind at 1. rewrite dbRun_nofault by done. simpl. rewrite Hnone. simpl.
  unfold mbind at 1. rewrite dbRun_nofault by done. simpl. rewrite Hrows.
  destruct (p_id first >=? r_maxParticipants room)%Z; [done|].
  unfold mbind at 1. unfold newDate at 1. unfold mbind at 1.
  rewrite dbRun_nofault by done. rewrite insertParticipants_fresh by exact Hfresh.
  done.
Qed.

(** C6, where the code departs from it. The capacity check of
    [POST /rooms/:id/join] reads the [id] column of the first active
    Membership row where it means the number of rows: with the database
    up, a caller without a Membership row is refused exactly when that id
    is at least the capacity of the room. In "duo" (capacity 2) the only
    member's row has id 2: Bob, who has no Membership there, is refused
    although one of two places is taken. In "pair" (capacity 2) both
    places are taken, the first row has id 1: Carol is admitted as a third
    member. *)
Theorem C6_capacity_check_reads_row_id :
  (forall userId roomId w room first rest,
     dbFaults w = [] ->
     head (List.filter (isActiveRoom roomId) (chatRooms (db w))) = Some room ->
     ~ hasMembership userId roomId (db w) ->
     List.filter (isActiveIn roomId) (roomParticipants (db w)) = first :: rest ->
     status <$> responseOf (postRoomsJoin userId (Some roomId) w)
     = Some (if (p_id first >=? r_maxParticipants room)%Z then 400 else 200))
  /\
  (let w := exec duoRoom world0 in
   listActiveMembers 2 (db w) = [1]
   /\ map r_maxParticipants (List.filter (isRoom 2) (chatRooms (db w))) = [2]
   /\ map p_id (List.filter (isActiveIn 2) (roomParticipants (db w))) = [2]
   /\ responseOf (postRoomsJoin 2 (Some 2) w)
      = Some (mkHttpResponse 400 false "Room is at maximum capacity" None)
   /\ listActiveMembers 2 (db (postRoomsJoin 2 (Some 2) w).1) = [1])
  /\
  (let w := exec pairRoom world0 in
   listActiveMembers 1 (db w) = [1; 2]
   /\ map r_maxParticipants (List.filter (isRoom 1) (chatRooms (db w))) = [2]
   /\ map p_id (List.filter (isActiveIn 1) (roomParticipants (db w))) = [1; 2]
   /\ responseOf (postRoomsJoin 3 (Some 1) w)
      = Some (mkHttpResponse 200 true "Successfully joined the room" None)
   /\ listActiveMembers 1 (db (postRoomsJoin 3 (Some 1) w).1) = [1; 2; 3]).
Proof.
  split; [| vm_compute; repeat split].
  intros userId roomId w room first rest Hf Hroom Hno Hrows.
  by apply postRoomsJoin_newcomer with (rest := rest).
Qed.

(** ** Leaving *)

Lemma updateParticipants_twice (c : RoomParticipant -> bool) upd l :
  (forall p, c (upd p) = c p) -> (forall p, upd (upd p) = upd p) ->
  map (fun p : RoomParticipant => if c p then upd p else p)
    (map (fun p => if c p then upd p else p) l)
  = map (fun p => if c p then upd p else p) l.
Proof.
  intros Hc Hs. rewrite map_map. apply map_ext. intros p.
  destruct (c p) eqn:E; [by rewrite Hc, E, Hs | by rewrite E].
Qed.

Lemma updateParticipants_keys (c : RoomParticipant -> bool) upd l :
  (forall p, rowKey (upd p) = rowKey p) ->
  map rowKey (map (fun p : RoomParticipant => if c p then upd p else p) l) = map rowKey l.
Proof.
  intros Hk. rewrite map_map. apply map_ext. intros p. by destruct (c p).
Qed.

Lemma handleLeaveRoom_nofault sid user roomId w :
  dbFaults w = [] ->
  exists o,
    handleLeaveRoom sid user roomId w
    = (setOutbox (o ++ [(sid, EvLeftRoom roomId)])
         (setDb (setRoomParticipants
                   (map (fun p => if isParticipant roomId (su_id user) p
                                  then setSeen (now w) false p else p)
                      (roomParticipants (db w)))
                   (participantSeq (db w)) (db w))
            (setSockets (alter (fun rs => rs ∖ {[roomId]}) sid (sockets w)) w)), Ret tt).
Proof.
  intros Hf. unfold handleLeaveRoom. unfold mbind at 1. unfold socketLeave, modifyWorld.
  unfold mbind at 1. unfold newDate at 1. unfold mbind at 1.
  rewrite dbRun_nofault by done. simpl.
  unfold mbind, socketToRoomEmit, socketEmit, emitTo, modifyWorld. simpl.
  eexists. reflexivity.
Qed.

Lemma alter_difference_twice sid (roomId : Z) (m : gmap string (gset Z)) :
  alter (fun rs => rs ∖ {[roomId]}) sid (alter (fun rs => rs ∖ {[roomId]}) sid m)
  = alter (fun rs => rs ∖ {[roomId]}) sid m.
Proof.
  apply map_eq. intros s. destruct (decide (sid = s)) as [<-|n].
  - rewrite !lookup_alter_eq. destruct (m !! sid) as [rs|]; simpl; [|done].
    f_equal. set_solver.
  - by rewrite !lookup_alter_ne.
Qed.

Lemma postRoomsLeave_nofault userId roomId w :
  dbFaults w = [] ->
  postRoomsLeave userId (Some roomId) w
  = (setDb (setRoomParticipants
              (map (fun p => if isParticipant roomId userId p then setInactive p else p)
                 (roomParticipants (db w)))
              (participantSeq (db w)) (db w)) w,
     Ret (mkHttpResponse 200 true "Successfully left the room" None)).
Proof.
  intros Hf. unfold postRoomsLeave, tryCatch, mbind.
  rewrite dbRun_nofault by done. reflexivity.
Qed.

Lemma left_not_active (upd : RoomParticipant -> RoomParticipant) userId roomId l :
  (forall p, p_isActive (upd p) = false) ->
  forall p, p ∈ map (fun p => if isParticipant roomId userId p then upd p else p) l ->
    p_userId p = userId -> p_roomId p = roomId -> p_isActive p = false.
Proof.
  intros Hupd p Hin Hu Hr.
  apply list_elem_of_In, in_map_iff in Hin as (q & <- & _).
  destruct (isParticipant roomId userId q) eqn:E; [apply Hupd|].
  unfold isParticipant in E. rewrite Hu, Hr, !Z.eqb_refl in E. discriminate.
Qed.

Lemma alter_difference_not_subscribed sid (roomId : Z) (m : gmap string (gset Z)) :
  (forall rs, m !! sid = Some rs -> roomId ∉ rs) ->
  alter (fun rs => rs ∖ {[roomId]}) sid m = m.
Proof.
  intros H. apply map_eq. intros s. destruct (decide (sid = s)) as [<-|n].
  - rewrite lookup_alter_eq. destruct (m !! sid) as [rs|] eqn:E; simpl; [|done].
    f_equal. specialize (H rs eq_refl). set_solver.
  - by rewrite lookup_alter_ne.
Qed.

(** C9, as the code has it. Leave over REST marks the caller's Membership
    inactive and answers 200; called again it answers 200 and changes
    nothing at all. The socket ['leave-room'] is Leave and Unsubscribe in
    one: subscribed or not, the connection is answered ['left-room'], it is
    not subscribed to the room afterwards, and the caller's Membership in
    the room is inactive, with [lastSeenAt] set to the time of the call;
    on a connection that was not subscribed the subscriptions stay as they
    were and the Membership is written all the same. Called again,
    ['leave-room'] leaves the subscriptions and the Memberships but for
    their [lastSeenAt] as the first call left them. Neither ever deletes a
    Membership row. *)
Theorem C9_leave_repeated (w : World) (sid : string) (user : SocketUser)
    (userId roomId : Z) :
  dbFaults w = [] ->
  (let w1 := (postRoomsLeave userId (Some roomId) w).1 in
   let w2 := (postRoomsLeave userId (Some roomId) w1).1 in
   status <$> responseOf (postRoomsLeave userId (Some roomId) w) = Some 200
   /\ roomParticipants (db w1)
      = map (fun p => if isParticipant roomId userId p then setInactive p else p)
          (roomParticipants (db w))
   /\ ~ activeMember userId roomId (db w1)
   /\ status <$> responseOf (postRoomsLeave userId (Some roomId) w1) = Some 200
   /\ w2 = w1
   /\ map rowKey (roomParticipants (db w1)) = map rowKey (roomParticipants (db w)))
  /\
  (let w1 := (onLeaveRoom sid user roomId w).1 in
   let w2 := (onLeaveRoom sid user roomId w1).1 in
   last (outbox w1) = Some (sid, EvLeftRoom roomId)
   /\ sockets w1 = alter (fun rs => rs ∖ {[roomId]}) sid (sockets w)
   /\ ~ subscribed sid roomId w1
   /\ (~ subscribed sid roomId w -> sockets w1 = sockets w)
   /\ roomParticipants (db w1)
      = map (fun p => if isParticipant roomId (su_id user) p
                      then setSeen (now w) false p else p)
          (roomParticipants (db w))
   /\ ~ activeMember (su_id user) roomId (db w1)
   /\ last (outbox w2) = Some (sid, EvLeftRoom roomId)
   /\ sockets w2 = sockets w1
   /\ map rowButSeen (roomParticipants (db w2)) = map rowButSeen (roomParticipants (db w1))
   /\ map rowKey (roomParticipants (db w1)) = map rowKey (roomParticipants (db w))).
Proof.
  intros Hf. split.
  - simpl. rewrite (postRoomsLeave_nofault userId roomId w Hf). simpl.
    rewrite postRoomsLeave_nofault by done. simpl.
    rewrite updateParticipants_twice by done.
    split; [done | split; [done | split; [| split; [done | split]]]].
    + intros (p & Hin & Hu & Hr & Ha).
      rewrite (left_not_active setInactive userId roomId _ ltac:(done) p Hin Hu Hr) in Ha.
      discriminate.
    + destruct w as [d fl t cu ur so o]; destruct d; reflexivity.
    + by apply updateParticipants_keys.
  - simpl. unfold onLeaveRoom, tryCatch.
    destruct (handleLeaveRoom_nofault sid user roomId w Hf) as [o1 ->]. simpl.
    match goal with |- context [handleLeaveRoom sid user roomId ?w1] =>
      destruct (handleLeaveRoom_nofault sid user roomId w1 Hf) as [o2 ->] end.
    simpl.
    split; [apply last_snoc|]. split; [done|]. split; [| split; [| split; [done|]]].
    + intros (rs & Hrs & Hin). simpl in Hrs. rewrite lookup_alter_eq in Hrs.
      destruct (sockets w !! sid) as [rs0|]; simpl in Hrs; [|done].
      injection Hrs as <-. set_solver.
    + intros Hns. apply alter_difference_not_subscribed.
      intros rs Hrs Hin. apply Hns. by exists rs.
    + split; [| split; [apply last_snoc | split; [apply alter_difference_twice | split]]].
      * intros (p & Hin & Hu & Hr & Ha).
        rewrite (left_not_active (setSeen (now w) false) (su_id user) roomId _
                   ltac:(done) p Hin Hu Hr) in Ha.
        discriminate.
      * rewrite !map_map. apply map_ext. intros p.
        destruct (isParticipant roomId (su_id user) p) eqn:E; simpl.
        -- unfold isParticipant in *. simpl. by rewrite E.
        -- by rewrite E.
      * by apply updateParticipants_keys.
Qed.

(** Alice's connection s1 is not subscribed to room 1, of which she is an
    active member: her ['leave-room'] is answered ['left-room'] and marks
    her Membership inactive. *)
Lemma C9_leave_repeated_witness :
  let w := aliceNotSubscribed in
  (let w1 := (postRoomsLeave 1 (Some 1) w).1 in
   let w2 := (postRoomsLeave 1 (Some 1) w1).1 in
   status <$> responseOf (postRoomsLeave 1 (Some 1) w) = Some 200
   /\ roomParticipants (db w1)
      = map (fun p => if isParticipant 1 1 p then setInactive p else p)
          (roomParticipants (db w))
   /\ ~ activeMember 1 1 (db w1)
   /\ status <$> responseOf (postRoomsLeave 1 (Some 1) w1) = Some 200
   /\ w2 = w1
   /\ map rowKey (roomParticipants (db w1)) = map rowKey (roomParticipants (db w)))
  /\
  (let w1 := (onLeaveRoom "s1" suAlice 1 w).1 in
   let w2 := (onLeaveRoom "s1" suAlice 1 w1).1 in
   last (outbox w1) = Some ("s1", EvLeftRoom 1)
   /\ sockets w1 = alter (fun rs => rs ∖ {[1]}) "s1" (sockets w)
   /\ ~ subscribed "s1" 1 w1
   /\ (~ subscribed "s1" 1 w -> sockets w1 = sockets w)
   /\ roomParticipants (db w1)
      = map (fun p => if isParticipant 1 (su_id suAlice) p
                      then setSeen (now w) false p else p)
          (roomParticipants (db w))
   /\ ~ activeMember (su_id suAlice) 1 (db w1)
   /\ last (outbox w2) = Some ("s1", EvLeftRoom 1)
   /\ sockets w2 = sockets w1
   /\ map rowButSeen (roomParticipants (db w2)) = map rowButSeen (roomParticipants (db w1))
   /\ map rowKey (roomParticipants (db w1)) = map rowKey (roomParticipants (db w))).
Proof.
  apply (C9_leave_repeated aliceNotSubscribed "s1" suAlice 1 1).
  vm_compute. reflexivity.
Defined.

(** C9 fails as stated: Alice is an active member of room 1 and her
    connection s1 is not subscribed to it. Her ['leave-room'] on s1, an
    Unsubscribe of a connection that is not subscribed, marks her Membership
    inactive; repeated later, it moves [lastSeenAt] again. *)
Lemma C9_counterexample :
  let w := aliceNotSubscribed in
  let w1 := (onLeaveRoom "s1" suAlice 1 w).1 in
  let w2 := (onLeaveRoom "s1" suAlice 1 (run (Tick 9) w1)).1 in
  socketRooms "s1" w = []
  /\ map (fun p => (p_userId p, p_roomId p, p_isActive p, p_lastSeenAt p))
         (roomParticipants (db w)) = [(1, 1, true, None)]
  /\ map (fun p => (p_userId p, p_roomId p, p_isActive p, p_lastSeenAt p))
         (roomParticipants (db w1)) = [(1, 1, false, Some 5)]
  /\ map (fun p => (p_userId p, p_roomId p, p_isActive p, p_lastSeenAt p))
         (roomParticipants (db w2)) = [(1, 1, false, Some 9)].
Proof. vm_compute. repeat split. Qed.

(** ** Direct messages *)


















(** [PATCH /profile] writes the [users] table only. *)
Lemma patchProfile_rooms userId b w :
  chatRooms (db (patchProfile userId b w).1) = chatRooms (db w).
Proof.
  enough (pres (fun w' => chatRooms (db w') = chatRooms (db w)) (patchProfile userId b)) as H
    by (by apply H).
  unfold patchProfile. pres_struct; apply pres_dbRun; intros; assumption.
Qed.



(** The room of Alice's messages to Bob stays the one it was, whatever name
    later rooms take. *)
Example direct_room_survives_later_activity :
  (r_id <$> responseOf (resolveDirectRoom suAlice bob world0)) = Some 1
  /\ (r_id <$> responseOf
        (resolveDirectRoom suAlice bob
           (exec laterActivity (resolveDirectRoom suAlice bob world0).1))) = Some 1.
Proof. vm_compute. repeat split. Qed.

(** A message to oneself: the second Membership row of the new room breaks
    [user_room_idx], the insert throws, and the room stays without members. *)
Example direct_room_to_self :
  let w := exec dmToSelf world0 in
  map (fun r => (r_id r, r_name r)) (chatRooms (db w)) = [(1, "DM: alice & alice")]
  /\ roomParticipants (db w) = []
  /\ participantSeq (db w) = 3
  /\ chatMessages (db w) = []
  /\ last (outbox w) = Some ("s1", EvError "Failed to send private message").
Proof. vm_compute. repeat split. Qed.


(** ** Presence *)

Lemma elem_of_roomSockets sid roomId w :
  sid ∈ roomSockets roomId w <-> subscribed sid roomId w.
Proof.
  unfold roomSockets, subscribed. rewrite list_elem_of_In, in_map_iff. split.
  - intros ([s rs] & <- & Hin). apply filter_In in Hin as [Hin Hb].
    apply bool_decide_eq_true in Hb. simpl in *. exists rs. split; [|done].
    by apply elem_of_map_to_list, list_elem_of_In.
  - intros (rs & Hl & Hin). exists (sid, rs). split; [done|].
    apply filter_In. split.
    + by apply list_elem_of_In, elem_of_map_to_list.
    + by apply bool_decide_eq_true.
Qed.

Lemma elem_of_getOnlineUsersInRoom u roomId w :
  u ∈ getOnlineUsersInRoom roomId w
  <-> exists sid, connectedUsers w !! sid = Some u /\ subscribed sid roomId w.
Proof.
  unfold getOnlineUsersInRoom. rewrite list_elem_of_omap. split.
  - intros (sid & Hin & Hu). exists sid. split; [done | by apply elem_of_roomSockets].
  - intros (sid & Hu & Hin). exists sid. split; [by apply elem_of_roomSockets | done].
Qed.

(** Whatever the database does, ['leave-room'] takes the socket out of the
    room and leaves the registry alone. *)
Lemma onLeaveRoom_world sid user roomId w :
  exists d fl o,
    (onLeaveRoom sid user roomId w).1
    = mkWorld d fl (now w) (connectedUsers w) (userRooms w)
        (alter (fun rs => rs ∖ {[roomId]}) sid (sockets w)) o.
Proof.
  unfold onLeaveRoom, tryCatch, handleLeaveRoom.
  unfold mbind at 1. unfold socketLeave, modifyWorld.
  unfold mbind at 1. unfold newDate at 1. unfold mbind at 1.
  match goal with |- context [dbRun ?s ?w1] =>
    destruct (dbRun_cases s w1) as (fl & [E|E]); rewrite E end; simpl;
    eexists _, _, _; reflexivity.
Qed.

Lemma onLeaveRoom_sockets sid user roomId w :
  sockets (onLeaveRoom sid user roomId w).1
    = alter (fun rs => rs ∖ {[roomId]}) sid (sockets w)
  /\ connectedUsers (onLeaveRoom sid user roomId w).1 = connectedUsers w.
Proof. destruct (onLeaveRoom_world sid user roomId w) as (d & fl & o & ->). done. Qed.

(** C2, as the code has it. In every reachable state the identities
    reported online in a room are exactly the owners of the connections
    subscribed to the room's channel (Memberships are not consulted), and
    every subscribed connection is reported. After a ['leave-room'] on a
    connection its owner is no longer reported, unless another of their
    connections is still subscribed. *)
Theorem C2_online_is_subscribed (w : World) (roomId : Z) :
  reachable w ->
  (forall u, u ∈ getOnlineUsersInRoom roomId w
             <-> exists sid, connectedUsers w !! sid = Some u /\ subscribed sid roomId w)
  /\ (forall sid, subscribed sid roomId w ->
        exists u, connectedUsers w !! sid = Some u /\ u ∈ getOnlineUsersInRoom roomId w)
  /\ (forall sid user,
        connectedUsers w !! sid = Some user ->
        (forall sid' u', sid' <> sid -> connectedUsers w !! sid' = Some u' ->
                         su_id u' = su_id user -> ~ subscribed sid' roomId w) ->
        forall u, u ∈ getOnlineUsersInRoom roomId (onLeaveRoom sid user roomId w).1 ->
                  su_id u <> su_id user).
Proof.
  intros Hr. destruct (reachable_registryConsistent w Hr) as (_ & _ & Hdom).
  split; [| split].
  - intros u. apply elem_of_getOnlineUsersInRoom.
  - intros sid (rs & Hs & Hin).
    assert (Hd : sid ∈ dom (connectedUsers w)).
    { rewrite <- Hdom. apply elem_of_dom. by exists rs. }
    apply elem_of_dom in Hd as [u Hu]. exists u. split; [done|].
    apply elem_of_getOnlineUsersInRoom. exists sid. split; [done | by exists rs].
  - intros sid user Hu Hother u Hon Hid.
    apply elem_of_getOnlineUsersInRoom in Hon as (sid' & Hu' & rs & Hs & Hin).
    destruct (onLeaveRoom_sockets sid user roomId w) as [Es Ec].
    rewrite Es in Hs. rewrite Ec in Hu'.
    destruct (decide (sid' = sid)) as [->|n].
    + rewrite lookup_alter_eq in Hs. destruct (sockets w !! sid); simpl in Hs; [|done].
      injection Hs as <-. set_solver.
    + rewrite lookup_alter_ne in Hs by done.
      apply (Hother sid' u n Hu' Hid). by exists rs.
Qed.

Lemma C2_online_is_subscribed_witness :
  suBob ∈ getOnlineUsersInRoom 1 (exec bobLeavesOverRest world0)
  <-> exists sid, connectedUsers (exec bobLeavesOverRest world0) !! sid = Some suBob
                  /\ subscribed sid 1 (exec bobLeavesOverRest world0).
Proof.
  apply (C2_online_is_subscribed (exec bobLeavesOverRest world0) 1).
  apply reachable_exec; [apply reachable_init | vm_compute; repeat split].
Defined.

(** C2 fails as stated: Bob, subscribed to room 1 on his connection, leaves
    the room over REST. His Membership is inactive, the only active member
    is Alice, and Bob is still reported online in the room. *)
Lemma C2_counterexample :
  let w := exec bobLeavesOverRest world0 in
  listActiveMembers 1 (db w) = [1]
  /\ map (fun p => (p_userId p, p_isActive p)) (roomParticipants (db w))
     = [(1, true); (2, false)]
  /\ existsb (fun u => (su_id u =? 2)%Z) (getOnlineUsersInRoom 1 w) = true.
Proof. vm_compute. repeat split. Qed.

(** * Further properties of the chat core *)

(** ** Invariants of the database *)

(** A property of the database alone is kept by a handler as soon as each
    of its statements keeps it. *)
Lemma pres_db {A} (J : Db -> Prop) (stmt : Db -> Db * Res A) :
  stmtKeeps J stmt -> pres (fun w => J (db w)) (dbRun stmt).
Proof.
  intros Hk. apply pres_dbRun.
  - intros w fl H. exact H.
  - intros w H. simpl. by apply Hk.
Qed.

Lemma pres_db_unregisterSocket (J : Db -> Prop) sid user :
  pres (fun w => J (db w)) (modifyWorld (unregisterSocket sid user)).
Proof.
  apply pres_modifyWorld. intros w H. unfold unregisterSocket; simpl.
  destruct (userRooms w !! su_id user); [|exact H].
  destruct (size _ =? 0)%nat; exact H.
Qed.

(** Splits a handler into its statements, for a property of the database;
    [stmt] settles the statements. *)
Ltac db_invariant stmt :=
  unfold handle, onConnection, onDisconnect;
  unfold_handlers; unfold handleSendMessage;
  pres_shape ltac:(idtac; lazymatch goal with
                   | |- pres _ (let _ := _ in _) => cbv zeta
                   end);
  lazymatch goal with
  | |- pres _ (dbRun _) => apply pres_db; stmt
  | |- pres _ (modifyWorld (unregisterSocket _ _)) => apply pres_db_unregisterSocket
  | |- pres _ (socketEmit _ _) => apply pres_socketEmit; intros ? ? H; exact H
  | |- pres _ (ioToRoomEmit _ _) => apply pres_ioToRoomEmit; intros ? ? H; exact H
  | |- pres _ (socketToRoomEmit _ _ _) => apply pres_socketToRoomEmit; intros ? ? H; exact H
  | |- pres _ (socketJoin _ _) => apply pres_modifyWorld; intros ? H; exact H
  | |- pres _ (socketLeave _ _) => apply pres_modifyWorld; intros ? H; exact H
  | |- pres _ (modifyWorld _) => apply pres_modifyWorld; intros ? H; exact H
  end.

Lemma exec_keeps (I : World -> Prop) :
  (forall e w, I w -> I (run e w)) -> forall es w, I w -> I (exec es w).
Proof.
  intros Hrun es. induction es as [|e es IH]; intros w H; simpl; [done|].
  apply IH. by apply Hrun.
Qed.

(** ** Nothing is deleted *)

Lemma grows_refl d : grows d d.
Proof. by split; [| split]. Qed.

Lemma grows_trans d1 d2 d3 : grows d1 d2 -> grows d2 d3 -> grows d1 d3.
Proof.
  intros (A1 & A2 & A3) (B1 & B2 & B3).
  split; [| split]; etrans; done.
Qed.

Lemma insertParticipantRows_prefix vals : forall tbl seq tbl',
  (insertParticipantRows vals tbl seq).1 = Some tbl' -> tbl `prefix_of` tbl'.
Proof.
  induction vals as [|v vals IH]; intros tbl seq tbl'; simpl.
  - by intros [= ->].
  - destruct (existsb _ tbl); [done|]. intros H. apply IH in H.
    etrans; [|exact H]. by apply prefix_app_r.
Qed.

Lemma prefix_map {A B} (f : A -> B) (l1 l2 : list A) :
  l1 `prefix_of` l2 -> map f l1 `prefix_of` map f l2.
Proof. intros [k ->]. rewrite map_app. by apply prefix_app_r. Qed.

Lemma grows_insertParticipants vals d : grows d (insertParticipants vals d).1.
Proof.
  unfold insertParticipants.
  destruct (insertParticipantRows vals (roomParticipants d) (participantSeq d))
    as [[tbl|] seq] eqn:E; simpl; [|by split; [| split]].
  split; [done | split; [done|]]. simpl. apply prefix_map.
  apply (insertParticipantRows_prefix vals _ (participantSeq d)). by rewrite E.
Qed.

Lemma grows_updateParticipants (c : RoomParticipant -> bool) upd d :
  (forall p, rowIdentity (upd p) = rowIdentity p) ->
  grows d (updateParticipants c upd d).1.
Proof.
  intros Hid. split; [done | split; [done|]]. simpl.
  rewrite map_map. erewrite map_ext; [done|]. intros p. simpl. by destruct (c p).
Qed.

Lemma grows_stmt {A} (d0 : Db) (stmt : Db -> Db * Res A) :
  (forall d, grows d (stmt d).1) -> stmtKeeps (grows d0) stmt.
Proof. intros H d Hd. eapply grows_trans; [exact Hd | apply H]. Qed.

Ltac grows_stmt_solve :=
  apply grows_stmt; intros ?;
  first [ apply grows_insertParticipants
        | apply grows_updateParticipants; done
        | apply grows_refl
        | split; [| split]; simpl; first [ done | by apply prefix_app_r ] ].

Lemma grows_run (d0 : Db) e w : grows d0 (db w) -> grows d0 (db (run e w)).
Proof.
  revert w. unfold run. change (pres (fun w => grows d0 (db w)) (handle e)).
  destruct e; db_invariant grows_stmt_solve.
Qed.

(** X2. The chat core deletes nothing and rewrites no room or message:
    after any events, the rooms and the messages that were stored are
    still there, unchanged and in place, and so is every Membership row
    with its id, user, room and role. *)
Theorem X2_nothing_is_deleted (es : list Event) (w : World) :
  grows (db w) (db (exec es w)).
Proof.
  apply (exec_keeps (fun w' => grows (db w) (db w'))).
  - intros e w'. apply grows_run.
  - apply grows_refl.
Qed.

(** ** References between the tables *)

(** What a statement returns may tell more about the database than was
    known before it; the rest of the handler runs under that knowledge. *)
Lemma pres_db_gain {A B} (J : Db -> Prop) (J' : A -> Db -> Prop)
    (stmt : Db -> Db * Res A) (k : A -> M B) :
  stmtKeeps J stmt ->
  (forall d a, J d -> (stmt d).2 = Ret a -> J' a (stmt d).1) ->
  (forall a d, J' a d -> J d) ->
  (forall a, pres (fun w => J' a (db w)) (k a)) ->
  pres (fun w => J (db w)) (mbind (dbRun stmt) k).
Proof.
  intros Hk Hgain Hweak Hrest w H. unfold mbind.
  destruct (dbRun_cases stmt w) as (fl & [E|E]); rewrite E; simpl; [exact H|].
  destruct (stmt (db w)) as [d' [a|]] eqn:Es; simpl.
  - apply (Hweak a). apply (Hrest a). simpl.
    specialize (Hgain (db w) a H). rewrite Es in Hgain. by apply Hgain.
  - specialize (Hk (db w) H). by rewrite Es in Hk.
Qed.

Lemma roomExists_grows roomId d d' : grows d d' -> roomExists roomId d -> roomExists roomId d'.
Proof.
  intros ([k Hk] & _ & _) (r & Hr & Hid). exists r. split; [|done].
  rewrite Hk. apply elem_of_app. by left.
Qed.

Lemma hasMembership_identity userId roomId d :
  hasMembership userId roomId d
  <-> exists i, i ∈ map rowIdentity (roomParticipants d) /\ i.1.2 = roomId /\ i.1.1.2 = userId.
Proof.
  split.
  - intros (p & Hp & Hu & Hr). exists (rowIdentity p). split; [|done].
    apply list_elem_of_In, in_map. by apply list_elem_of_In.
  - intros (i & Hi & Hr & Hu). apply list_elem_of_In, in_map_iff in Hi as (p & <- & Hp).
    exists p. split; [by apply list_elem_of_In | done].
Qed.

Lemma hasMembership_grows userId roomId d d' :
  grows d d' -> hasMembership userId roomId d -> hasMembership userId roomId d'.
Proof.
  intros (_ & _ & [k Hk]). rewrite !hasMembership_identity.
  intros (i & Hi & H). exists i. split; [|done]. rewrite Hk. apply elem_of_app. by left.
Qed.

(** The rows an insert adds are rows of its values. *)
Lemma insertParticipantRows_rows vals : forall tbl seq tbl' p,
  (insertParticipantRows vals tbl seq).1 = Some tbl' -> p ∈ tbl' ->
  p ∈ tbl \/ exists v, v ∈ vals /\ p_userId p = np_userId v /\ p_roomId p = np_roomId v.
Proof.
  induction vals as [|v vals IH]; intros tbl seq tbl' p; simpl.
  - intros [= ->] Hp. by left.
  - destruct (existsb _ tbl); [done|]. intros H Hp.
    destruct (IH _ _ _ _ H Hp) as [Hin | (v' & Hv' & Hr)].
    + apply elem_of_app in Hin as [Hin|Hin]; [by left|].
      apply list_elem_of_singleton in Hin as ->. right. exists v. split; [by left | done].
    + right. exists v'. split; [by right | done].
Qed.

Lemma refs_grows_members d d' :
  grows d d' -> chatMessages d' = chatMessages d ->
  (forall p, p ∈ roomParticipants d' -> roomExists (p_roomId p) d') ->
  referencesOk d -> referencesOk d'.
Proof.
  intros Hg Hm Hp [_ H2]. split; [done|].
  intros m Hin. rewrite Hm in Hin. eapply hasMembership_grows; [exact Hg | by apply H2].
Qed.

Lemma refs_insertChatRoom name dsc type createdBy maxParticipants :
  stmtKeeps referencesOk (insertChatRoom name dsc type createdBy maxParticipants).
Proof.
  intros d H. assert (Hg : grows d (insertChatRoom name dsc type createdBy maxParticipants d).1).
  { split; [| split]; simpl; first [done | by apply prefix_app_r]. }
  eapply refs_grows_members; [exact Hg | done | | exact H].
  intros p Hp. eapply roomExists_grows; [exact Hg|]. by apply H.
Qed.

Lemma refs_updateParticipants (c : RoomParticipant -> bool) upd :
  (forall p, rowIdentity (upd p) = rowIdentity p) ->
  stmtKeeps referencesOk (updateParticipants c upd).
Proof.
  intros Hid d H.
  eapply refs_grows_members; [by apply grows_updateParticipants | done | | exact H].
  intros q Hq. simpl in Hq.
  apply list_elem_of_In, in_map_iff in Hq as (p & <- & Hin). apply list_elem_of_In in Hin.
  assert (E : p_roomId (if c p then upd p else p) = p_roomId p).
  { destruct (c p); [|done]. specialize (Hid p). unfold rowIdentity in Hid. congruence. }
  rewrite E. destruct H as [H1 _]. destruct (H1 p Hin) as (r & Hr & Hrid). by exists r.
Qed.

Lemma refs_insertParticipants vals d :
  referencesOk d -> (forall v, v ∈ vals -> roomExists (np_roomId v) d) ->
  referencesOk (insertParticipants vals d).1.
Proof.
  intros H Hv.
  eapply refs_grows_members; [apply grows_insertParticipants | | | exact H].
  - unfold insertParticipants. by destruct (insertParticipantRows _ _ _) as [[?|] ?].
  - unfold insertParticipants.
    destruct (insertParticipantRows vals (roomParticipants d) (participantSeq d))
      as [[tbl|] seq] eqn:E; simpl.
    + intros p Hp.
      destruct (insertParticipantRows_rows vals (roomParticipants d) (participantSeq d) tbl p)
        as [Hin|Hnew];
        [by rewrite E | done | |].
      * destruct H as [H1 _]. destruct (H1 p Hin) as (r & Hr & Hrid). by exists r.
      * destruct Hnew as (v & Hin & _ & ->). destruct (Hv v Hin) as (r & Hr & Hrid). by exists r.
    + intros p Hp. destruct H as [H1 _]. destruct (H1 p Hp) as (r & Hr & Hrid). by exists r.
Qed.

Lemma refs_insertChatMessage content type senderId roomId replyToId metadata createdAt d :
  referencesOk d -> hasMembership senderId roomId d ->
  referencesOk
    (insertChatMessage content type senderId roomId replyToId metadata createdAt d).1.
Proof.
  intros [H1 H2] Hm. split; [exact H1|]. simpl. intros m Hin.
  apply elem_of_app in Hin as [Hin|Hin]; [by apply H2|].
  apply list_elem_of_singleton in Hin as ->. exact Hm.
Qed.

Lemma refsWithRoom_keeps {A} roomId (stmt : Db -> Db * Res A) :
  stmtKeeps referencesOk stmt -> (forall d, grows d (stmt d).1) ->
  stmtKeeps (refsWithRoom roomId) stmt.
Proof.
  intros Hk Hg d [H1 H2]. split; [by apply Hk|]. eapply roomExists_grows; [apply Hg | done].
Qed.

Lemma refsWithRoom_insertParticipants roomId vals :
  (forall v, v ∈ vals -> np_roomId v = roomId) ->
  stmtKeeps (refsWithRoom roomId) (insertParticipants vals).
Proof.
  intros Hv d [H1 H2]. split.
  - apply refs_insertParticipants; [done|]. intros v Hin. by rewrite (Hv v Hin).
  - eapply roomExists_grows; [apply grows_insertParticipants | done].
Qed.

Ltac values_in_room :=
  let v := fresh "v" in let Hv := fresh "Hv" in
  intros v Hv;
  repeat (apply elem_of_cons in Hv as [->|Hv]; [reflexivity|]);
  by apply elem_of_nil in Hv.

Ltac refs_plain_stmt :=
  first [ apply refs_insertChatRoom
        | apply refs_updateParticipants; done
        | (intros ? H; exact H) ].

Ltac refs_stmt :=
  first [ refs_plain_stmt
        | apply refsWithRoom_insertParticipants; values_in_room
        | apply refsWithRoom_keeps; [refs_plain_stmt | intros ?; grows_stmt_body] ]
with grows_stmt_body :=
  first [ apply grows_insertParticipants
        | apply grows_updateParticipants; done
        | apply grows_refl
        | split; [| split]; simpl; first [ done | by apply prefix_app_r ] ].

(** The steps of a handler that do not touch the database. *)
Ltac io_steps :=
  lazymatch goal with
  | |- pres _ (modifyWorld (unregisterSocket _ _)) => apply pres_db_unregisterSocket
  | |- pres _ (socketEmit _ _) => apply pres_socketEmit; intros ? ? H; exact H
  | |- pres _ (ioToRoomEmit _ _) => apply pres_ioToRoomEmit; intros ? ? H; exact H
  | |- pres _ (socketToRoomEmit _ _ _) => apply pres_socketToRoomEmit; intros ? ? H; exact H
  | |- pres _ (socketJoin _ _) => apply pres_modifyWorld; intros ? H; exact H
  | |- pres _ (socketLeave _ _) => apply pres_modifyWorld; intros ? H; exact H
  | |- pres _ (modifyWorld _) => apply pres_modifyWorld; intros ? H; exact H
  end.

Ltac refs_steps :=
  pres_shape ltac:(idtac; lazymatch goal with
                   | |- pres _ (let _ := _ in _) => cbv zeta
                   end);
  lazymatch goal with
  | |- pres _ (dbRun _) => apply pres_db; refs_stmt
  | |- _ => io_steps
  end.

(** A room that has just been read, or written, exists. *)
Lemma room_read_exists roomId (c : ChatRoom -> bool) d room :
  (forall r, c r = true -> r_id r = roomId) ->
  head (List.filter c (chatRooms d)) = Some room -> roomExists roomId d.
Proof.
  intros Hc H. apply head_filter_Some in H as [Hin Hr]. exists room. split; [done | by apply Hc].
Qed.

Lemma isActiveRoom_id roomId r : isActiveRoom roomId r = true -> r_id r = roomId.
Proof. unfold isActiveRoom. intros [H _]%andb_true_iff. by apply Z.eqb_eq. Qed.

Lemma refs_handleSendMessage sid user data :
  pres (fun w => referencesOk (db w)) (handleSendMessage sid user data).
Proof.
  unfold handleSendMessage.
  apply (pres_db_gain referencesOk
           (fun a d => match a with
                       | Some _ => refsWithMember (su_id user) (sd_roomId data) d
                       | None => referencesOk d
                       end)).
  - intros d H. exact H.
  - intros d a H [= <-]. simpl.
    destruct (head _) as [p|] eqn:E; [|done]. split; [done|].
    apply head_filter_Some in E as [Hin Hp]. apply isActiveParticipant_true in Hp.
    exists p. tauto.
  - intros [p|] d; [by intros [? _] | done].
  - intros [p|]; [|refs_steps].
    apply pres_mbind; [apply pres_newDate | intros t].
    apply pres_mbind; [| intros m; cbv zeta; io_steps].
    apply pres_db. intros d [H1 H2]. split.
    + by apply refs_insertChatMessage.
    + eapply hasMembership_grows; [|exact H2].
      split; [| split]; simpl; first [done | by apply prefix_app_r].
Qed.

Lemma refs_handleJoinRoom sid user roomId :
  pres (fun w => referencesOk (db w)) (handleJoinRoom sid user roomId).
Proof.
  unfold handleJoinRoom, getRoomInfo.
  apply (pres_db_gain referencesOk
           (fun a d => match a with
                       | Some _ => refsWithRoom roomId d
                       | None => referencesOk d
                       end)).
  - intros d H. exact H.
  - intros d a H [= <-]. simpl.
    destruct (head _) as [room|] eqn:E; [|done]. split; [done|].
    eapply room_read_exists; [apply isActiveRoom_id | exact E].
  - intros [room|] d; [by intros [? _] | done].
  - intros [room|]; refs_steps.
Qed.

Lemma refs_postRoomsJoin userId id :
  pres (fun w => referencesOk (db w)) (postRoomsJoin userId id).
Proof.
  unfold postRoomsJoin. apply pres_tryCatch; [| apply pres_mret].
  destruct id as [roomId|]; [| apply pres_mret].
  apply (pres_db_gain referencesOk
           (fun a d => match a with
                       | Some _ => refsWithRoom roomId d
                       | None => referencesOk d
                       end)).
  - intros d H. exact H.
  - intros d a H [= <-]. simpl.
    destruct (head _) as [room|] eqn:E; [|done]. split; [done|].
    eapply room_read_exists; [apply isActiveRoom_id | exact E].
  - intros [room|] d; [by intros [? _] | done].
  - intros [room|]; refs_steps.
Qed.

Lemma refs_postRooms userId b :
  pres (fun w => referencesOk (db w)) (postRooms userId b).
Proof.
  unfold postRooms. apply pres_tryCatch; [| apply pres_mret].
  destruct (negb (validCreateRoom b)); [apply pres_mret|]. cbv zeta.
  apply (pres_db_gain referencesOk (fun newRoom d => refsWithRoom (r_id newRoom) d)).
  - apply refs_insertChatRoom.
  - intros d a H [= <-]. split; [by apply refs_insertChatRoom|]. simpl.
    eexists. split; [apply elem_of_app; right; by apply list_elem_of_singleton | done].
  - intros a d [H _]. exact H.
  - intros newRoom. refs_steps.
Qed.

Lemma refs_resolveDirectRoom user recipient :
  pres (fun w => referencesOk (db w)) (resolveDirectRoom user recipient).
Proof.
  unfold resolveDirectRoom. cbv zeta.
  apply pres_mbind; [apply pres_db; intros d H; exact H | intros [room|]];
    [apply pres_mret|].
  apply (pres_db_gain referencesOk (fun newRoom d => refsWithRoom (r_id newRoom) d)).
  - apply refs_insertChatRoom.
  - intros d a H [= <-]. split; [by apply refs_insertChatRoom|]. simpl.
    eexists. split; [apply elem_of_app; right; by apply list_elem_of_singleton | done].
  - intros a d [H _]. exact H.
  - intros newRoom. refs_steps.
Qed.

Lemma refs_run e w : referencesOk (db w) -> referencesOk (db (run e w)).
Proof.
  revert w. unfold run. change (pres (fun w => referencesOk (db w)) (handle e)).
  destruct e;
    unfold handle, onConnection, onDisconnect, onJoinRoom, onLeaveRoom, onSendMessage,
      onTypingStart, onTypingStop, onToggleReaction, onGetOnlineUsers,
      onSendPrivateMessage, handleLeaveRoom, handlePrivateMessage, sendUserInfo,
      authenticate, postRoomsLeave;
    pres_shape ltac:(idtac; lazymatch goal with
                     | |- pres _ (handleSendMessage _ _ _) => apply refs_handleSendMessage
                     | |- pres _ (handleJoinRoom _ _ _) => apply refs_handleJoinRoom
                     | |- pres _ (resolveDirectRoom _ _) => apply refs_resolveDirectRoom
                     | |- pres _ (postRooms _ _) => apply refs_postRooms
                     | |- pres _ (postRoomsJoin _ _) => apply refs_postRoomsJoin
                     end);
    lazymatch goal with
    | |- pres _ (dbRun _) => apply pres_db; refs_stmt
    | |- _ => io_steps
    end.
Qed.

(** X3. On a database where they hold, the references between the tables
    keep holding whatever the server does: every Membership names a room
    that exists, and every stored message was written by someone who has a
    Membership row, active or not, in the room of the message. *)
Theorem X3_references_kept (es : list Event) (w : World) :
  referencesOk (db w) -> referencesOk (db (exec es w)).
Proof. apply (exec_keeps (fun w => referencesOk (db w))). apply refs_run. Qed.

Lemma X3_references_kept_witness : referencesOk (db (exec dmBothWays world0)).
Proof.
  apply (X3_references_kept dmBothWays world0).
  split; intros x Hx; vm_compute in Hx; by apply elem_of_nil in Hx.
Defined.

(** ** The registry, seen from outside *)

Lemma elem_of_connectionsOf sid userId w :
  sid ∈ connectionsOf userId w
  <-> exists u, connectedUsers w !! sid = Some u /\ su_id u = userId.
Proof.
  unfold connectionsOf. rewrite list_elem_of_In, in_map_iff. split.
  - intros ([s u] & <- & Hin). apply filter_In in Hin as [Hin Hb]. simpl in *.
    exists u. split; [by apply elem_of_map_to_list, list_elem_of_In | by apply Z.eqb_eq].
  - intros (u & Hu & Hid). exists (sid, u). split; [done|]. apply filter_In. split.
    + by apply list_elem_of_In, elem_of_map_to_list.
    + by apply Z.eqb_eq.
Qed.

Lemma NoDup_connectionsOf userId w : NoDup (connectionsOf userId w).
Proof. unfold connectionsOf. apply NoDup_map_filter, NoDup_fst_map_to_list. Qed.

(** The entry of a user in [userRooms] is the set of their connections. *)
Lemma userRooms_connectionsOf userId w :
  registryConsistent w ->
  match userRooms w !! userId with
  | Some userSocketIds => elements userSocketIds ≡ₚ connectionsOf userId w
  | None => connectionsOf userId w = []
  end.
Proof.
  intros (H1 & H2 & _). destruct (userRooms w !! userId) as [S|] eqn:E.
  - apply NoDup_Permutation; [apply NoDup_elements | apply NoDup_connectionsOf |].
    intros sid. rewrite elem_of_elements, elem_of_connectionsOf. split.
    + intros Hin. by apply (H2 _ _ E).
    + intros (u & Hu & <-). destruct (H1 _ _ Hu) as (S' & HS' & Hin). congruence.
  - destruct (connectionsOf userId w) as [|sid l] eqn:El; [done|]. exfalso.
    assert (Hin : sid ∈ connectionsOf userId w) by (rewrite El; by left).
    apply elem_of_connectionsOf in Hin as (u & Hu & <-).
    destruct (H1 _ _ Hu) as (S' & HS' & _). congruence.
Qed.

Lemma filter_length_snd {A B} (P : B -> bool) (l : list (A * B)) :
  length (List.filter P (map snd l))
  = length (map fst (List.filter (fun x : A * B => P x.2) l)).
Proof.
  induction l as [|[a b] l IH]; simpl; [done|].
  destruct (P b); simpl; by rewrite IH.
Qed.

(** X4. In every reachable state [getUserConnectionCount] returns the
    number of connected sockets that belong to the user, and that is how
    often the user appears in [getConnectedUsers]. *)
Theorem X4_connection_count (w : World) (userId : Z) :
  reachable w ->
  getUserConnectionCount userId w = length (connectionsOf userId w)
  /\ length (List.filter (fun u => (su_id u =? userId)%Z) (getConnectedUsers w))
     = getUserConnectionCount userId w.
Proof.
  intros Hr.
  pose proof (userRooms_connectionsOf userId w (reachable_registryConsistent w Hr)) as H.
  assert (E : getUserConnectionCount userId w = length (connectionsOf userId w)).
  { unfold getUserConnectionCount. destruct (userRooms w !! userId) as [S|].
    - apply Permutation_length in H. exact H.
    - by rewrite H. }
  split; [exact E|]. rewrite E. unfold getConnectedUsers, connectionsOf.
  apply (filter_length_snd (fun u => (su_id u =? userId)%Z)).
Qed.

Lemma X4_connection_count_witness :
  getUserConnectionCount 1 (exec threeSockets world0)
    = length (connectionsOf 1 (exec threeSockets world0))
  /\ length (List.filter (fun u => (su_id u =? 1)%Z)
               (getConnectedUsers (exec threeSockets world0)))
     = getUserConnectionCount 1 (exec threeSockets world0).
Proof.
  apply (X4_connection_count (exec threeSockets world0) 1).
  apply reachable_exec; [apply reachable_init | vm_compute; repeat split].
Defined.

Example three_sockets_counts :
  getUserConnectionCount 1 (exec threeSockets world0) = 2%nat
  /\ getUserConnectionCount 2 (exec threeSockets world0) = 1%nat
  /\ getUserConnectionCount 3 (exec threeSockets world0) = 0%nat.
Proof. vm_compute. repeat split. Qed.

Lemma forEach_emit (ev : ServerEvent) (l : list string) : forall w,
  (forall s, s ∈ l -> is_Some (sockets w !! s)) ->
  forEach l (fun socketId =>
    io <- getWorld ;;
    match sockets io !! socketId with
    | Some _ => socketEmit socketId ev
    | None => mret tt
    end) w
  = (setOutbox (outbox w ++ map (fun s => (s, ev)) l) w, Ret tt).
Proof.
  induction l as [|s l IH]; intros w Hl; simpl.
  - unfold mret. rewrite app_nil_r. by destruct w.
  - unfold mbind at 1. unfold mbind at 1. unfold getWorld at 1.
    destruct (Hl s) as [rs Hrs]; [by left|]. rewrite Hrs.
    unfold socketEmit, emitTo, modifyWorld. simpl.
    rewrite IH.
    + simpl. rewrite <- app_assoc. reflexivity.
    + intros s' Hs'. simpl. apply Hl. by right.
Qed.

(** X5. In every reachable state [sendToUser] hands the event to each
    connected socket of the user once, to no other socket, and changes
    nothing else. *)
Theorem X5_sendToUser_reaches_connections (w : World) (userId : Z) (ev : ServerEvent) :
  reachable w ->
  exists targets,
    sendToUser userId ev w
      = (setOutbox (outbox w ++ map (fun s => (s, ev)) targets) w, Ret tt)
    /\ targets ≡ₚ connectionsOf userId w.
Proof.
  intros Hr. pose proof (reachable_registryConsistent w Hr) as Hreg.
  pose proof (userRooms_connectionsOf userId w Hreg) as H.
  destruct Hreg as (H1 & H2 & Hdom).
  unfold sendToUser, mbind, getWorld.
  destruct (userRooms w !! userId) as [S|] eqn:E.
  - exists (elements S). split; [|exact H]. apply forEach_emit.
    intros s Hs. apply elem_of_elements in Hs.
    destruct (H2 _ _ E) as [_ Hall]. destruct (Hall s Hs) as (u & Hu & _).
    apply elem_of_dom. rewrite Hdom. apply elem_of_dom. by exists u.
  - exists []. split; [|by rewrite H]. unfold mret. simpl. rewrite app_nil_r. by destruct w.
Qed.

Lemma X5_sendToUser_reaches_connections_witness :
  exists targets,
    sendToUser 1 (EvLeftRoom 7) (exec threeSockets world0)
      = (setOutbox (outbox (exec threeSockets world0)
                      ++ map (fun s => (s, EvLeftRoom 7)) targets)
           (exec threeSockets world0), Ret tt)
    /\ targets ≡ₚ connectionsOf 1 (exec threeSockets world0).
Proof.
  apply (X5_sendToUser_reaches_connections (exec threeSockets world0) 1 (EvLeftRoom 7)).
  apply reachable_exec; [apply reachable_init | vm_compute; repeat split].
Defined.

(** ** Fan-out *)

(** X6. [sendToRoom], that is [io.to(room).emit], hands the event to each
    socket subscribed to the room once, to no other socket, and changes
    nothing else. So a send by an active member, with the database up,
    stores one row and reaches every connection subscribed at that moment
    once, the sender's own included, and no connection that is not
    subscribed. *)
Theorem X6_room_broadcast_once (w : World) (roomId : Z) :
  (forall ev, exists targets,
     sendToRoom roomId ev w
       = (setOutbox (outbox w ++ map (fun s => (s, ev)) targets) w, Ret tt)
     /\ NoDup targets /\ forall s, s ∈ targets <-> subscribed s roomId w)
  /\ (forall sid user data,
        sd_roomId data = roomId -> dbFaults w = [] ->
        activeMember (su_id user) roomId (db w) ->
        exists targets,
          onSendMessage sid user data w
            = (setOutbox (outbox w ++ map (fun s => (s, EvNewMessage (sentMessage user data w)))
                                        targets)
                 (setDb (setChatMessages (chatMessages (db w) ++ [sentRow user data w])
                           (messageSeq (db w) + 1) (db w)) w), Ret tt)
          /\ NoDup targets /\ forall s, s ∈ targets <-> subscribed s roomId w).
Proof.
  split.
  - intros ev. exists (roomSockets roomId w). split; [done|].
    split; [apply NoDup_roomSockets | intros s; apply elem_of_roomSockets].
  - intros sid user data <- Hf Hm. exists (roomSockets (sd_roomId data) w).
    split; [| split; [apply NoDup_roomSockets | intros s; apply elem_of_roomSockets]].
    unfold onSendMessage, tryCatch. by rewrite handleSendMessage_member.
Qed.

Lemma X6_room_broadcast_once_witness :
  exists targets,
    onSendMessage "s1" suAlice replyToNothing (exec generalChat world0)
      = (setOutbox (outbox (exec generalChat world0)
                      ++ map (fun s => (s, EvNewMessage
                                             (sentMessage suAlice replyToNothing
                                                (exec generalChat world0))))
                             targets)
           (setDb (setChatMessages
                     (chatMessages (db (exec generalChat world0))
                        ++ [sentRow suAlice replyToNothing (exec generalChat world0)])
                     (messageSeq (db (exec generalChat world0)) + 1)
                     (db (exec generalChat world0)))
              (exec generalChat world0)), Ret tt)
    /\ NoDup targets /\ forall s, s ∈ targets <-> subscribed s 1 (exec generalChat world0).
Proof.
  apply (X6_room_broadcast_once (exec generalChat world0) 1).
  - reflexivity.
  - vm_compute. reflexivity.
  - apply activeMember_existsb. vm_compute. reflexivity.
Defined.

Lemma others_in_room sid roomId w :
  NoDup (List.filter (fun s => negb (s =? sid)%string) (roomSockets roomId w))
  /\ forall s, s ∈ List.filter (fun s => negb (s =? sid)%string) (roomSockets roomId w)
               <-> subscribed s roomId w /\ s <> sid.
Proof.
  split.
  - assert (H := NoDup_map_filter (fun s : string => s)
                   (fun s => negb (s =? sid)%string) (roomSockets roomId w)).
    rewrite !map_id in H. apply H, NoDup_roomSockets.
  - intros s. rewrite list_elem_of_In, filter_In, <- list_elem_of_In, elem_of_roomSockets.
    rewrite negb_true_iff. destruct (String.eqb_spec s sid); split; intros [? ?]; done.
Qed.

(** X7. A typing indicator is a pure broadcast: ['typing-start'] and
    ['typing-stop'] write nothing to the database and change no
    subscription; the event goes once to every socket subscribed to the
    room other than the sender's, whether or not the sender is subscribed
    to the room or a member of it. *)
Theorem X7_typing_is_broadcast_only (w : World) (sid : string) (user : SocketUser)
    (roomId : Z) :
  exists targets,
    onTypingStart sid user roomId w
      = (setOutbox (outbox w ++ map (fun s => (s, EvUserTyping (su_id user)
                                                    (su_username user) roomId)) targets) w,
         Ret tt)
    /\ onTypingStop sid user roomId w
       = (setOutbox (outbox w ++ map (fun s => (s, EvUserStopTyping (su_id user) roomId))
                                     targets) w, Ret tt)
    /\ NoDup targets
    /\ forall s, s ∈ targets <-> subscribed s roomId w /\ s <> sid.
Proof.
  exists (List.filter (fun s => negb (s =? sid)%string) (roomSockets roomId w)).
  split; [done | split; [done|]]. apply others_in_room.
Qed.

(** ** Connecting and disconnecting *)

Lemma authenticate_refuses uid w :
  noActiveAccount uid (db w) ->
  exists fl, authenticate uid w = (setFaults fl w, Ret None).
Proof.
  intros Hno. unfold authenticate, tryCatch, mbind.
  destruct (dbRun_cases (selectFirst users (isUser uid)) w) as (fl & [E|E]); rewrite E; simpl.
  - by exists fl.
  - exists fl. destruct (head _) as [u|] eqn:Eu; simpl.
    + rewrite (Hno u Eu). simpl. unfold mret. by destruct w.
    + unfold mret. by destruct w.
Qed.

Lemma authenticate_admits uid w u :
  dbFaults w = [] ->
  head (List.filter (isUser uid) (users (db w))) = Some u -> u_isActive u = true ->
  authenticate uid w = (w, Ret (Some (socketUserOf u))).
Proof.
  intros Hf Hu Ha. unfold authenticate, tryCatch, mbind.
  rewrite dbRun_nofault by done. simpl. rewrite Hu, Ha. simpl. unfold mret. by destruct w.
Qed.

Lemma onConnection_nofault sid user w :
  dbFaults w = [] ->
  exists o,
    onConnection sid user w
    = (setOutbox o (registerSocket sid user (setSockets (<[sid := ∅]> (sockets w)) w)), Ret tt).
Proof.
  intros Hf. unfold onConnection. unfold mbind at 1. unfold modifyWorld at 1.
  unfold mbind at 1. unfold modifyWorld at 1.
  unfold tryCatch, sendUserInfo, mbind.
  rewrite dbRun_nofault by exact Hf.
  unfold query, socketEmit, emitTo, modifyWorld. simpl.
  eexists. reflexivity.
Qed.

Lemma registerSocket_count sid user w :
  registryConsistent w -> sockets w !! sid = None ->
  let w' := registerSocket sid user (setSockets (<[sid := ∅]> (sockets w)) w) in
  getUserConnectionCount (su_id user) w' = S (getUserConnectionCount (su_id user) w)
  /\ forall other, other <> su_id user ->
       getUserConnectionCount other w' = getUserConnectionCount other w.
Proof.
  intros (H1 & H2 & H3) Hfresh. simpl.
  assert (Hnot : forall S : gset string, userRooms w !! su_id user = Some S -> sid ∉ S).
  { intros S HS Hin. destruct (H2 _ _ HS) as [_ Hall].
    destruct (Hall _ Hin) as (u & Hu & _).
    assert (sid ∈ dom (sockets w)) by (rewrite H3; apply elem_of_dom; by exists u).
    by apply not_elem_of_dom in Hfresh. }
  unfold getUserConnectionCount, registerSocket; simpl. split.
  - rewrite lookup_alter_eq.
    destruct (userRooms w !! su_id user) as [S|] eqn:E; simpl.
    + rewrite E. change (size (S ∪ {[sid]}) = Datatypes.S (size S)).
      rewrite size_union by (specialize (Hnot S eq_refl); set_solver).
      rewrite size_singleton. lia.
    + rewrite lookup_insert_eq. change (size ((∅ : gset string) ∪ {[sid]}) = 1%nat).
      rewrite size_union by set_solver.
      rewrite size_empty, size_singleton. done.
  - intros other Hne. rewrite lookup_alter_ne by done.
    destruct (userRooms w !! su_id user); [done|]. by rewrite lookup_insert_ne.
Qed.

(** X8. Admission of a socket. If the account the token names is missing
    or inactive, or the lookup fails, the connection is refused and leaves
    the registry, the subscriptions, the database and the event log as they
    were. If the account is active and the database is up, the socket is
    registered with the data of the account, and its user's connection
    count goes up by one while every other count stays. *)
Theorem X8_admission (w : World) (sid : string) (uid : Z) :
  reachable w -> sockets w !! sid = None ->
  let w' := run (Connection sid uid) w in
  (noActiveAccount uid (db w) ->
     connectedUsers w' = connectedUsers w /\ userRooms w' = userRooms w
     /\ sockets w' = sockets w /\ db w' = db w /\ outbox w' = outbox w)
  /\ (forall u, dbFaults w = [] ->
        head (List.filter (isUser uid) (users (db w))) = Some u -> u_isActive u = true ->
        connectedUsers w' !! sid = Some (socketUserOf u)
        /\ getUserConnectionCount uid w' = S (getUserConnectionCount uid w)
        /\ forall other, other <> uid ->
             getUserConnectionCount other w' = getUserConnectionCount other w).
Proof.
  intros Hr Hfresh. simpl. unfold run, handle. split.
  - intros Hno. unfold mbind. destruct (authenticate_refuses uid w Hno) as [fl ->]. done.
  - intros u Hf Hu Ha. unfold mbind. rewrite (authenticate_admits uid w u Hf Hu Ha).
    destruct (onConnection_nofault sid (socketUserOf u) w Hf) as [o ->].
    assert (Hid : u_id u = uid).
    { apply head_filter_Some in Hu as [_ Hu]. by apply Z.eqb_eq in Hu. }
    pose proof (registerSocket_count sid (socketUserOf u) w
                  (reachable_registryConsistent w Hr) Hfresh) as [Hc Ho].
    simpl in Hc, Ho. rewrite Hid in Hc, Ho. split; [| split].
    + unfold registerSocket. simpl. apply lookup_insert_eq.
    + exact Hc.
    + exact Ho.
Qed.

Lemma X8_admission_witness :
  connectedUsers (run (Connection "s9" 4) worldWithDave) = connectedUsers worldWithDave
  /\ userRooms (run (Connection "s9" 4) worldWithDave) = userRooms worldWithDave
  /\ sockets (run (Connection "s9" 4) worldWithDave) = sockets worldWithDave
  /\ db (run (Connection "s9" 4) worldWithDave) = db worldWithDave
  /\ outbox (run (Connection "s9" 4) worldWithDave) = outbox worldWithDave.
Proof.
  apply (X8_admission worldWithDave "s9" 4).
  - apply reachable_init.
  - reflexivity.
  - intros u Hu. vm_compute in Hu. by injection Hu as <-.
Defined.

Lemma run_Disconnect sid user w :
  connectedUsers w !! sid = Some user ->
  run (Disconnect sid) w = unregisterSocket sid user (setSockets (delete sid (sockets w)) w).
Proof.
  intros Hu. unfold run, handle, withSocket. rewrite Hu.
  unfold onDisconnect. unfold mbind at 1. unfold modifyWorld at 1.
  unfold mbind at 1. unfold modifyWorld at 1. unfold mbind, getWorld.
  assert (E : socketRooms sid
                (unregisterSocket sid user (setSockets (delete sid (sockets w)) w)) = []).
  { unfold socketRooms, unregisterSocket. simpl.
    destruct (userRooms w !! su_id user); [destruct (size _ =? 0)%nat|]; simpl;
      by rewrite lookup_delete_eq. }
  rewrite E. reflexivity.
Qed.

Lemma unregisterSocket_count sid user w :
  registryConsistent w -> connectedUsers w !! sid = Some user ->
  let w' := unregisterSocket sid user (setSockets (delete sid (sockets w)) w) in
  Datatypes.S (getUserConnectionCount (su_id user) w')
    = getUserConnectionCount (su_id user) w
  /\ forall other, other <> su_id user ->
       getUserConnectionCount other w' = getUserConnectionCount other w.
Proof.
  intros (H1 & H2 & H3) Hu. simpl.
  destruct (H1 _ _ Hu) as (S0 & HS0 & Hin0).
  assert (Hsize : Datatypes.S (size (S0 ∖ {[sid]})) = size S0).
  { rewrite size_difference by set_solver. rewrite size_singleton.
    assert (size S0 <> 0%nat); [|lia]. intros Hz. apply size_empty_inv in Hz. set_solver. }
  unfold getUserConnectionCount, unregisterSocket; simpl. rewrite HS0.
  destruct (Nat.eqb_spec (size (S0 ∖ {[sid]})) 0) as [e|n]; simpl.
  - split.
    + rewrite lookup_delete_eq. lia.
    + intros other Hne. by rewrite lookup_delete_ne, lookup_insert_ne.
  - split.
    + rewrite lookup_insert_eq. exact Hsize.
    + intros other Hne. by rewrite lookup_insert_ne.
Qed.

(** X9. When a socket disconnects it leaves the registry and the table of
    connected sockets, its user's connection count goes down by one and
    no other count moves, the database is not touched, and no event is
    emitted: by the time the handler runs the socket is in no room any
    more, so no room is told that the user went offline. *)
Theorem X9_disconnect (w : World) (sid : string) (user : SocketUser) :
  reachable w -> connectedUsers w !! sid = Some user ->
  let w' := run (Disconnect sid) w in
  connectedUsers w' !! sid = None
  /\ sockets w' !! sid = None
  /\ Datatypes.S (getUserConnectionCount (su_id user) w')
       = getUserConnectionCount (su_id user) w
  /\ (forall other, other <> su_id user ->
        getUserConnectionCount other w' = getUserConnectionCount other w)
  /\ db w' = db w
  /\ outbox w' = outbox w.
Proof.
  intros Hr Hu. simpl. rewrite (run_Disconnect sid user w Hu).
  pose proof (unregisterSocket_count sid user w (reachable_registryConsistent w Hr) Hu)
    as [Hc Ho]. simpl in Hc, Ho.
  split; [| split; [| split; [exact Hc | split; [exact Ho |]]]];
    unfold unregisterSocket; simpl;
    destruct (userRooms w !! su_id user); try destruct (size _ =? 0)%nat; simpl;
    try apply lookup_delete_eq; done.
Qed.

Lemma X9_disconnect_witness :
  connectedUsers (run (Disconnect "s1") (exec threeSockets world0)) !! "s1" = None
  /\ sockets (run (Disconnect "s1") (exec threeSockets world0)) !! "s1" = None
  /\ Datatypes.S (getUserConnectionCount 1 (run (Disconnect "s1") (exec threeSockets world0)))
       = getUserConnectionCount 1 (exec threeSockets world0)
  /\ (forall other, other <> 1 ->
        getUserConnectionCount other (run (Disconnect "s1") (exec threeSockets world0))
        = getUserConnectionCount other (exec threeSockets world0))
  /\ db (run (Disconnect "s1") (exec threeSockets world0)) = db (exec threeSockets world0)
  /\ outbox (run (Disconnect "s1") (exec threeSockets world0))
     = outbox (exec threeSockets world0).
Proof.
  apply (X9_disconnect (exec threeSockets world0) "s1" suAlice).
  - apply reachable_exec; [apply reachable_init | vm_compute; repeat split].
  - vm_compute. reflexivity.
Defined.

(** ** The rate limiter *)

Lemma ceilSeconds_covers (windowMs : Z) : windowMs <= ceilSeconds windowMs * 1000.
Proof.
  unfold ceilSeconds.
  pose proof (Z.mul_div_le (- windowMs) 1000 ltac:(lia)). lia.
Qed.

Lemma window_bounds (windowMs now : Z) :
  0 < windowMs ->
  now / windowMs * windowMs <= now < (now / windowMs + 1) * windowMs.
Proof.
  intros HW.
  pose proof (Z.mul_div_le now windowMs HW).
  pose proof (Z.mul_succ_div_gt now windowMs HW). lia.
Qed.

Lemma countedWith_snoc (q q' : RateRequest) (seen : list RateRequest) :
  countedWith q (seen ++ [q'])
  = countedWith q seen + (if sameCounter q q' then 1 else 0).
Proof.
  unfold countedWith. rewrite List.filter_app, length_app. simpl.
  destruct (sameCounter q q'); simpl; lia.
Qed.

Lemma sameCounter_spec (q q' : RateRequest) :
  sameCounter q q' = true <-> counterOf q' = counterOf q.
Proof.
  unfold sameCounter, counterOf. rewrite andb_true_iff, String.eqb_eq, Z.eqb_eq.
  split; [intros [-> ->]; done | intros [= -> ->]; done].
Qed.

(** What the limiter leaves in Redis is what [incrementRateLimit] leaves. *)
Lemma createRateLimiter_redis (windowMs maxRequests : Z) (key : string) (now : Z) (r : Redis) :
  (createRateLimiter windowMs maxRequests key now r).1
  = (CacheService.incrementRateLimit (key, now / windowMs) (ceilSeconds windowMs) now r).1.
Proof.
  unfold createRateLimiter.
  destruct (CacheService.incrementRateLimit _ _ _ _) as [r' [c |]]; [| done].
  by destruct (c >? maxRequests)%Z.
Qed.

Lemma incrementRateLimit_up (key : string * Z) (window now : Z) (r : Redis) :
  redisUp (CacheService.incrementRateLimit key window now r).1 = redisUp r.
Proof.
  unfold CacheService.incrementRateLimit. by destruct (redisUp r) eqn:E.
Qed.

Lemma incrementRateLimit_other (key key' : string * Z) (window now : Z) (r : Redis) :
  key' <> key ->
  counters (CacheService.incrementRateLimit key window now r).1 !! key' = counters r !! key'.
Proof.
  intros Hne. unfold CacheService.incrementRateLimit.
  destruct (redisUp r); [| done]. simpl.
  destruct (0 <? window)%Z; [by rewrite lookup_insert_ne | by rewrite lookup_delete_ne].
Qed.

(** On every call the counter is given its time to live anew. *)
Lemma incrementRateLimit_same (key : string * Z) (window now : Z) (r : Redis) :
  redisUp r = true -> 0 < window ->
  let count := match counters r !! key with
               | Some (count, expiresAt) => if (now <? expiresAt)%Z then count + 1 else 1
               | None => 1
               end in
  CacheService.incrementRateLimit key window now r
  = (setCounters (<[key := (count, now + window * 1000)]> (counters r)) r,
     if (count =? 0)%Z then None else Some count).
Proof.
  intros Hup Hw. unfold CacheService.incrementRateLimit. rewrite Hup.
  assert (E : (0 <? window)%Z = true) by (apply Z.ltb_lt; lia).
  by rewrite E.
Qed.

(** One request through some limiter: the counter of [q] counts it when it
    is counted there, and is left alone when it is not. *)
Lemma rateLimit_step (q q' : RateRequest) (seen : list RateRequest) (r : Redis) :
  0 < rq_windowMs q ->
  (sameCounter q q' = true -> rq_windowMs q' = rq_windowMs q) ->
  counterCounts q seen r ->
  counterCounts q (seen ++ [q']) (rateLimit q' r).1.
Proof.
  intros HW Hsame [Hup Hc]. unfold rateLimit. rewrite createRateLimiter_redis.
  split; [by rewrite incrementRateLimit_up|].
  rewrite countedWith_snoc.
  destruct (sameCounter q q') eqn:Es.
  - specialize (Hsame eq_refl).
    pose proof (proj1 (sameCounter_spec q q') Es) as Ek. unfold counterOf in Ek, Hc |- *.
    injection Ek as Ekey Eidx.
    pose proof (window_bounds (rq_windowMs q) (rq_now q') HW) as Hb.
    pose proof (ceilSeconds_covers (rq_windowMs q)) as Httl.
    rewrite Hsame in *. rewrite Ekey, Eidx in *.
    rewrite incrementRateLimit_same by (first [done | lia]). simpl.
    rewrite lookup_insert_eq.
    destruct (counters r !! (rq_key q, rq_now q / rq_windowMs q)) as [[count expiresAt]|].
    + destruct Hc as [-> He].
      assert (E : (rq_now q' <? expiresAt)%Z = true) by (apply Z.ltb_lt; lia).
      rewrite E. split; [done | lia].
    + split; [lia | lia].
  - rewrite Z.add_0_r. rewrite incrementRateLimit_other; [exact Hc|].
    intros E. assert (sameCounter q q' = true) as Es'
      by (apply sameCounter_spec; unfold counterOf in *; congruence).
    congruence.
Qed.

Lemma counterCounts_rateLimitAll (q : RateRequest) (reqs seen : list RateRequest) (r : Redis) :
  0 < rq_windowMs q ->
  (forall q', q' ∈ reqs -> sameCounter q q' = true -> rq_windowMs q' = rq_windowMs q) ->
  counterCounts q seen r ->
  counterCounts q (seen ++ reqs) (rateLimitAll reqs r).1.
Proof.
  intros HW. revert seen r.
  induction reqs as [| q' reqs IH]; intros seen r Hall Hc; simpl.
  - rewrite app_nil_r. exact Hc.
  - pose proof (rateLimit_step q q' seen r HW (Hall q' ltac:(left)) Hc) as H1.
    destruct (rateLimit q' r) as [r1 dec]. simpl in H1.
    assert (Hall' : forall q'', q'' ∈ reqs -> sameCounter q q'' = true ->
                      rq_windowMs q'' = rq_windowMs q).
    { intros q'' Hin. apply Hall. by right. }
    specialize (IH _ _ Hall' H1).
    destruct (rateLimitAll reqs r1) as [r2 decs]. simpl in *.
    rewrite (cons_middle _ seen reqs), app_assoc. exact IH.
Qed.

(** The request itself: counted, and compared with the maximum of its
    limiter. *)
Lemma rateLimit_decision (q : RateRequest) (seen : list RateRequest) (r : Redis) :
  0 < rq_windowMs q -> counterCounts q seen r ->
  let n := countedWith q seen in
  (rateLimit q r).2
  = if (n + 1 >? rq_maxRequests q)%Z then RateTooMany (ceilSeconds (rq_windowMs q))
    else RateNext (Some (rq_maxRequests q, Z.max 0 (rq_maxRequests q - (n + 1)),
                         rq_now q + rq_windowMs q)).
Proof.
  intros HW [Hup Hc] n.
  pose proof (window_bounds (rq_windowMs q) (rq_now q) HW) as Hb.
  pose proof (ceilSeconds_covers (rq_windowMs q)) as Httl.
  assert (Hn : 0 <= n) by (unfold n, countedWith; lia).
  unfold rateLimit, createRateLimiter.
  rewrite incrementRateLimit_same by (first [done | lia]).
  unfold counterOf in Hc.
  destruct (counters r !! (rq_key q, rq_now q / rq_windowMs q)) as [[count expiresAt]|].
  - destruct Hc as [Hcount He]. fold n in Hcount. subst count.
    assert (E : (rq_now q <? expiresAt)%Z = true) by (apply Z.ltb_lt; lia).
    rewrite E.
    assert (E0 : (n + 1 =? 0)%Z = false) by (apply Z.eqb_neq; lia).
    rewrite E0. by destruct (n + 1 >? rq_maxRequests q)%Z.
  - fold n in Hc. rewrite Hc. change (0 + 1) with 1. simpl.
    by destruct (1 >? rq_maxRequests q)%Z.
Qed.

(** X10. The rate limiter counts per client and fixed window, in a counter
    that the limiters share: its key names the client and the number of
    the window ([t / windowMs] for a time [t]), not the limiter. After any
    requests, through any limiters, of which those counted in the counter
    of the request at hand went through limiters of its window length, the
    request is answered 429 exactly when [maxRequests] (of its own limiter)
    or more requests have been counted there, through whichever limiter;
    otherwise it passes and its [X-RateLimit-Remaining] is what is left of
    its maximum. When Redis rejects the command the request passes,
    uncounted. *)
Theorem X10_rate_limit_window (hist : list RateRequest) (q : RateRequest) :
  0 < rq_windowMs q ->
  (forall q', q' ∈ hist -> sameCounter q q' = true -> rq_windowMs q' = rq_windowMs q) ->
  let r := (rateLimitAll hist redis0).1 in
  let n := countedWith q hist in
  (rq_maxRequests q <= n ->
     (rateLimit q r).2 = RateTooMany (ceilSeconds (rq_windowMs q)))
  /\ (n < rq_maxRequests q ->
        (rateLimit q r).2
        = RateNext (Some (rq_maxRequests q, rq_maxRequests q - n - 1,
                          rq_now q + rq_windowMs q)))
  /\ (forall down, redisUp down = false -> rateLimit q down = (down, RateNext None)).
Proof.
  intros HW Hall r n.
  assert (Hc : counterCounts q hist r).
  { apply (counterCounts_rateLimitAll q hist [] redis0 HW Hall).
    split; [done |]. simpl. rewrite lookup_empty. done. }
  pose proof (rateLimit_decision q hist r HW Hc) as Hd. fold n in Hd. simpl in Hd.
  rewrite Hd.
  split; [| split].
  - intros Hn. assert (E : (n + 1 >? rq_maxRequests q)%Z = true) by (apply Z.gtb_lt; lia).
    rewrite E. done.
  - intros Hn. destruct (n + 1 >? rq_maxRequests q)%Z eqn:E.
    + apply Z.gtb_lt in E. lia.
    + rewrite Z.gtb_ltb in E. apply Z.ltb_ge in E.
      replace (Z.max 0 (rq_maxRequests q - (n + 1))) with (rq_maxRequests q - n - 1) by lia.
      done.
  - intros down Hdown. unfold rateLimit, createRateLimiter, CacheService.incrementRateLimit.
    rewrite Hdown. done.
Qed.

Lemma sameWindowLength_fiveChatRequests (q : RateRequest) :
  rq_windowMs q = 15 * 60 * 1000 ->
  forall q', q' ∈ fiveChatRequests -> sameCounter q q' = true ->
    rq_windowMs q' = rq_windowMs q.
Proof.
  intros -> q' Hin _. unfold fiveChatRequests in Hin.
  apply list_elem_of_In, in_map_iff in Hin as (i & <- & _). done.
Qed.

(** After five requests to the chat routes a client's first login is
    refused: [authRateLimit] allows five requests in the quarter of an
    hour, and the five are in its counter. The sixth chat request
    passes. *)
Lemma X10_rate_limit_window_witness :
  (authRateLimit "10.0.0.1" 6000 (rateLimitAll fiveChatRequests redis0).1).2
    = RateTooMany 900
  /\ (chatRateLimit "10.0.0.1" 6000 (rateLimitAll fiveChatRequests redis0).1).2
     = RateNext (Some (100, 94, 6000 + 900000))
  /\ (authRateLimit "10.0.0.2" 6000 (rateLimitAll fiveChatRequests redis0).1).2
     = RateNext (Some (5, 4, 6000 + 900000)).
Proof.
  split; [| split].
  - exact (proj1 (X10_rate_limit_window fiveChatRequests
                    (mkRateRequest (15 * 60 * 1000) 5 "10.0.0.1" 6000) ltac:(simpl; lia)
                    (sameWindowLength_fiveChatRequests
                       (mkRateRequest (15 * 60 * 1000) 5 "10.0.0.1" 6000) eq_refl))
             ltac:(vm_compute; discriminate)).
  - exact (proj1 (proj2 (X10_rate_limit_window fiveChatRequests
                    (mkRateRequest (15 * 60 * 1000) 100 "10.0.0.1" 6000) ltac:(simpl; lia)
                    (sameWindowLength_fiveChatRequests
                       (mkRateRequest (15 * 60 * 1000) 100 "10.0.0.1" 6000) eq_refl)))
             ltac:(vm_compute; reflexivity)).
  - exact (proj1 (proj2 (X10_rate_limit_window fiveChatRequests
                    (mkRateRequest (15 * 60 * 1000) 5 "10.0.0.2" 6000) ltac:(simpl; lia)
                    (sameWindowLength_fiveChatRequests
                       (mkRateRequest (15 * 60 * 1000) 5 "10.0.0.2" 6000) eq_refl)))
             ltac:(vm_compute; reflexivity)).
Defined.

(** The same, computed. *)
Example login_after_chat :
  map (fun d => match d with RateTooMany _ => false | RateNext _ => true end)
      (rateLimitAll (fiveChatRequests
                     ++ [mkRateRequest (15 * 60 * 1000) 5 "10.0.0.1" 6000])%list redis0).2
  = [true; true; true; true; true; false].
Proof. vm_compute. reflexivity. Qed.

(** ** The cache of recent messages *)

Lemma set_up (roomId : Z) (value : list ChatMessage) (ttl : option Z) (now : Z) (r : Redis) :
  redisUp (CacheService.set roomId value ttl now r).1 = redisUp r.
Proof.
  unfold CacheService.set. destruct (redisUp r) eqn:E; [| exact E].
  destruct ttl as [ttl |]; [| exact E].
  destruct (ttl =? 0)%Z; [exact E |]. destruct (ttl <? 0)%Z; exact E.
Qed.

(** [set] with the five minutes of the chat service. *)
Lemma set_300 (roomId : Z) (value : list ChatMessage) (now : Z) (r : Redis) :
  redisUp r = true ->
  CacheService.set roomId value (Some 300) now r
  = (setEntries (<[roomId := (value, Some (now + 300 * 1000))]> (entries r)) r, true).
Proof. intros Hup. unfold CacheService.set. by rewrite Hup. Qed.

Lemma cacheMessage_up (roomId : Z) (c : CacheCall) (r : Redis) :
  redisUp (cacheMessage roomId c r) = redisUp r.
Proof. unfold cacheMessage, cacheMessageSet. apply set_up. Qed.

Lemma cacheAll_up (roomId : Z) (calls : list CacheCall) (r : Redis) :
  redisUp (cacheAll roomId calls r) = redisUp r.
Proof.
  unfold cacheAll. revert r. induction calls as [| x calls IH]; intros r; simpl; [done |].
  rewrite IH. apply cacheMessage_up.
Qed.

Lemma cacheAll_snoc (roomId : Z) (calls : list CacheCall) (c : CacheCall) (r : Redis) :
  cacheAll roomId (calls ++ [c]) r = cacheMessage roomId c (cacheAll roomId calls r).
Proof. unfold cacheAll. rewrite fold_left_app. done. Qed.

(** Appending to the last hundred and cutting again gives the last hundred. *)
Lemma window_snoc {A} (l : list A) (m : A) :
  (let cached := (drop (length l - 100) l ++ [m])%list in
   if (100 <? length cached)%nat then drop (length cached - 100) cached else cached)
  = drop (length (l ++ [m])%list - 100) (l ++ [m])%list.
Proof.
  cbv zeta. rewrite !length_app, length_drop. simpl.
  destruct (decide (length l < 100)%nat) as [Hn | Hn].
  - replace (length l - 100)%nat with 0%nat by lia. rewrite drop_0.
    replace (length l - 0 + 1)%nat with (length l + 1)%nat by lia.
    assert (E : (100 <? length l + 1)%nat = false) by (apply Nat.ltb_ge; lia).
    rewrite E. replace (length l + 1 - 100)%nat with 0%nat by lia. done.
  - assert (E : (100 <? length l - (length l - 100) + 1)%nat = true)
      by (apply Nat.ltb_lt; lia).
    rewrite E.
    replace (length l - (length l - 100) + 1 - 100)%nat with 1%nat by lia.
    rewrite drop_app_le by (rewrite length_drop; lia).
    rewrite drop_drop.
    rewrite drop_app_le by lia.
    do 2 f_equal. lia.
Qed.

Lemma cacheMessageGet_hit (roomId : Z) (t : Z) (r : Redis)
    (cached : list ChatMessage) (expiresAt : Z) :
  redisUp r = true -> entries r !! roomId = Some (cached, Some expiresAt) -> t < expiresAt ->
  cacheMessageGet roomId t r = cached.
Proof.
  intros Hup He Ht. unfold cacheMessageGet, CacheService.get. rewrite Hup, He. simpl.
  assert (E : (expiresAt <=? t)%Z = false) by (apply Z.leb_gt; lia).
  by rewrite E.
Qed.

Lemma cacheMessageGet_miss (roomId : Z) (t : Z) (r : Redis) :
  CacheService.get roomId t r = None -> cacheMessageGet roomId t r = [].
Proof. intros He. unfold cacheMessageGet. by rewrite He. Qed.

Lemma cacheMessageSet_entries (roomId : Z) (cached : list ChatMessage) (m : ChatMessage)
    (t : Z) (r : Redis) :
  redisUp r = true ->
  entries (cacheMessageSet roomId cached m t r)
  = <[roomId := (let c := (cached ++ [m])%list in
                 if (100 <? length c)%nat then drop (length c - 100) c else c,
                 Some (t + 300 * 1000))]> (entries r).
Proof. intros Hup. unfold cacheMessageSet. by rewrite set_300. Qed.

Lemma gapsBelow_snoc (gap : Z) (calls : list CacheCall) (c' c : CacheCall) :
  gapsBelow gap ((calls ++ [c']) ++ [c])%list ->
  gapsBelow gap (calls ++ [c'])%list /\ cc_getAt c < cc_setAt c' + gap.
Proof.
  intros Hg. split.
  - intros i a b Ha Hb. apply (Hg i a b).
    + rewrite lookup_app_l; [exact Ha |]. apply lookup_lt_Some in Ha. done.
    + rewrite lookup_app_l; [exact Hb |]. apply lookup_lt_Some in Hb. done.
  - apply (Hg (length calls) c' c).
    + rewrite lookup_app_l by (rewrite length_app; simpl; lia).
      rewrite lookup_app_r by lia. rewrite Nat.sub_diag. done.
    + rewrite lookup_app_r by (rewrite length_app; simpl; lia).
      rewrite length_app. simpl.
      replace (S (length calls) - (length calls + 1))%nat with 0%nat by lia. done.
Qed.

(** From a miss on, while the calls do not overlap and each reads less than
    five minutes after the one before it wrote, the entry of the room is
    the last hundred messages. *)
Lemma cacheAll_window (roomId : Z) (r : Redis) (calls : list CacheCall) :
  redisUp r = true ->
  forall c0 cn,
    head calls = Some c0 -> last calls = Some cn ->
    CacheService.get roomId (cc_getAt c0) r = None ->
    gapsBelow (300 * 1000) calls ->
    entries (cacheAll roomId calls r) !! roomId
      = Some (drop (length calls - 100) (map cc_message calls),
              Some (cc_setAt cn + 300 * 1000))
    /\ forall other, other <> roomId ->
         entries (cacheAll roomId calls r) !! other = entries r !! other.
Proof.
  intros Hup. induction calls as [| c calls IH] using rev_ind; [done |].
  intros c0 cn Hh Hl Hmiss Hg.
  rewrite last_snoc in Hl. injection Hl as <-.
  rewrite cacheAll_snoc.
  destruct calls as [| c' calls] using rev_ind.
  - simpl in Hh. injection Hh as <-. simpl.
    unfold cacheMessage. rewrite cacheMessageSet_entries by done.
    rewrite cacheMessageGet_miss by done.
    split; [rewrite lookup_insert_eq; done |].
    intros other Ho. rewrite lookup_insert_ne by done. done.
  - clear IHcalls.
    assert (Hh' : head (calls ++ [c'])%list = Some c0).
    { destruct calls; simpl in *; done. }
    apply gapsBelow_snoc in Hg as [Hg Hlt].
    destruct (IH c0 c' Hh' (last_snoc _ _) Hmiss Hg) as [He Ho].
    unfold cacheMessage.
    rewrite cacheMessageSet_entries by (by rewrite cacheAll_up).
    rewrite (cacheMessageGet_hit roomId _ _ _ _ (eq_trans (cacheAll_up _ _ _) Hup) He Hlt).
    split.
    + rewrite lookup_insert_eq. f_equal. f_equal.
      rewrite <- (length_map cc_message (calls ++ [c'])%list).
      rewrite (window_snoc (map cc_message (calls ++ [c'])%list) (cc_message c)).
      rewrite !length_app, !map_app, !length_app, !length_map. simpl. done.
    + intros other Hne. rewrite lookup_insert_ne by done. apply Ho. exact Hne.
Qed.

(** X11. The cache of recent messages is a sliding window as long as the
    calls of [cacheMessage] for the room do not overlap and nothing else
    writes the entry: from a call that finds no live entry on, and while
    each call reads less than five minutes after the call before it wrote,
    the entry of the room holds the last hundred messages, oldest first,
    and lives for five minutes after the last write; the entries of other
    rooms are not touched. When two calls overlap, both reading before
    either writes, the entry ends up without the message of the call that
    wrote first. *)
Theorem X11_cache_sliding_window (roomId : Z) (r : Redis) (calls : list CacheCall)
    (c0 cn : CacheCall) :
  redisUp r = true ->
  head calls = Some c0 -> last calls = Some cn ->
  CacheService.get roomId (cc_getAt c0) r = None ->
  gapsBelow (300 * 1000) calls ->
  entries (cacheAll roomId calls r) !! roomId
    = Some (drop (length calls - 100) (map cc_message calls),
            Some (cc_setAt cn + 300 * 1000))
  /\ (length (drop (length calls - 100) (map cc_message calls)) <= 100)%nat
  /\ (forall other, other <> roomId ->
        entries (cacheAll roomId calls r) !! other = entries r !! other)
  /\ (forall c1 c2,
        cc_getAt c1 < cc_setAt cn + 300 * 1000 ->
        cc_getAt c2 < cc_setAt cn + 300 * 1000 ->
        entries (cacheOverlapping roomId c1 c2 (cacheAll roomId calls r)) !! roomId
        = Some (drop (length calls + 1 - 100) (map cc_message calls ++ [cc_message c2]),
                Some (cc_setAt c2 + 300 * 1000))).
Proof.
  intros Hup Hh Hl Hmiss Hg.
  destruct (cacheAll_window roomId r calls Hup c0 cn Hh Hl Hmiss Hg) as [He Ho].
  split; [exact He | split; [| split; [exact Ho |]]].
  - rewrite length_drop, length_map. lia.
  - intros c1 c2 H1 H2. unfold cacheOverlapping.
    assert (Hup' : redisUp (cacheAll roomId calls r) = true) by (by rewrite cacheAll_up).
    rewrite (cacheMessageGet_hit roomId _ _ _ _ Hup' He H1).
    rewrite (cacheMessageGet_hit roomId _ _ _ _ Hup' He H2).
    rewrite cacheMessageSet_entries
      by (unfold cacheMessageSet; by rewrite set_up).
    rewrite lookup_insert_eq. f_equal. f_equal.
    rewrite <- (length_map cc_message calls).
    rewrite (window_snoc (map cc_message calls) (cc_message c2)).
    rewrite length_app. simpl. done.
Qed.

(** ** Reading the history of a room *)

Lemma sorted_rev_map {A B} (R : relation A) (R' : relation B) (f : A -> B) (l : list A) :
  (forall x y, R x y -> R' (f y) (f x)) ->
  StronglySorted R l -> StronglySorted R' (rev (map f l)).
Proof.
  intros Hf. induction 1 as [| x l Hs IH Hx]; simpl; [constructor |].
  apply StronglySorted_app_2; [| exact IH | repeat constructor].
  intros x1 x2 H1 H2. apply list_elem_of_singleton in H2 as ->.
  apply list_elem_of_In, in_rev, in_map_iff in H1 as (y & <- & Hy).
  apply Hf. rewrite Forall_forall in Hx. apply Hx. by apply list_elem_of_In.
Qed.

(** A page of the history: [limit] rows after the [offset] newest, handed
    out oldest first. *)
Lemma history_page {B} (f : JoinedRow -> B) (key : B -> Z)
    (orderBy : list JoinedRow -> list JoinedRow) (rows : list JoinedRow)
    (limit offset : nat) :
  ordersByCreatedAtDesc orderBy ->
  (forall row, key (f row) = m_createdAt row.1) ->
  let ms := rev (map f (take limit (drop offset (orderBy rows)))) in
  exists older newer,
    map f rows ≡ₚ (older ++ ms ++ newer)%list
    /\ length newer = Nat.min offset (length rows)
    /\ (length ms <= limit)%nat
    /\ (older <> [] -> length ms = limit)
    /\ StronglySorted (fun a b => key a <= key b) ms
    /\ (forall o m, o ∈ older -> m ∈ ms -> key o <= key m)
    /\ (forall m n, m ∈ ms -> n ∈ newer -> key m <= key n).
Proof.
  intros Ho Hkey ms. destruct (Ho rows) as [Hperm Hsorted].
  set (sorted := orderBy rows) in *.
  set (newer := take offset sorted).
  set (page := take limit (drop offset sorted)).
  set (older := drop limit (drop offset sorted)).
  assert (Hsplit : sorted = (newer ++ page ++ older)%list).
  { unfold newer, page, older. rewrite take_drop, take_drop. done. }
  assert (Hin : forall (l : list JoinedRow) b, b ∈ map f l -> exists a, a ∈ l /\ b = f a).
  { intros l b Hb. apply list_elem_of_In, in_map_iff in Hb as (a & <- & Ha).
    exists a. split; [by apply list_elem_of_In | done]. }
  exists (map f older), (map f newer). split; [| split; [| split; [| split; [| split; [| split]]]]].
  - rewrite <- Hperm, Hsplit, !map_app. unfold ms. fold page.
    rewrite <- (Permutation_rev (map f page)).
    rewrite (Permutation_app_comm (map f newer)), <- app_assoc.
    rewrite (app_assoc (map f page)), (Permutation_app_comm (map f page) (map f older)).
    rewrite <- app_assoc. done.
  - unfold newer. rewrite length_map, length_take.
    rewrite <- (Permutation_length Hperm). lia.
  - unfold ms. rewrite length_rev, length_map, length_take. lia.
  - intros Hne. unfold ms. rewrite length_rev, length_map, length_take.
    destruct (decide (limit <= length (drop offset sorted))%nat) as [Hle | Hgt]; [lia |].
    exfalso. apply Hne. unfold older. rewrite drop_ge by lia. done.
  - unfold ms. fold page. apply (sorted_rev_map newerFirst).
    + intros x y Hxy. rewrite !Hkey. exact Hxy.
    + rewrite Hsplit in Hsorted.
      apply StronglySorted_app_1_r, StronglySorted_app_1_l in Hsorted. exact Hsorted.
  - intros o m Ho' Hm. apply Hin in Ho' as (a & Ha & ->).
    unfold ms in Hm. fold page in Hm.
    apply list_elem_of_In, in_rev, list_elem_of_In, Hin in Hm as (b & Hb & ->).
    rewrite !Hkey. rewrite Hsplit in Hsorted.
    apply StronglySorted_app_1_r in Hsorted.
    exact (StronglySorted_app_1_elem_of _ _ _ _ _ Hsorted Hb Ha).
  - intros m n Hm Hn. apply Hin in Hn as (a & Ha & ->).
    unfold ms in Hm. fold page in Hm.
    apply list_elem_of_In, in_rev, list_elem_of_In, Hin in Hm as (b & Hb & ->).
    rewrite !Hkey. rewrite Hsplit in Hsorted.
    apply (StronglySorted_app_1_elem_of _ _ _ _ _ Hsorted Ha).
    apply elem_of_app. by left.
Qed.

Lemma setDb_db (w : World) : setDb (db w) w = w.
Proof. by destruct w. Qed.

Lemma slice_all {A} (limit : Z) (l : list A) :
  0 < limit -> (length l <= Z.to_nat limit)%nat -> slice (- limit) l = l.
Proof.
  intros Hl Hlen. unfold slice.
  assert (E : (- limit <? 0)%Z = true) by (apply Z.ltb_lt; lia).
  rewrite E. replace (Z.to_nat _) with 0%nat by lia. done.
Qed.

Lemma get_set (roomId : Z) (value : list ChatMessage) (t t' : Z) (r : Redis) :
  redisUp r = true -> t' < t + 300 * 1000 ->
  CacheService.get roomId t' (CacheService.set roomId value (Some 300) t r).1 = Some value.
Proof.
  intros Hup Ht. rewrite set_300 by done. unfold CacheService.get. simpl. rewrite Hup.
  rewrite lookup_insert_eq. simpl.
  assert (E : (t + 300 * 1000 <=? t')%Z = false) by (apply Z.leb_gt; lia).
  by rewrite E.
Qed.

Lemma get_live (roomId : Z) (now : Z) (r : Redis) (cached : list ChatMessage)
    (expiresAt : option Z) :
  redisUp r = true -> entries r !! roomId = Some (cached, expiresAt) ->
  expired now expiresAt = false ->
  CacheService.get roomId now r = Some cached.
Proof. intros Hup He Hx. unfold CacheService.get. by rewrite Hup, He, Hx. Qed.

(** X12. While Redis holds a live entry for the room, [getRoomMessages]
    answers from it and does not read the table: it hands out the last
    [limit] messages of the entry and leaves Redis and the database as
    they are. So after calls of [cacheMessage] that did not overlap, from
    one that found no live entry on and each reading less than five
    minutes after the one before it wrote, a join less than five minutes
    after the last write is handed the last [limit] (at most a hundred) of
    the messages of those calls, whatever else the table holds for the
    room. *)
Theorem X12_history_from_cache (orderBy : list JoinedRow -> list JoinedRow)
    (roomId limit : Z) (r : Redis) (cached : list ChatMessage) (expiresAt : option Z)
    (w : World) :
  redisUp r = true ->
  entries r !! roomId = Some (cached, expiresAt) ->
  expired (now w) expiresAt = false ->
  0 < limit ->
  getRoomMessages orderBy roomId limit r w
  = (w, Ret (r, drop (length cached - Z.to_nat limit) cached))
  /\ (forall r0 calls c0 cn,
        r = cacheAll roomId calls r0 ->
        head calls = Some c0 -> last calls = Some cn ->
        CacheService.get roomId (cc_getAt c0) r0 = None ->
        gapsBelow (300 * 1000) calls ->
        getRoomMessages orderBy roomId limit r w
        = (w, Ret (r, drop (length calls - Z.to_nat (Z.min limit 100))
                        (map cc_message calls)))).
Proof.
  intros Hup He Hx Hlimit.
  assert (Hhit : getRoomMessages orderBy roomId limit r w
                 = (w, Ret (r, drop (length cached - Z.to_nat limit) cached))).
  { unfold getRoomMessages, mbind, newDate, mret.
    rewrite (get_live roomId (now w) r cached expiresAt Hup He Hx).
    do 3 f_equal. unfold slice.
    assert (E' : (- limit <? 0)%Z = true) by (apply Z.ltb_lt; lia).
    rewrite E'. f_equal. lia. }
  split; [exact Hhit |].
  intros r0 calls c0 cn -> Hh Hl Hmiss Hg. rewrite Hhit.
  rewrite cacheAll_up in Hup.
  destruct (cacheAll_window roomId r0 calls Hup c0 cn Hh Hl Hmiss Hg) as [He' _].
  rewrite He' in He. injection He as <- _.
  do 3 f_equal. rewrite length_drop, length_map, drop_drop. f_equal. lia.
Qed.

(** X13. On a miss [getRoomMessages] reads the table: with the database up
    it returns at most [limit] messages, oldest first, all of them messages
    of the room that are not deleted and whose sender exists, and the
    newest of those: a message left out is no newer than any returned, and
    none is left out unless [limit] are returned. The answer is written to
    the cache, to live for five minutes: while that entry is the one Redis
    holds, a read in the five minutes that follow returns the same list
    without reading the table. *)
Theorem X13_history_from_table (orderBy : list JoinedRow -> list JoinedRow)
    (roomId limit : Z) (r : Redis) (w : World) :
  ordersByCreatedAtDesc orderBy ->
  CacheService.get roomId (now w) r = None -> dbFaults w = [] -> 0 <= limit ->
  exists ms older,
    getRoomMessages orderBy roomId limit r w
      = (w, Ret ((CacheService.set roomId ms (Some 300) (now w) r).1, ms))
    /\ (length ms <= Z.to_nat limit)%nat
    /\ map toChatMessage (visibleRows roomId (db w)) ≡ₚ (older ++ ms)%list
    /\ (older <> [] -> length ms = Z.to_nat limit)
    /\ StronglySorted (fun a b => cm_createdAt a <= cm_createdAt b) ms
    /\ (forall o m, o ∈ older -> m ∈ ms -> cm_createdAt o <= cm_createdAt m)
    /\ (forall w', redisUp r = true -> now w' < now w + 300 * 1000 -> 0 < limit ->
          getRoomMessages orderBy roomId limit
            (CacheService.set roomId ms (Some 300) (now w) r).1 w'
          = (w', Ret ((CacheService.set roomId ms (Some 300) (now w) r).1, ms))).
Proof.
  intros Ho Hmiss Hf Hlimit.
  destruct (history_page toChatMessage cm_createdAt orderBy (visibleRows roomId (db w))
              (Z.to_nat limit) 0 Ho ltac:(done))
    as (older & newer & Hperm & Hnewer & Hlen & Hfull & Hsorted & Hold & _).
  simpl in Hnewer. destruct newer; [| done]. rewrite app_nil_r in Hperm.
  rewrite drop_0 in *.
  set (ms := rev (map toChatMessage (take (Z.to_nat limit) (orderBy (visibleRows roomId (db w)))))) in *.
  exists ms, older.
  split; [| split; [exact Hlen | split; [exact Hperm | split; [exact Hfull |
    split; [exact Hsorted | split; [exact Hold |]]]]]].
  - unfold getRoomMessages, mbind, newDate, mret. rewrite Hmiss.
    rewrite dbRun_nofault by exact Hf. unfold selectHistory.
    assert (E : ((limit <? 0) || (0 <? 0))%Z = false).
    { apply orb_false_iff. split; [apply Z.ltb_ge; lia | done]. }
    rewrite E. simpl. rewrite setDb_db. change (Z.to_nat 0) with 0%nat. rewrite drop_0.
    unfold ms, visibleRows. rewrite map_rev. done.
  - intros w' Hup Hnow Hpos. unfold getRoomMessages, mbind, newDate, mret.
    rewrite get_set by done. rewrite slice_all by done. done.
Qed.

(** ** [GET /rooms/:id/messages] *)

Lemma optionalIsInt_limit (limit : option QueryValue) :
  optionalIsInt 1 (Some 50) limit = true -> 1 <= parseIntOr limit 20 <= 50.
Proof.
  destruct limit as [[n | s] |]; simpl; [| done | lia].
  intros [H1 H2]%andb_true_iff. apply Z.leb_le in H1, H2.
  destruct (n =? 0)%Z eqn:E; [apply Z.eqb_eq in E |]; lia.
Qed.

Lemma optionalIsInt_offset (offset : option QueryValue) :
  optionalIsInt 0 None offset = true -> 0 <= parseIntOr offset 0.
Proof.
  destruct offset as [[n | s] |]; simpl; [| done | lia].
  intros [H1 _]%andb_true_iff. apply Z.leb_le in H1.
  destruct (n =? 0)%Z; lia.
Qed.

Lemma selectHistory_valid (orderBy : list JoinedRow -> list JoinedRow)
    (roomId limit offset : Z) (d : Db) :
  0 <= limit -> 0 <= offset ->
  selectHistory orderBy roomId limit offset d
  = (d, Ret (take (Z.to_nat limit) (drop (Z.to_nat offset) (orderBy (visibleRows roomId d))))).
Proof.
  intros Hl Ho. unfold selectHistory.
  assert (E : ((limit <? 0) || (offset <? 0))%Z = false).
  { apply orb_false_iff. split; apply Z.ltb_ge; lia. }
  rewrite E. done.
Qed.

Lemma selectHistory_reads (orderBy : list JoinedRow -> list JoinedRow)
    (roomId limit offset : Z) (d : Db) :
  (selectHistory orderBy roomId limit offset d).1 = d.
Proof. unfold selectHistory. by destruct ((limit <? 0) || (offset <? 0))%Z. Qed.

(** After a leave over REST the user has no active Membership in the room. *)
Lemma left_is_inactive (userId roomId : Z) (l : list RoomParticipant) :
  List.filter (isActiveParticipant roomId userId)
    (map (fun p => if isParticipant roomId userId p then setInactive p else p) l) = [].
Proof.
  apply filter_nil_iff. intros x Hx.
  apply list_elem_of_In, in_map_iff in Hx as (p & <- & _).
  destruct (isParticipant roomId userId p) eqn:E.
  - unfold isActiveParticipant. simpl. apply andb_false_r.
  - unfold isActiveParticipant. unfold isParticipant in E. rewrite E. done.
Qed.

(** X14. A page of [GET /rooms/:id/messages]. For an active member, with a
    valid query and the database up, the route answers with at most
    [limit] messages (20 when none is asked for, never more than 50),
    oldest first. They are messages of the room that are not deleted and
    whose sender exists, and they are a window of the history: [offset]
    messages, each at least as new as any on the page, are skipped, and the
    messages left out at the other end are no newer than any on the page;
    none is left out there unless the page is full. Nothing is written. *)
Theorem X14_messages_page (orderBy : list JoinedRow -> list JoinedRow) (userId roomId : Z)
    (limit offset : option QueryValue) (w : World) :
  ordersByCreatedAtDesc orderBy ->
  optionalIsInt 1 (Some 50) limit = true -> optionalIsInt 0 None offset = true ->
  dbFaults w = [] -> activeMember userId roomId (db w) ->
  exists ms older newer,
    getRoomsMessages orderBy userId (Some roomId) limit offset w = (w, Ret (MessagesOk ms))
    /\ (length ms <= Z.to_nat (parseIntOr limit 20) <= 50)%nat
    /\ map toRestMessage (visibleRows roomId (db w)) ≡ₚ (older ++ ms ++ newer)%list
    /\ length newer
       = Nat.min (Z.to_nat (parseIntOr offset 0)) (length (visibleRows roomId (db w)))
    /\ (older <> [] -> length ms = Z.to_nat (parseIntOr limit 20))
    /\ StronglySorted (fun a b => rm_createdAt a <= rm_createdAt b) ms
    /\ (forall o m, o ∈ older -> m ∈ ms -> rm_createdAt o <= rm_createdAt m)
    /\ (forall m n, m ∈ ms -> n ∈ newer -> rm_createdAt m <= rm_createdAt n).
Proof.
  intros Ho Hl Hoff Hf Hmem.
  pose proof (optionalIsInt_limit limit Hl) as Hlim.
  pose proof (optionalIsInt_offset offset Hoff) as Hofs.
  destruct (history_page toRestMessage rm_createdAt orderBy (visibleRows roomId (db w))
              (Z.to_nat (parseIntOr limit 20)) (Z.to_nat (parseIntOr offset 0)) Ho
              ltac:(done))
    as (older & newer & Hperm & Hnewer & Hlen & Hfull & Hsorted & Hold & Hnew).
  eexists _, older, newer.
  split; [| split; [split; [exact Hlen | lia] | split; [exact Hperm | split; [exact Hnewer |
    split; [exact Hfull | split; [exact Hsorted | split; [exact Hold | exact Hnew]]]]]]].
  destruct (active_participant_found userId roomId (db w) Hmem) as [p Hp].
  unfold getRoomsMessages, tryCatch. rewrite Hl, Hoff.
  change (negb (true && true)) with false. cbv iota.
  unfold mbind at 1. rewrite dbRun_nofault by exact Hf.
  unfold selectFirst, query. simpl. rewrite Hp, setDb_db.
  unfold mbind. rewrite dbRun_nofault by exact Hf.
  rewrite selectHistory_valid by lia. simpl. rewrite setDb_db. done.
Qed.

(** X15. Who [GET /rooms/:id/messages] refuses. A [limit] outside 1..50,
    an [offset] below 0, or either not an integer, is answered 400 before
    anything is read; a room id that is not a number is answered 400; with
    the database up, a user without an active Membership in the room is
    answered 403, and so is a user who has just left it over REST. The
    route never writes to the database, emits nothing, and always answers. *)
Theorem X15_messages_refusals (orderBy : list JoinedRow -> list JoinedRow) (userId : Z)
    (id : option Z) (limit offset : option QueryValue) (w : World) :
  (optionalIsInt 1 (Some 50) limit && optionalIsInt 0 None offset = false ->
     getRoomsMessages orderBy userId id limit offset w
     = (w, Ret (MessagesError 400 "Validation failed")))
  /\ (optionalIsInt 1 (Some 50) limit && optionalIsInt 0 None offset = true ->
        (id = None ->
           getRoomsMessages orderBy userId id limit offset w
           = (w, Ret (MessagesError 400 "Invalid room ID")))
        /\ (forall roomId, id = Some roomId -> dbFaults w = [] ->
              (~ activeMember userId roomId (db w) ->
                 getRoomsMessages orderBy userId id limit offset w
                 = (w, Ret (MessagesError 403 "You are not a member of this room")))
              /\ (let w1 := (postRoomsLeave userId (Some roomId) w).1 in
                  getRoomsMessages orderBy userId id limit offset w1
                  = (w1, Ret (MessagesError 403 "You are not a member of this room")))))
  /\ db (getRoomsMessages orderBy userId id limit offset w).1 = db w
  /\ outbox (getRoomsMessages orderBy userId id limit offset w).1 = outbox w
  /\ exists res, (getRoomsMessages orderBy userId id limit offset w).2 = Ret res.
Proof.
  assert (Hdenied : forall w0 roomId,
    dbFaults w0 = [] ->
    optionalIsInt 1 (Some 50) limit && optionalIsInt 0 None offset = true ->
    List.filter (isActiveParticipant roomId userId) (roomParticipants (db w0)) = [] ->
    getRoomsMessages orderBy userId (Some roomId) limit offset w0
    = (w0, Ret (MessagesError 403 "You are not a member of this room"))).
  { intros w0 roomId Hf Hv Hnone. unfold getRoomsMessages, tryCatch. rewrite Hv.
    change (negb true) with false. cbv iota. unfold mbind. rewrite dbRun_nofault by exact Hf.
    unfold selectFirst, query. simpl. rewrite Hnone, setDb_db. done. }
  split; [| split; [| split; [| split]]].
  - intros Hv. unfold getRoomsMessages, tryCatch. rewrite Hv. done.
  - intros Hv. split.
    + intros ->. unfold getRoomsMessages, tryCatch. rewrite Hv. done.
    + intros roomId -> Hf. split.
      * intros Hno. apply Hdenied; [exact Hf | exact Hv |].
        by apply no_active_participant.
      * rewrite (postRoomsLeave_nofault userId roomId w Hf). simpl.
        apply Hdenied; [exact Hf | exact Hv |]. simpl. apply left_is_inactive.
  - unfold getRoomsMessages, tryCatch.
    destruct (negb _); [done |]. destruct id as [roomId |]; [| done].
    unfold mbind at 1.
    match goal with |- context [dbRun ?s w] =>
      destruct (dbRun_cases s w) as (fl & [E | E]); rewrite E end; [done |].
    simpl. destruct (head _); [| done].
    unfold mbind.
    match goal with |- context [dbRun ?s ?w1] =>
      destruct (dbRun_cases s w1) as (fl' & [E' | E']); rewrite E' end; [done |].
    simpl. rewrite selectHistory_reads.
    destruct (selectHistory _ _ _ _ _).2; done.
  - unfold getRoomsMessages, tryCatch.
    destruct (negb _); [done |]. destruct id as [roomId |]; [| done].
    unfold mbind at 1.
    match goal with |- context [dbRun ?s w] =>
      destruct (dbRun_cases s w) as (fl & [E | E]); rewrite E end; [done |].
    simpl. destruct (head _); [| done].
    unfold mbind.
    match goal with |- context [dbRun ?s ?w1] =>
      destruct (dbRun_cases s w1) as (fl' & [E' | E']); rewrite E' end; [done |].
    simpl. destruct (selectHistory _ _ _ _ _).2; done.
  - unfold getRoomsMessages, tryCatch.
    destruct (negb _); [by eexists |]. destruct id as [roomId |]; [| by eexists].
    unfold mbind at 1.
    match goal with |- context [dbRun ?s w] =>
      destruct (dbRun_cases s w) as (fl & [E | E]); rewrite E end; [by eexists |].
    simpl. destruct (head _); [| by eexists].
    unfold mbind.
    match goal with |- context [dbRun ?s ?w1] =>
      destruct (dbRun_cases s w1) as (fl' & [E' | E']); rewrite E' end; [by eexists |].
    simpl. destruct (selectHistory _ _ _ _ _).2; by eexists.
Qed.

(** ** Examples for the cache and the history *)

Lemma gapsBelowb_ok (gap : Z) (times : list CacheCall) :
  gapsBelowb gap times = true -> gapsBelow gap times.
Proof.
  induction times as [| t rest IH]; intros Hb i a b Ha Hb'; [done |].
  destruct rest as [| t' rest]; [by destruct i |].
  simpl in Hb. apply andb_true_iff in Hb as [Hlt Hrest]. apply Z.ltb_lt in Hlt.
  destruct i as [| i].
  - simpl in Ha, Hb'. injection Ha as <-. injection Hb' as <-. exact Hlt.
  - apply (IH Hrest i a b); [exact Ha | exact Hb'].
Qed.

Lemma insertSorted_perm (row : JoinedRow) (rows : list JoinedRow) :
  insertSorted row rows ≡ₚ row :: rows.
Proof.
  induction rows as [| x rows IH]; simpl; [done |].
  destruct (newerFirstb row x); [done |]. rewrite IH. apply Permutation_swap.
Qed.

Lemma insertSorted_sorted (row : JoinedRow) (rows : list JoinedRow) :
  StronglySorted newerFirst rows -> StronglySorted newerFirst (insertSorted row rows).
Proof.
  induction 1 as [| x rows Hs IH Hx]; simpl; [repeat constructor |].
  destruct (newerFirstb row x) eqn:E.
  - apply Z.leb_le in E. constructor; [by constructor |].
    constructor; [exact E |]. eapply Forall_impl; [exact Hx |].
    unfold newerFirst in *. intros y Hy. simpl in *. lia.
  - apply Z.leb_gt in E. constructor; [exact IH |].
    rewrite (insertSorted_perm row rows). constructor; [| exact Hx].
    unfold newerFirst. lia.
Qed.

Lemma insertionSort_orders : ordersByCreatedAtDesc insertionSort.
Proof.
  intros rows. unfold insertionSort. induction rows as [| x rows [IHp IHs]]; simpl.
  - split; [done | constructor].
  - split; [rewrite insertSorted_perm, IHp; done | by apply insertSorted_sorted].
Qed.

(** After the burst the cache holds messages 2 to 101. Had two more calls
    overlapped after it, the entry would lack the message of the first. *)
Lemma X11_cache_sliding_window_witness :
  entries (cacheAll 1 burst redis0) !! 1
    = Some (drop (length burst - 100) (map cc_message burst),
            Some (cc_setAt (mkCacheCall (numbered 101) 101000 101005) + 300 * 1000))
  /\ (length (drop (length burst - 100) (map cc_message burst)) <= 100)%nat
  /\ (forall other, other <> 1 ->
        entries (cacheAll 1 burst redis0) !! other = entries redis0 !! other)
  /\ (forall c1 c2,
        cc_getAt c1 < cc_setAt (mkCacheCall (numbered 101) 101000 101005) + 300 * 1000 ->
        cc_getAt c2 < cc_setAt (mkCacheCall (numbered 101) 101000 101005) + 300 * 1000 ->
        entries (cacheOverlapping 1 c1 c2 (cacheAll 1 burst redis0)) !! 1
        = Some (drop (length burst + 1 - 100) (map cc_message burst ++ [cc_message c2]),
                Some (cc_setAt c2 + 300 * 1000))).
Proof.
  apply (X11_cache_sliding_window 1 redis0 burst (mkCacheCall (numbered 1) 1000 1005)
           (mkCacheCall (numbered 101) 101000 101005)).
  - reflexivity.
  - reflexivity.
  - vm_compute. reflexivity.
  - reflexivity.
  - apply gapsBelowb_ok. vm_compute. reflexivity.
Defined.

(** Two sends whose calls of [cacheMessage] overlap on an empty cache: the
    entry holds the second message only, although both were stored. *)
Example overlapping_cache_writes :
  map cm_id
    (cacheMessageGet 1 3000
       (cacheOverlapping 1 (mkCacheCall (numbered 1) 1000 1010)
          (mkCacheCall (numbered 2) 1005 1015) redis0))
  = [2]
  /\ map cm_id
       (cacheMessageGet 1 3000
          (cacheAll 1 [mkCacheCall (numbered 1) 1000 1010;
                       mkCacheCall (numbered 2) 1011 1015] redis0))
     = [1; 2].
Proof. vm_compute. done. Qed.

(** Who joins room 1 three minutes after the burst is handed messages 52 to
    101 of it, though the table holds none of them. *)
Lemma X12_history_from_cache_witness :
  getRoomMessages insertionSort 1 50 (cacheAll 1 burst redis0) (setNow 281000 world0)
  = (setNow 281000 world0,
     Ret (cacheAll 1 burst redis0,
          drop (length (drop (length burst - 100) (map cc_message burst)) - Z.to_nat 50)
            (drop (length burst - 100) (map cc_message burst))))
  /\ (forall r0 calls c0 cn,
        cacheAll 1 burst redis0 = cacheAll 1 calls r0 ->
        head calls = Some c0 -> last calls = Some cn ->
        CacheService.get 1 (cc_getAt c0) r0 = None ->
        gapsBelow (300 * 1000) calls ->
        getRoomMessages insertionSort 1 50 (cacheAll 1 burst redis0) (setNow 281000 world0)
        = (setNow 281000 world0,
           Ret (cacheAll 1 burst redis0,
                drop (length calls - Z.to_nat (Z.min 50 100)) (map cc_message calls)))).
Proof.
  apply (X12_history_from_cache insertionSort 1 50 (cacheAll 1 burst redis0)
           (drop (length burst - 100) (map cc_message burst)) (Some (101005 + 300 * 1000))
           (setNow 281000 world0)).
  - reflexivity.
  - vm_compute. reflexivity.
  - reflexivity.
  - lia.
Defined.

Example burst_history :
  map cm_id (drop (length burst - Z.to_nat (Z.min 50 100)) (map cc_message burst))
  = map Z.of_nat (seq 52 50)
  /\ chatMessages (db (setNow 281000 world0)) = [].
Proof. vm_compute. done. Qed.

(** The busy room read from the table, the cache being empty. *)
Lemma X13_history_from_table_witness :
  exists ms older,
    getRoomMessages insertionSort 1 3 redis0 (exec busyRoom world0)
      = (exec busyRoom world0,
         Ret ((CacheService.set 1 ms (Some 300) (now (exec busyRoom world0)) redis0).1, ms))
    /\ (length ms <= Z.to_nat 3)%nat
    /\ map toChatMessage (visibleRows 1 (db (exec busyRoom world0))) ≡ₚ (older ++ ms)%list
    /\ (older <> [] -> length ms = Z.to_nat 3)
    /\ StronglySorted (fun a b => cm_createdAt a <= cm_createdAt b) ms
    /\ (forall o m, o ∈ older -> m ∈ ms -> cm_createdAt o <= cm_createdAt m)
    /\ (forall w', redisUp redis0 = true ->
          now w' < now (exec busyRoom world0) + 300 * 1000 -> 0 < 3 ->
          getRoomMessages insertionSort 1 3
            (CacheService.set 1 ms (Some 300) (now (exec busyRoom world0)) redis0).1 w'
          = (w', Ret ((CacheService.set 1 ms (Some 300) (now (exec busyRoom world0)) redis0).1, ms))).
Proof.
  apply (X13_history_from_table insertionSort 1 3 redis0 (exec busyRoom world0)).
  - exact insertionSort_orders.
  - reflexivity.
  - vm_compute. reflexivity.
  - lia.
Defined.

Example busy_room_recent :
  (let (_, res) := getRoomMessages insertionSort 1 2 redis0 (exec busyRoom world0) in
   match res with
   | Ret (_, ms) => Some (map cm_content ms)
   | Throw => None
   end) = Some ["anyone?"; "here"].
Proof. vm_compute. reflexivity. Qed.

(** Alice asks for the second newest message of the busy room. *)
Lemma X14_messages_page_witness :
  exists ms older newer,
    getRoomsMessages insertionSort 1 (Some 1) (Some (QInt 1)) (Some (QInt 1))
      (exec busyRoom world0)
      = (exec busyRoom world0, Ret (MessagesOk ms))
    /\ (length ms <= Z.to_nat (parseIntOr (Some (QInt 1)) 20) <= 50)%nat
    /\ map toRestMessage (visibleRows 1 (db (exec busyRoom world0)))
         ≡ₚ (older ++ ms ++ newer)%list
    /\ length newer
       = Nat.min (Z.to_nat (parseIntOr (Some (QInt 1)) 0))
                 (length (visibleRows 1 (db (exec busyRoom world0))))
    /\ (older <> [] -> length ms = Z.to_nat (parseIntOr (Some (QInt 1)) 20))
    /\ StronglySorted (fun a b => rm_createdAt a <= rm_createdAt b) ms
    /\ (forall o m, o ∈ older -> m ∈ ms -> rm_createdAt o <= rm_createdAt m)
    /\ (forall m n, m ∈ ms -> n ∈ newer -> rm_createdAt m <= rm_createdAt n).
Proof.
  apply (X14_messages_page insertionSort 1 1 (Some (QInt 1)) (Some (QInt 1))
           (exec busyRoom world0)).
  - exact insertionSort_orders.
  - reflexivity.
  - reflexivity.
  - vm_compute. reflexivity.
  - apply activeMember_existsb. vm_compute. reflexivity.
Defined.

Example busy_room_page :
  (getRoomsMessages insertionSort 1 (Some 1) (Some (QInt 1)) (Some (QInt 1))
     (exec busyRoom world0)).2
  = Ret (MessagesOk [mkRestMessage 3 "anyone?" "text" None false 10 (1, "alice", None)])
  /\ (getRoomsMessages insertionSort 3 (Some 1) None None (exec busyRoom world0)).2
     = Ret (MessagesError 403 "You are not a member of this room")
  /\ (getRoomsMessages insertionSort 1 (Some 1) (Some (QInt 51)) None (exec busyRoom world0)).2
     = Ret (MessagesError 400 "Validation failed").
Proof. vm_compute. done. Qed.

(** ** Subscriptions and the table of rooms *)

Lemma ensures_mret {A} (I : World -> Prop) (Q : A -> World -> Prop) (a : A) :
  (forall w, I w -> Q a w) -> ensures I (mret a) Q.
Proof. intros H w Hw. simpl. by apply H. Qed.

Lemma ensures_mbind {A B} (I : World -> Prop) (Q : A -> World -> Prop)
    (R : B -> World -> Prop) (m : M A) (k : A -> M B) :
  ensures I m Q -> (forall a w, Q a w -> I w) -> (forall a, ensures (Q a) (k a) R) ->
  ensures I (mbind m k) R.
Proof.
  intros Hm Hweak Hk w Hw. unfold mbind. specialize (Hm w Hw).
  destruct (m w) as [w1 [a |]]; simpl in *; [| exact Hm].
  specialize (Hk a w1 Hm). destruct (k a w1) as [w2 [b |]]; simpl in *; [exact Hk |].
  by apply (Hweak a).
Qed.

Lemma ensures_pres_then {A B} (I : World -> Prop) (R : B -> World -> Prop)
    (m : M A) (k : A -> M B) :
  pres I m -> (forall a, ensures I (k a) R) -> ensures I (mbind m k) R.
Proof.
  intros Hm Hk w Hw. unfold mbind. specialize (Hm w Hw).
  destruct (m w) as [w1 [a |]]; simpl in *; [| exact Hm]. by apply Hk.
Qed.

Lemma ensures_dbRun {A} (I : World -> Prop) (Q : A -> World -> Prop)
    (stmt : Db -> Db * Res A) :
  (forall w fl, I w -> I (setFaults fl w)) ->
  (forall w, I w ->
     match (stmt (db w)).2 with
     | Ret a => Q a (setDb (stmt (db w)).1 w)
     | Throw => I (setDb (stmt (db w)).1 w)
     end) ->
  ensures I (dbRun stmt) Q.
Proof.
  intros Hf Hs w Hw.
  destruct (dbRun_cases stmt w) as (fl & [E | E]); rewrite E; simpl; [by apply Hf |].
  specialize (Hs (setFaults fl w) (Hf w fl Hw)). exact Hs.
Qed.

(** What [m] returns may tell more about the state; the rest of the handler
    runs under that knowledge. *)
Lemma pres_gain {A B} (I : World -> Prop) (Q : A -> World -> Prop) (m : M A) (k : A -> M B) :
  ensures I m Q -> (forall a w, Q a w -> I w) -> (forall a, pres (Q a) (k a)) ->
  pres I (mbind m k).
Proof.
  intros Hm Hweak Hk w Hw. unfold mbind. specialize (Hm w Hw).
  destruct (m w) as [w1 [a |]]; simpl in *; [| exact Hm].
  apply (Hweak a). by apply Hk.
Qed.

Lemma subs_grows (known : list Z) (w : World) (d : Db) :
  grows (db w) d -> subscriptionsExist known w -> subscriptionsExist known (setDb d w).
Proof.
  intros Hg [H1 H2]. split.
  - intros sid roomId Hs. simpl. eapply roomExists_grows; [exact Hg |]. by apply (H1 sid).
  - eapply Forall_impl; [exact H2 |]. intros n Hn. simpl.
    eapply roomExists_grows; [exact Hg | exact Hn].
Qed.

Lemma subs_dbRun {A} (known : list Z) (stmt : Db -> Db * Res A) :
  (forall d, grows d (stmt d).1) -> pres (subscriptionsExist known) (dbRun stmt).
Proof.
  intros Hg. apply pres_dbRun.
  - intros w fl H. exact H.
  - intros w H. apply subs_grows; [apply Hg | exact H].
Qed.

Lemma subs_weaken (n : Z) (known : list Z) (w : World) :
  subscriptionsExist (n :: known) w -> subscriptionsExist known w.
Proof. intros [H1 H2]. split; [exact H1 | by inversion H2]. Qed.

Lemma subs_socketJoin (known : list Z) (sid : string) (n : Z) :
  n ∈ known -> pres (subscriptionsExist known) (socketJoin sid n).
Proof.
  intros Hn. apply pres_modifyWorld. intros w [H1 H2]. split; [| exact H2].
  intros s roomId (rs & Hrs & Hin). simpl in *.
  destruct (decide (sid = s)) as [<- | Hne].
  - rewrite lookup_alter_eq in Hrs. destruct (sockets w !! sid) as [rs0 |] eqn:E; [| done].
    simpl in Hrs. injection Hrs as <-. apply elem_of_union in Hin as [Hin | Hin].
    + apply (H1 sid). by exists rs0.
    + apply elem_of_singleton in Hin as ->. rewrite Forall_forall in H2. by apply H2.
  - rewrite lookup_alter_ne in Hrs by done. apply (H1 s). by exists rs.
Qed.

Lemma subs_socketLeave (known : list Z) (sid : string) (n : Z) :
  pres (subscriptionsExist known) (socketLeave sid n).
Proof.
  apply pres_modifyWorld. intros w [H1 H2]. split; [| exact H2].
  intros s roomId (rs & Hrs & Hin). simpl in *.
  destruct (decide (sid = s)) as [<- | Hne].
  - rewrite lookup_alter_eq in Hrs. destruct (sockets w !! sid) as [rs0 |] eqn:E; [| done].
    simpl in Hrs. injection Hrs as <-. apply elem_of_difference in Hin as [Hin _].
    apply (H1 sid). by exists rs0.
  - rewrite lookup_alter_ne in Hrs by done. apply (H1 s). by exists rs.
Qed.

Lemma subs_connect (known : list Z) (sid : string) :
  pres (subscriptionsExist known)
    (modifyWorld (fun w => setSockets (<[sid := ∅]> (sockets w)) w)).
Proof.
  apply pres_modifyWorld. intros w [H1 H2]. split; [| exact H2].
  intros s roomId (rs & Hrs & Hin). simpl in *.
  destruct (decide (sid = s)) as [<- | Hne].
  - rewrite lookup_insert_eq in Hrs. injection Hrs as <-. set_solver.
  - rewrite lookup_insert_ne in Hrs by done. apply (H1 s). by exists rs.
Qed.

Lemma subs_disconnect (known : list Z) (sid : string) :
  pres (subscriptionsExist known)
    (modifyWorld (fun w => setSockets (delete sid (sockets w)) w)).
Proof.
  apply pres_modifyWorld. intros w [H1 H2]. split; [| exact H2].
  intros s roomId (rs & Hrs & Hin). simpl in *.
  apply lookup_delete_Some in Hrs as [_ Hrs]. apply (H1 s). by exists rs.
Qed.

Lemma subs_registry (known : list Z) (f : World -> World) :
  (forall w, sockets (f w) = sockets w /\ db (f w) = db w) ->
  pres (subscriptionsExist known) (modifyWorld f).
Proof.
  intros Hf. apply pres_modifyWorld. intros w [H1 H2].
  destruct (Hf w) as [Hs Hd]. split.
  - intros s roomId (rs & Hrs & Hin). rewrite Hd. apply (H1 s). exists rs.
    rewrite <- Hs. done.
  - rewrite Hd. exact H2.
Qed.

Lemma unregisterSocket_keeps (sid : string) (user : SocketUser) (w : World) :
  sockets (unregisterSocket sid user w) = sockets w
  /\ db (unregisterSocket sid user w) = db w.
Proof.
  unfold unregisterSocket. simpl.
  destruct (userRooms w !! su_id user); [| done]. by destruct (size _ =? 0)%nat.
Qed.

Ltac subs_steps :=
  pres_shape ltac:(idtac; lazymatch goal with
                   | |- pres _ (let _ := _ in _) => cbv zeta
                   end);
  lazymatch goal with
  | |- pres _ (dbRun _) => apply subs_dbRun; intros ?; grows_stmt_body
  | |- pres _ (socketJoin _ _) => apply subs_socketJoin; by left
  | |- pres _ (socketLeave _ _) => apply subs_socketLeave
  | |- pres _ (socketEmit _ _) => apply pres_socketEmit; intros ? ? H; exact H
  | |- pres _ (ioToRoomEmit _ _) => apply pres_ioToRoomEmit; intros ? ? H; exact H
  | |- pres _ (socketToRoomEmit _ _ _) => apply pres_socketToRoomEmit; intros ? ? H; exact H
  | |- pres _ (modifyWorld (fun w => setSockets (<[_ := ∅]> (sockets w)) w)) =>
      apply subs_connect
  | |- pres _ (modifyWorld (fun w => setSockets (delete _ (sockets w)) w)) =>
      apply subs_disconnect
  | |- pres _ (modifyWorld (unregisterSocket _ _)) =>
      apply subs_registry; intros ?; apply unregisterSocket_keeps
  | |- pres _ (modifyWorld _) => apply subs_registry; intros ?; done
  end.

Lemma subs_handleSendMessage (known : list Z) sid user data :
  pres (subscriptionsExist known) (handleSendMessage sid user data).
Proof. unfold handleSendMessage. subs_steps. Qed.

Lemma subs_handleJoinRoom sid user roomId :
  pres (subscriptionsExist []) (handleJoinRoom sid user roomId).
Proof.
  unfold handleJoinRoom, getRoomInfo.
  apply (pres_gain _ (fun a w => match a with
                                 | Some _ => subscriptionsExist [roomId] w
                                 | None => subscriptionsExist [] w
                                 end)).
  - apply ensures_dbRun; [intros w fl H; exact H |].
    intros w H. simpl. rewrite setDb_db.
    destruct (head _) as [room |] eqn:E; [| exact H].
    destruct H as [H1 H2]. split; [exact H1 |]. constructor; [| done].
    eapply room_read_exists; [apply isActiveRoom_id | exact E].
  - intros [room |] w H; [by apply subs_weaken in H | exact H].
  - intros [room |]; subs_steps.
Qed.

Lemma subs_resolveDirectRoom user recipient :
  ensures (subscriptionsExist []) (resolveDirectRoom user recipient)
    (fun room w => subscriptionsExist [r_id room] w).
Proof.
  unfold resolveDirectRoom. cbv zeta.
  apply (ensures_mbind _ (fun a w => match a with
                                     | Some room => subscriptionsExist [r_id room] w
                                     | None => subscriptionsExist [] w
                                     end)).
  - apply ensures_dbRun; [intros w fl H; exact H |].
    intros w H. simpl. rewrite setDb_db.
    destruct (head _) as [room |] eqn:E; [| exact H].
    destruct H as [H1 H2]. split; [exact H1 |]. constructor; [| done].
    apply head_filter_Some in E as [Hin _]. by exists room.
  - intros [room |] w H; [by apply subs_weaken in H | exact H].
  - intros [room |]; [apply ensures_mret; intros w H; exact H |].
    apply (ensures_mbind _ (fun room w => subscriptionsExist [r_id room] w)).
    + apply ensures_dbRun; [intros w fl H; exact H |].
      intros w H. simpl.
      assert (Hg : grows (db w)
                     (setChatRooms
                        (chatRooms (db w) ++
                           [mkChatRoom (roomSeq (db w))
                              (dmRoomName (su_username user) (u_username recipient))
                              (Some "Direct message conversation") "direct" (su_id user)
                              true 2])%list (roomSeq (db w) + 1) (db w))).
      { split; [| split]; simpl; first [done | by apply prefix_app_r]. }
      destruct (subs_grows [] w _ Hg H) as [H1 _]. split; [exact H1 |].
      constructor; [| done]. simpl. eexists.
      split; [apply elem_of_app; right; by apply list_elem_of_singleton | done].
    + intros room w H. by apply subs_weaken in H.
    + intros room. apply ensures_pres_then; [apply pres_newDate | intros t].
      apply ensures_pres_then; [subs_steps | intros _].
      apply ensures_mret. intros w H. exact H.
Qed.

Lemma subs_handlePrivateMessage sid user recipientId content :
  pres (subscriptionsExist []) (handlePrivateMessage sid user recipientId content).
Proof.
  unfold handlePrivateMessage.
  apply pres_mbind; [subs_steps | intros [recipient |]]; [| subs_steps].
  apply (pres_gain _ (fun room w => subscriptionsExist [r_id room] w)).
  - apply subs_resolveDirectRoom.
  - intros room w H. by apply subs_weaken in H.
  - intros room.
    apply pres_mbind; [apply subs_handleSendMessage | intros _].
    subs_steps.
Qed.

Lemma subs_run e w : subscriptionsExist [] w -> subscriptionsExist [] (run e w).
Proof.
  revert w. unfold run. change (pres (subscriptionsExist []) (handle e)).
  destruct e;
    unfold handle, onConnection, onDisconnect, onJoinRoom, onLeaveRoom, onSendMessage,
      onTypingStart, onTypingStop, onToggleReaction, onGetOnlineUsers,
      onSendPrivateMessage, handleLeaveRoom, sendUserInfo,
      authenticate, postRooms, postRoomsJoin, postRoomsLeave;
    pres_shape ltac:(idtac; lazymatch goal with
                     | |- pres _ (handleSendMessage _ _ _) => apply subs_handleSendMessage
                     | |- pres _ (handleJoinRoom _ _ _) => apply subs_handleJoinRoom
                     | |- pres _ (handlePrivateMessage _ _ _ _) =>
                         apply subs_handlePrivateMessage
                     | |- pres _ (let _ := _ in _) => cbv zeta
                     end);
    lazymatch goal with
    | |- pres _ (dbRun _) => apply subs_dbRun; intros ?; grows_stmt_body
    | |- pres _ (socketLeave _ _) => apply subs_socketLeave
    | |- pres _ (socketEmit _ _) => apply pres_socketEmit; intros ? ? H; exact H
    | |- pres _ (ioToRoomEmit _ _) => apply pres_ioToRoomEmit; intros ? ? H; exact H
    | |- pres _ (socketToRoomEmit _ _ _) => apply pres_socketToRoomEmit; intros ? ? H; exact H
    | |- pres _ (modifyWorld (fun w => setSockets (<[_ := ∅]> (sockets w)) w)) =>
        apply subs_connect
    | |- pres _ (modifyWorld (fun w => setSockets (delete _ (sockets w)) w)) =>
        apply subs_disconnect
    | |- pres _ (modifyWorld (unregisterSocket _ _)) =>
        apply subs_registry; intros ?; apply unregisterSocket_keeps
    | |- pres _ (modifyWorld _) => apply subs_registry; intros ?; done
    end.
Qed.

Lemma reachable_subscriptionsExist w : reachable w -> subscriptionsExist [] w.
Proof.
  induction 1 as [d t | w e Hr IH Ha].
  - split; [| done]. intros sid roomId (rs & Hrs & _). simpl in Hrs.
    by rewrite lookup_empty in Hrs.
  - by apply subs_run.
Qed.

(** X16. No connection is ever subscribed to a room that is not in the
    table of rooms: in every reachable state, whatever the database the
    server started on and whichever statements failed, a room a socket has
    joined exists. *)
Theorem X16_subscriptions_exist (w : World) (sid : string) (roomId : Z) :
  reachable w -> subscribed sid roomId w -> roomExists roomId (db w).
Proof.
  intros Hr Hs. destruct (reachable_subscriptionsExist w Hr) as [H _]. by apply (H sid).
Qed.

Lemma X16_subscriptions_exist_witness : roomExists 1 (db (exec generalChat world0)).
Proof.
  apply (X16_subscriptions_exist (exec generalChat world0) "s1" 1).
  - apply reachable_exec; [apply reachable_init | vm_compute; repeat split].
  - exists {[1]}. split; [vm_compute; reflexivity | set_solver].
Defined.

(** ** The first direct message *)

Lemma resolveDirectRoom_first user recipient w :
  dbFaults w = [] ->
  participantsReferRooms (db w) ->
  su_id user <> u_id recipient ->
  head (List.filter (isDirectRoomNamed (dmRoomName (su_username user) (u_username recipient)))
          (chatRooms (db w))) = None ->
  resolveDirectRoom user recipient w
  = (setDb (withDirectRoom user recipient (now w) (db w)) w,
     Ret (directRoom user recipient (db w))).
Proof.
  intros Hf Hfk Hne Hnone.
  assert (H1 : existsb (sameUserRoom (su_id user) (roomSeq (db w))) (roomParticipants (db w))
               = false).
  { apply no_row_for_room. eapply Forall_impl; [exact Hfk|]. simpl. intros; lia. }
  assert (H2 : existsb (sameUserRoom (u_id recipient) (roomSeq (db w)))
                 (roomParticipants (db w)) = false).
  { apply no_row_for_room. eapply Forall_impl; [exact Hfk|]. simpl. intros; lia. }
  unfold resolveDirectRoom. unfold mbind at 1.
  rewrite dbRun_nofault by done. simpl. rewrite Hnone.
  unfold mbind at 1. rewrite dbRun_nofault by done. simpl.
  unfold mbind at 1. unfold newDate at 1. unfold mbind at 1.
  rewrite dbRun_nofault by done.
  unfold insertParticipants. simpl. rewrite H1. rewrite existsb_app, H2. simpl.
  match goal with |- context [sameUserRoom ?a ?b ?r || false] =>
    replace (sameUserRoom a b r) with false
      by (unfold sameUserRoom; simpl;
          destruct (Z.eqb_spec (su_id user) (u_id recipient)); done) end.
  simpl. unfold withDirectRoom, directRoom, mret. simpl.
  rewrite <- app_assoc. destruct w as [d fl t cu ur so o]; destruct d; reflexivity.
Qed.

Lemma joinAll_subscribed (n : Z) (l : list string) : forall (m : gmap string (gset Z)) s r,
  (exists rs, joinAll n l m !! s = Some rs /\ r ∈ rs)
  <-> (exists rs, m !! s = Some rs /\ (r ∈ rs \/ (r = n /\ s ∈ l))).
Proof.
  induction l as [| a l IH]; intros m s r; simpl.
  - split; intros (rs & Hrs & H); exists rs; (split; [done |]).
    + by left.
    + destruct H as [H | [_ H]]; [done | by apply elem_of_nil in H].
  - unfold joinAll in *. simpl. rewrite IH. destruct (decide (a = s)) as [-> | Hne].
    + rewrite lookup_alter_eq. split.
      * intros (rs & Hrs & H). destruct (m !! s) as [rs0 |]; [| done].
        simpl in Hrs. injection Hrs as <-. exists rs0. split; [done |].
        destruct H as [H | [-> H]]; [| right; split; [done | by right]].
        apply elem_of_union in H as [H | H]; [by left |].
        apply elem_of_singleton in H as ->. right. split; [done | by left].
      * intros (rs & Hrs & H). rewrite Hrs. simpl. eexists. split; [done |].
        destruct H as [H | [-> H]]; [left; set_solver |].
        left. set_solver.
    + rewrite lookup_alter_ne by done. split; intros (rs & Hrs & H); exists rs;
        (split; [done |]); destruct H as [H | [-> H]]; [by left | | by left |].
      * right. split; [done | by right].
      * right. split; [done |]. apply elem_of_cons in H as [-> | H]; [done | exact H].
Qed.

Lemma joinAll_is_Some (n : Z) (l : list string) : forall (m : gmap string (gset Z)) s,
  is_Some (joinAll n l m !! s) <-> is_Some (m !! s).
Proof.
  induction l as [| a l IH]; intros m s; [done |].
  unfold joinAll in *. simpl. rewrite IH.
  destruct (decide (a = s)) as [-> | Hne].
  - rewrite lookup_alter_eq. by rewrite fmap_is_Some.
  - by rewrite lookup_alter_ne.
Qed.

Lemma forEach_join_emit (ev : ServerEvent) (n : Z) (l : list string) : forall w,
  (forall s, s ∈ l -> is_Some (sockets w !! s)) ->
  forEach l (fun socketId =>
    io <- getWorld ;;
    match sockets io !! socketId with
    | Some _ => socketJoin socketId n ;;; socketEmit socketId ev
    | None => mret tt
    end) w
  = (setOutbox (outbox w ++ map (fun s => (s, ev)) l)
       (setSockets (joinAll n l (sockets w)) w), Ret tt).
Proof.
  induction l as [| s l IH]; intros w Hl; simpl.
  - unfold mret, joinAll. simpl. rewrite app_nil_r. by destruct w.
  - unfold mbind at 1. unfold mbind at 1. unfold getWorld at 1.
    destruct (Hl s) as [rs Hrs]; [by left |]. rewrite Hrs.
    unfold mbind at 1. unfold socketJoin, socketEmit, emitTo, modifyWorld. simpl.
    rewrite IH.
    + simpl. rewrite <- app_assoc. reflexivity.
    + intros s' Hs'. simpl.
      destruct (decide (s = s')) as [<- | Hne].
      * rewrite lookup_alter_eq, Hrs. by eexists.
      * rewrite lookup_alter_ne by done. apply Hl. by right.
Qed.

Lemma roomSockets_none (n : Z) (w : World) :
  (forall s, ~ subscribed s n w) -> roomSockets n w = [].
Proof.
  intros Hno. unfold roomSockets.
  replace (List.filter _ (map_to_list (sockets w))) with (@nil (string * gset Z)); [done |].
  symmetry. apply filter_nil_iff. intros [s rs] Hin. simpl.
  apply elem_of_map_to_list in Hin. apply bool_decide_eq_false. intros Hn.
  apply (Hno s). by exists rs.
Qed.

(** X17. The first private message of a user to another is stored and
    delivered to nobody. In a reachable state, on a database that keeps its
    constraints and with the database up: the handler creates the direct
    room and stores the message in it, but no connection is subscribed to
    the new room when the message is broadcast, so no ['new-message'] is
    emitted at all. The connections of the recipient are then subscribed
    and each is sent ['new-dm-room']; the sender's own connection is not
    subscribed. *)
Theorem X17_first_direct_message (w : World) (sid : string) (user : SocketUser)
    (recipient : UserRow) (content : string) :
  reachable w -> schemaOk (db w) -> participantsReferRooms (db w) ->
  connectedUsers w !! sid = Some user -> dbFaults w = [] ->
  head (List.filter (isUser (u_id recipient)) (users (db w))) = Some recipient ->
  u_id recipient <> su_id user ->
  head (List.filter (isDirectRoomNamed (dmRoomName (su_username user) (u_username recipient)))
          (chatRooms (db w))) = None ->
  let w' := run (SendPrivateMessage sid (u_id recipient) content) w in
  let n := roomSeq (db w) in
  chatRooms (db w') = (chatRooms (db w) ++ [directRoom user recipient (db w)])%list
  /\ chatMessages (db w')
     = (chatMessages (db w) ++
          [mkChatMessageRow (messageSeq (db w)) content "text" (su_id user) n None None
             false false (now w)])%list
  /\ (exists targets,
        outbox w'
        = (outbox w ++
             map (fun s => (s, EvNewDmRoom n
                                 (dmRoomName (su_username user) (u_username recipient))
                                 (su_id user, su_username user, su_avatar user)))
                 targets)%list
        /\ targets ≡ₚ connectionsOf (u_id recipient) w)
  /\ (forall s, subscribed s n w' <-> s ∈ connectionsOf (u_id recipient) w)
  /\ ~ subscribed sid n w'.
Proof.
  intros Hreach Hschema Hfk Hconn Hf Hrecipient Hne Hnone w' n.
  pose proof (reachable_registryConsistent w Hreach) as Hreg.
  pose proof (reachable_subscriptionsExist w Hreach) as [Hsubs _].
  assert (Hnobody : forall s, ~ subscribed s n w).
  { intros s Hs. destruct (Hsubs s n Hs) as (r & Hr & Hid).
    destruct Hschema as [[[_ Hlt] _] _]. rewrite Forall_forall in Hlt.
    specialize (Hlt r Hr). unfold n in Hid. lia. }
  set (w1 := setDb (withDirectRoom user recipient (now w) (db w)) w).
  set (data := mkSendData n content (Some "text") None None).
  set (w2 := setDb (setChatMessages (chatMessages (db w1) ++ [sentRow user data w1])
                      (messageSeq (db w1) + 1) (db w1)) w1).
  set (ev := EvNewDmRoom n (dmRoomName (su_username user) (u_username recipient))
               (su_id user, su_username user, su_avatar user)).
  assert (Hsend : handleSendMessage sid user data w1 = (w2, Ret tt)).
  { rewrite handleSendMessage_member.
    - replace (roomSockets (sd_roomId data) w1) with (@nil string).
      + unfold w2. simpl. rewrite app_nil_r. by destruct w.
      + symmetry. apply (roomSockets_none n w1). exact Hnobody.
    - exact Hf.
    - exists (mkRoomParticipant (participantSeq (db w)) (su_id user) n "member" (now w)
                None true).
      split; [| done]. simpl. apply elem_of_app. right. by left. }
  pose proof (userRooms_connectionsOf (u_id recipient) w Hreg) as Hperm.
  assert (Hhandle : exists targets,
    handlePrivateMessage sid user (u_id recipient) content w
    = (setOutbox (outbox w2 ++ map (fun s => (s, ev)) targets)
         (setSockets (joinAll n targets (sockets w2)) w2), Ret tt)
    /\ targets ≡ₚ connectionsOf (u_id recipient) w).
  { unfold handlePrivateMessage. unfold mbind at 1.
    rewrite dbRun_nofault by exact Hf. unfold selectFirst, query. simpl.
    rewrite Hrecipient, setDb_db. unfold mbind at 1.
    rewrite resolveDirectRoom_first by done. fold w1. unfold mbind at 1.
    change (handleSendMessage sid user
              (mkSendData (r_id (directRoom user recipient (db w))) content (Some "text")
                 None None) w1)
      with (handleSendMessage sid user data w1).
    rewrite Hsend. unfold mbind at 1. unfold getWorld at 1.
    change (userRooms w2) with (userRooms w).
    destruct (userRooms w !! u_id recipient) as [S |] eqn:ES.
    - exists (elements S). split; [| exact Hperm].
      apply (forEach_join_emit ev n (elements S) w2).
      intros s Hs. apply elem_of_elements in Hs.
      destruct Hreg as (_ & H2 & H3).
      destruct (H2 _ _ ES) as [_ Hin]. destruct (Hin s Hs) as (u & Hu & _).
      change (sockets w2) with (sockets w).
      apply elem_of_dom. rewrite H3. apply elem_of_dom. by eexists.
    - exists []. split; [| by rewrite Hperm].
      unfold mret, joinAll. simpl. rewrite app_nil_r. by destruct w. }
  destruct Hhandle as (targets & Hhandle & Htargets).
  assert (Hrun : w' = setOutbox (outbox w2 ++ map (fun s => (s, ev)) targets)
                        (setSockets (joinAll n targets (sockets w2)) w2)).
  { unfold w', run, handle, withSocket. rewrite Hconn.
    unfold onSendPrivateMessage, tryCatch. rewrite Hhandle. done. }
  assert (Hsub : forall s, subscribed s n w' <-> s ∈ connectionsOf (u_id recipient) w).
  { intros s. rewrite Hrun. unfold subscribed.
    change (sockets (setOutbox _ (setSockets ?m _))) with m.
    change (sockets w2) with (sockets w).
    rewrite (joinAll_subscribed n targets (sockets w) s n). rewrite <- Htargets. split.
    - intros (rs & Hrs & [Hin | [_ Hin]]); [| exact Hin].
      exfalso. apply (Hnobody s). by exists rs.
    - intros Hin. assert (Hc := Hin). rewrite Htargets in Hc.
      apply elem_of_connectionsOf in Hc as (u & Hu & _).
      destruct Hreg as (_ & _ & H3).
      assert (Hs : is_Some (sockets w !! s)).
      { apply elem_of_dom. rewrite H3. apply elem_of_dom. by eexists. }
      destruct Hs as [rs Hrs]. exists rs. split; [done |]. right. done. }
  split; [| split; [| split; [| split]]].
  - rewrite Hrun. done.
  - rewrite Hrun. done.
  - exists targets. split; [rewrite Hrun; done | exact Htargets].
  - exact Hsub.
  - intros Hs. apply Hsub, elem_of_connectionsOf in Hs as (u & Hu & Hid).
    rewrite Hconn in Hu. injection Hu as <-. by apply Hne.
Qed.

(** Bob writes to Alice, who is connected on two devices. *)
Lemma X17_first_direct_message_witness :
  chatRooms (db (run (SendPrivateMessage "s2" (u_id alice) "hi alice")
                   (exec threeSockets world0)))
    = (chatRooms (db (exec threeSockets world0))
         ++ [directRoom suBob alice (db (exec threeSockets world0))])%list
  /\ chatMessages (db (run (SendPrivateMessage "s2" (u_id alice) "hi alice")
                         (exec threeSockets world0)))
     = (chatMessages (db (exec threeSockets world0)) ++
          [mkChatMessageRow (messageSeq (db (exec threeSockets world0))) "hi alice" "text"
             (su_id suBob) (roomSeq (db (exec threeSockets world0))) None None false false
             (now (exec threeSockets world0))])%list
  /\ (exists targets,
        outbox (run (SendPrivateMessage "s2" (u_id alice) "hi alice")
                  (exec threeSockets world0))
        = (outbox (exec threeSockets world0) ++
             map (fun s => (s, EvNewDmRoom (roomSeq (db (exec threeSockets world0)))
                                 (dmRoomName (su_username suBob) (u_username alice))
                                 (su_id suBob, su_username suBob, su_avatar suBob)))
                 targets)%list
        /\ targets ≡ₚ connectionsOf (u_id alice) (exec threeSockets world0))
  /\ (forall s, subscribed s (roomSeq (db (exec threeSockets world0)))
                  (run (SendPrivateMessage "s2" (u_id alice) "hi alice")
                     (exec threeSockets world0))
                <-> s ∈ connectionsOf (u_id alice) (exec threeSockets world0))
  /\ ~ subscribed "s2" (roomSeq (db (exec threeSockets world0)))
        (run (SendPrivateMessage "s2" (u_id alice) "hi alice") (exec threeSockets world0)).
Proof.
  apply (X17_first_direct_message (exec threeSockets world0) "s2" suBob alice "hi alice").
  - apply reachable_exec; [apply reachable_init | vm_compute; repeat split].
  - vm_compute. repeat split; constructor.
  - vm_compute. constructor.
  - vm_compute. reflexivity.
  - vm_compute. reflexivity.
  - vm_compute. reflexivity.
  - vm_compute. discriminate.
  - vm_compute. reflexivity.
Defined.

Example first_direct_message_log :
  List.filter (fun x => match x.2 with EvUserInfo _ _ => false | _ => true end)
    (outbox (run (SendPrivateMessage "s2" 1 "hi alice") (exec threeSockets world0)))
  = [("s3", EvNewDmRoom 1 "DM: bob & alice" (2, "bob", None));
     ("s1", EvNewDmRoom 1 "DM: bob & alice" (2, "bob", None))].
Proof. vm_compute. reflexivity. Qed.

(** ** Joining again over REST *)

Lemma head_filter_update {A} (c : A -> bool) (f : A -> A) (l : list A) :
  (forall q, c (f q) = c q) ->
  head (List.filter c (map (fun q => if c q then f q else q) l)) = f <$> head (List.filter c l).
Proof.
  intros Hc. induction l as [| x l IH]; simpl; [done |].
  destruct (c x) eqn:E.
  - rewrite Hc, E. done.
  - rewrite E. exact IH.
Qed.

Lemma update_compose {A} (c : A -> bool) (f g : A -> A) (l : list A) :
  (forall q, c (f q) = c q) ->
  map (fun q => if c q then g q else q) (map (fun q => if c q then f q else q) l)
  = map (fun q => if c q then g (f q) else q) l.
Proof.
  intros Hc. rewrite map_map. apply map_ext. intros q.
  destruct (c q) eqn:E; [by rewrite Hc, E | by rewrite E].
Qed.

Lemma postRoomsJoin_existing userId roomId w room p :
  dbFaults w = [] ->
  head (List.filter (isActiveRoom roomId) (chatRooms (db w))) = Some room ->
  head (List.filter (isParticipant roomId userId) (roomParticipants (db w))) = Some p ->
  postRoomsJoin userId (Some roomId) w
  = (if p_isActive p then w
     else setDb (setRoomParticipants
                   (map (fun q => if isParticipant roomId userId q
                                  then setRejoined (now w) q else q)
                      (roomParticipants (db w)))
                   (participantSeq (db w)) (db w)) w,
     Ret (mkHttpResponse 200 true "Successfully joined the room" None)).
Proof.
  intros Hf Hroom Hp. unfold postRoomsJoin, tryCatch. unfold mbind at 1.
  rewrite dbRun_nofault by done. simpl. rewrite Hroom, setDb_db.
  unfold mbind at 1. rewrite dbRun_nofault by done. simpl. rewrite Hp, setDb_db.
  destruct (p_isActive p); simpl.
  - done.
  - unfold mbind at 1. unfold mbind at 1. unfold newDate at 1.
    rewrite dbRun_nofault by done. done.
Qed.

(** X18. Joining a room over REST when a Membership row exists. With the
    database up, a user who has a Membership row in an active room, active
    or not, is answered 200 whatever the capacity of the room; no row is
    added, and the user is an active member afterwards. If the Membership
    was active nothing changes at all, and joining a second time changes
    nothing. A leave followed by a join makes the user an active member
    again, on the same row. *)
Theorem X18_join_again (w : World) (userId roomId : Z) (room : ChatRoom)
    (p : RoomParticipant) :
  dbFaults w = [] ->
  head (List.filter (isActiveRoom roomId) (chatRooms (db w))) = Some room ->
  head (List.filter (isParticipant roomId userId) (roomParticipants (db w))) = Some p ->
  let ok := mkHttpResponse 200 true "Successfully joined the room" None in
  let w1 := (postRoomsJoin userId (Some roomId) w).1 in
  (postRoomsJoin userId (Some roomId) w).2 = Ret ok
  /\ activeMember userId roomId (db w1)
  /\ map rowIdentity (roomParticipants (db w1)) = map rowIdentity (roomParticipants (db w))
  /\ (p_isActive p = true -> w1 = w)
  /\ postRoomsJoin userId (Some roomId) w1 = (w1, Ret ok)
  /\ (let w2 := (postRoomsJoin userId (Some roomId)
                   (postRoomsLeave userId (Some roomId) w).1).1 in
      activeMember userId roomId (db w2)
      /\ map rowIdentity (roomParticipants (db w2))
         = map rowIdentity (roomParticipants (db w))).
Proof.
  intros Hf Hroom Hp ok w1.
  assert (Hpin := Hp). apply head_filter_Some in Hpin as [Hin Hisp].
  assert (Hid : forall (f : RoomParticipant -> RoomParticipant) (l : list RoomParticipant),
            (forall q, rowIdentity (f q) = rowIdentity q) ->
            map rowIdentity (map (fun q => if isParticipant roomId userId q then f q else q) l)
            = map rowIdentity l).
  { intros f l Hfid. rewrite map_map. apply map_ext. intros q.
    by destruct (isParticipant roomId userId q). }
  assert (Hact : forall (f : RoomParticipant -> RoomParticipant) (l : list RoomParticipant) q,
            q ∈ l -> isParticipant roomId userId q = true ->
            p_isActive (f q) = true -> p_userId (f q) = p_userId q ->
            p_roomId (f q) = p_roomId q ->
            exists x, x ∈ map (fun q => if isParticipant roomId userId q then f q else q) l
                      /\ p_userId x = userId /\ p_roomId x = roomId /\ p_isActive x = true).
  { intros f l q Hq Hqp Ha Hu Hr. exists (f q). split.
    - apply list_elem_of_In, in_map_iff. exists q. rewrite Hqp.
      split; [done | by apply list_elem_of_In].
    - apply isParticipant_true in Hqp as [Hqu Hqr]. rewrite Hu, Hr. done. }
  unfold w1. rewrite (postRoomsJoin_existing userId roomId w room p Hf Hroom Hp).
  split; [done |]. cbn [fst snd].
  split; [| split; [| split; [| split]]].
  - destruct (p_isActive p) eqn:Ea.
    + exists p. apply isParticipant_true in Hisp as [Hu Hr]. done.
    + simpl. by apply (Hact (setRejoined (now w)) _ p).
  - destruct (p_isActive p); [done |]. simpl. by apply Hid.
  - intros ->. done.
  - destruct (p_isActive p) eqn:Ea.
    + rewrite (postRoomsJoin_existing userId roomId w room p Hf Hroom Hp), Ea. done.
    + rewrite (postRoomsJoin_existing userId roomId _ room (setRejoined (now w) p));
        [done | exact Hf | exact Hroom |].
      simpl. rewrite head_filter_update by done. rewrite Hp. done.
  - rewrite (postRoomsLeave_nofault userId roomId w Hf). cbn [fst].
    rewrite (postRoomsJoin_existing userId roomId _ room (setInactive p));
      [| exact Hf | exact Hroom |].
    + cbn [fst p_isActive setInactive]. simpl.
      rewrite (update_compose (isParticipant roomId userId) setInactive
                 (setRejoined (now w))) by done.
      split.
      * apply (Hact (fun q => setRejoined (now w) (setInactive q)) _ p Hin Hisp);
          done.
      * apply (Hid (fun q => setRejoined (now w) (setInactive q))). done.
    + simpl. rewrite head_filter_update by done. rewrite Hp. done.
Qed.

(** Bob, who left the general chat over REST, joins it again. *)
Lemma X18_join_again_witness :
  (postRoomsJoin 2 (Some 1) (exec bobLeavesOverRest world0)).2
    = Ret (mkHttpResponse 200 true "Successfully joined the room" None)
  /\ activeMember 2 1 (db (postRoomsJoin 2 (Some 1) (exec bobLeavesOverRest world0)).1)
  /\ map rowIdentity
       (roomParticipants (db (postRoomsJoin 2 (Some 1) (exec bobLeavesOverRest world0)).1))
     = map rowIdentity (roomParticipants (db (exec bobLeavesOverRest world0))).
Proof.
  destruct (X18_join_again (exec bobLeavesOverRest world0) 2 1
              (mkChatRoom 1 "general" None "public" 1 true 10)
              (mkRoomParticipant 2 2 1 "member" 0 (Some 0) false)
              ltac:(vm_compute; reflexivity) ltac:(vm_compute; reflexivity)
              ltac:(vm_compute; reflexivity)) as (H1 & H2 & H3 & _).
  split; [exact H1 | split; [exact H2 | exact H3]].
Defined.

(** ** Reactions *)

Lemma forEach_toRooms (ev : ServerEvent) (sid : string) (l : list Z) : forall w,
  forEach l (fun room => socketToRoomEmit sid room ev) w
  = (setOutbox (outbox w ++
                  map (fun s => (s, ev))
                    (flat_map (fun room => List.filter (fun s => negb (s =? sid)%string)
                                             (roomSockets room w)) l)) w, Ret tt).
Proof.
  induction l as [| room l IH]; intros w; simpl.
  - unfold mret. rewrite app_nil_r. by destruct w.
  - unfold mbind. unfold socketToRoomEmit at 1. unfold emitTo, modifyWorld.
    rewrite IH. simpl. rewrite map_app, app_assoc. reflexivity.
Qed.

Lemma copies_NoDup (s : string) (l : list string) :
  NoDup l -> copiesTo s l = if bool_decide (s ∈ l) then 1%nat else 0%nat.
Proof.
  unfold copiesTo. induction 1 as [| x l Hx Hnd IH]; simpl; [done |].
  destruct (String.eqb_spec s x) as [-> | Hne]; simpl.
  - rewrite bool_decide_eq_true_2 by (by left).
    rewrite IH, bool_decide_eq_false_2 by done. done.
  - rewrite IH. apply (f_equal (fun b : bool => if b then 1%nat else 0%nat)).
    apply bool_decide_ext. rewrite elem_of_cons. naive_solver.
Qed.

Lemma copies_flat_map {A} (s : string) (f : A -> list string) (l : list A) :
  (forall a, NoDup (f a)) ->
  copiesTo s (flat_map f l) = length (List.filter (fun a => bool_decide (s ∈ f a)) l).
Proof.
  intros Hnd. induction l as [| a l IH]; simpl; [done |].
  unfold copiesTo in *. rewrite List.filter_app, length_app, IH.
  fold (copiesTo s (f a)). rewrite copies_NoDup by apply Hnd.
  destruct (bool_decide (s ∈ f a)); simpl; lia.
Qed.

Lemma filter_elements_size (X Y : gset Z) (P : Z -> bool) :
  (forall x, x ∈ X -> (P x = true <-> x ∈ Y)) ->
  length (List.filter P (elements X)) = size (X ∩ Y).
Proof.
  intros HP. unfold size, set_size. simpl. apply Permutation_length.
  apply NoDup_Permutation.
  - assert (H := NoDup_map_filter (fun z : Z => z) P (elements X)).
    rewrite !map_id in H. apply H, NoDup_elements.
  - apply NoDup_elements.
  - intros x. rewrite elem_of_elements, elem_of_intersection.
    rewrite list_elem_of_In, filter_In, <- list_elem_of_In, elem_of_elements.
    split; intros [Hx Hy]; (split; [done |]); by apply (HP x Hx).
Qed.

(** X19. ['toggle-reaction'] stores nothing and checks nothing: whatever
    the message id, the event is sent once for every room the sender's
    socket is subscribed to, to the other sockets of that room. So a socket
    receives as many copies of ['reaction-updated'] as it shares rooms with
    the sender's socket, the sender's own socket none, and nothing else
    changes. *)
Theorem X19_reaction_copies (w : World) (sid : string) (user : SocketUser)
    (messageId : Z) (emoji : string) :
  exists targets,
    onToggleReaction sid user messageId emoji w
    = (setOutbox (outbox w ++
                    map (fun s => (s, EvReactionUpdated messageId emoji (su_id user)
                                        (su_username user))) targets) w, Ret tt)
    /\ copiesTo sid targets = 0%nat
    /\ forall s, s <> sid -> copiesTo s targets = size (sharedRooms sid s w).
Proof.
  eexists. split.
  - unfold onToggleReaction, mbind, getWorld. apply forEach_toRooms.
  - set (f := fun room => List.filter (fun s => negb (s =? sid)%string) (roomSockets room w)).
    assert (Hc : forall s,
      copiesTo s (flat_map f (socketRooms sid w))
      = length (List.filter (fun room => bool_decide (s ∈ f room)) (socketRooms sid w))).
    { intros s. apply copies_flat_map. intros room. apply others_in_room. }
    assert (Hin : forall s room, s ∈ f room <-> subscribed s room w /\ s <> sid).
    { intros s room. apply others_in_room. }
    split.
    + rewrite Hc. replace (List.filter _ (socketRooms sid w)) with (@nil Z); [done |].
      symmetry. apply filter_nil_iff. intros room _. apply bool_decide_eq_false.
      rewrite Hin. tauto.
    + intros s Hne. rewrite Hc. unfold sharedRooms, socketRooms.
      destruct (sockets w !! sid) as [rs |] eqn:E; simpl.
      * apply filter_elements_size. intros room _. rewrite bool_decide_eq_true, Hin.
        unfold subscribed. destruct (sockets w !! s) as [rs' |]; simpl.
        -- split; [intros [(r0 & [= <-] & Hr) _]; done | intros Hr].
           split; [by exists rs' | done].
        -- split; [intros [(r0 & [=] & _) _] | set_solver].
      * symmetry. apply size_empty_iff. set_solver.
Qed.

Example reaction_twice :
  copiesTo "s2"
    (map fst (drop (length (outbox (exec twoSharedRooms world0)))
                (outbox (onToggleReaction "s1" suAlice 999 "+1"
                           (exec twoSharedRooms world0)).1)))
  = 2%nat
  /\ chatMessages (db (exec twoSharedRooms world0)) = [].
Proof. vm_compute. done. Qed.

(** ** What a join announces *)

Lemma ensures_false {A} (m : M A) (R : A -> World -> Prop) :
  ensures (fun _ => False) m R.
Proof. by intros w []. Qed.

Section JoinOutbox.
Context (o : list (string * ServerEvent)) (sid : string).

Let kept (w : World) : Prop := outbox w = o.
Let refused (w : World) : Prop :=
  exists msg, outbox w = (o ++ [(sid, EvError msg)])%list /\ msg ∈ joinRoomErrors.

Lemma kept_dbRun {A} (stmt : Db -> Db * Res A) : ensures kept (dbRun stmt) (fun _ => kept).
Proof.
  apply ensures_dbRun; [intros w fl H; exact H |].
  intros w H. by destruct (stmt (db w)).2.
Qed.

Lemma kept_getRoomInfo roomId : ensures kept (getRoomInfo roomId) (fun _ _ => False).
Proof.
  intros w H. destruct (getRoomInfo_throws roomId w) as [fl ->]. exact H.
Qed.

Lemma refused_emit (msg : string) :
  msg ∈ joinRoomErrors ->
  ensures kept (socketEmit sid (EvError msg)) (fun _ => refused).
Proof. intros Hm w H. simpl. exists msg. unfold kept in H. by rewrite H. Qed.

Lemma handleJoinRoom_outbox user roomId :
  ensures kept (handleJoinRoom sid user roomId) (fun _ => refused).
Proof.
  unfold handleJoinRoom.
  apply (ensures_mbind kept (fun _ => kept)); [apply kept_dbRun | done |].
  intros [room |]; [| apply refused_emit; set_solver].
  apply (ensures_mbind kept (fun _ => kept)); [apply kept_dbRun | done |].
  intros participant.
  destruct (bool_decide (participant = None) && (r_type room =? "private")%string);
    [apply refused_emit; set_solver |].
  apply (ensures_mbind kept (fun _ => kept)); [| done |].
  { destruct participant as [p |];
      (apply (ensures_mbind kept (fun _ => kept)); [by intros w H | done |]);
      intros t; apply kept_dbRun. }
  intros _.
  apply (ensures_mbind kept (fun _ => kept)); [by intros w H | done |].
  intros _.
  apply (ensures_mbind kept (fun _ _ => False)); [apply kept_getRoomInfo | done |].
  intros roomInfo. apply ensures_false.
Qed.

Lemma onJoinRoom_outbox user roomId w :
  kept w -> refused (onJoinRoom sid user roomId w).1.
Proof.
  intros H. unfold onJoinRoom, tryCatch.
  pose proof (handleJoinRoom_outbox user roomId w H) as Hj.
  destruct (handleJoinRoom sid user roomId w) as [w1 [[] |]]; simpl in *; [exact Hj |].
  exists "Failed to join room". split; [| set_solver].
  unfold kept in Hj. by rewrite Hj.
Qed.

End JoinOutbox.

Lemma announced_emit ev w tg :
  isAnnouncement ev = false ->
  neverAnnounced w -> neverAnnounced (setOutbox (outbox w ++ map (fun s => (s, ev)) tg) w).
Proof.
  intros Hev H. unfold neverAnnounced in *. simpl. apply Forall_app. split; [exact H |].
  apply Forall_forall. intros x Hx. apply list_elem_of_In, in_map_iff in Hx as (s & <- & _).
  exact Hev.
Qed.

Lemma announced_onJoinRoom sid user roomId : pres neverAnnounced (onJoinRoom sid user roomId).
Proof.
  intros w H. unfold neverAnnounced.
  destruct (onJoinRoom_outbox (outbox w) sid user roomId w eq_refl) as (msg & E & _).
  rewrite E. apply Forall_app. split; [exact H | by repeat constructor].
Qed.

Lemma announced_run e w : neverAnnounced w -> neverAnnounced (run e w).
Proof.
  revert w. unfold run. change (pres neverAnnounced (handle e)).
  destruct e;
    unfold handle, onConnection, onDisconnect, onLeaveRoom, onSendMessage,
      onTypingStart, onTypingStop, onToggleReaction, onGetOnlineUsers,
      onSendPrivateMessage, handleLeaveRoom, handlePrivateMessage, resolveDirectRoom,
      handleSendMessage, sendUserInfo, authenticate, postRooms, postRoomsJoin,
      postRoomsLeave;
    pres_shape ltac:(idtac; lazymatch goal with
                     | |- pres _ (onJoinRoom _ _ _) => apply announced_onJoinRoom
                     | |- pres _ (let _ := _ in _) => cbv zeta
                     end);
    lazymatch goal with
    | |- pres _ (dbRun _) => apply pres_dbRun; [intros ? ? H; exact H | intros ? H; exact H]
    | |- pres _ (socketEmit _ _) =>
        apply pres_socketEmit; intros ? ? H; by apply announced_emit
    | |- pres _ (ioToRoomEmit _ _) =>
        apply pres_ioToRoomEmit; intros ? ? H; by apply announced_emit
    | |- pres _ (socketToRoomEmit _ _ _) =>
        apply pres_socketToRoomEmit; intros ? ? H; by apply announced_emit
    | |- pres _ (socketJoin _ _) => apply pres_modifyWorld; intros ? H; exact H
    | |- pres _ (socketLeave _ _) => apply pres_modifyWorld; intros ? H; exact H
    | |- pres _ (modifyWorld (unregisterSocket _ _)) =>
        apply pres_modifyWorld; intros w0 H; unfold neverAnnounced, unregisterSocket;
        simpl; destruct (userRooms w0 !! _); [destruct (size _ =? 0)%nat |]; exact H
    | |- pres _ (modifyWorld _) => apply pres_modifyWorld; intros ? H; exact H
    end.
Qed.

(** X20. A ['join-room'] is never answered with ['joined-room'] and never
    announced with ['user-joined']. Whatever the state and whichever
    statements the database refuses, the handler sends exactly one event,
    an error, to the caller: ['Room not found'], ['Access denied to private
    room'], or, once the Membership is written and the socket subscribed,
    ['Failed to join room'], because [getRoomInfo] throws on every call.
    Nothing else in the server emits the two events: a log without them
    stays without them. *)
Theorem X20_join_never_announced (w : World) (sid : string) (user : SocketUser)
    (roomId : Z) :
  (exists msg,
     outbox (onJoinRoom sid user roomId w).1 = (outbox w ++ [(sid, EvError msg)])%list
     /\ msg ∈ joinRoomErrors)
  /\ (forall roomId', (getRoomInfo roomId' w).2 = Throw)
  /\ (forall es, neverAnnounced w -> neverAnnounced (exec es w)).
Proof.
  split; [| split].
  - exact (onJoinRoom_outbox (outbox w) sid user roomId w eq_refl).
  - intros roomId'. by destruct (getRoomInfo_throws roomId' w) as [fl ->].
  - intros es. apply (exec_keeps neverAnnounced). intros e w'. apply announced_run.
Qed.

Example carol_is_not_announced :
  drop (length (outbox (exec carolArrives world0)))
       (outbox (onJoinRoom "s3" suCarol 1 (exec carolArrives world0)).1)
  = [("s3", EvError "Failed to join room")]
  /\ neverAnnounced (exec carolArrives world0).
Proof.
  split; [vm_compute; reflexivity |].
  apply (exec_keeps neverAnnounced); [intros e w'; apply announced_run | constructor].
Qed.

(** ** The rooms the server creates *)

Lemma created_unchanged {A} (base : list ChatRoom) (stmt : Db -> Db * Res A) :
  (forall d, chatRooms (stmt d).1 = chatRooms d) -> stmtKeeps (roomsSince base) stmt.
Proof. intros H d (new & Hd & Hn). exists new. by rewrite H. Qed.

Lemma created_insertParticipants (base : list ChatRoom) vals :
  stmtKeeps (roomsSince base) (insertParticipants vals).
Proof.
  apply created_unchanged. intros d. unfold insertParticipants.
  by destruct (insertParticipantRows _ _ _) as [[? |] ?].
Qed.

Lemma created_insertChatRoom (base : list ChatRoom) name dsc type createdBy maxParticipants :
  (forall n, wellFormedRoom (mkChatRoom n name dsc type createdBy true maxParticipants)) ->
  stmtKeeps (roomsSince base) (insertChatRoom name dsc type createdBy maxParticipants).
Proof.
  intros Hw d (new & Hd & Hn).
  exists (new ++ [mkChatRoom (roomSeq d) name dsc type createdBy true maxParticipants])%list.
  simpl. rewrite Hd, <- app_assoc.
  split; [reflexivity |]. apply Forall_app. split; [exact Hn |].
  constructor; [apply Hw | constructor].
Qed.

Lemma directRoom_wellFormed n sender recipient createdBy :
  wellFormedRoom (mkChatRoom n (dmRoomName sender recipient)
                    (Some "Direct message conversation") "direct" createdBy true 2).
Proof. split; [done |]. left. split; [done | split; [done |]]. by exists sender, recipient. Qed.

Lemma valid_wellFormed (b : CreateRoomBody) n dsc createdBy maxParticipants :
  validCreateRoom b = true ->
  wellFormedRoom (mkChatRoom n (b_name b) dsc
                    (match b_type b with Some t => t | None => "public" end)
                    createdBy true maxParticipants).
Proof.
  unfold validCreateRoom. rewrite !andb_true_iff. intros [[[H1 H2] _] Ht].
  apply Nat.leb_le in H1, H2. split; [done |]. right. simpl. split; [| lia].
  destruct (b_type b) as [t |]; [| by left].
  apply orb_true_iff in Ht as [Ht | Ht]; apply String.eqb_eq in Ht; [by left | by right].
Qed.

Ltac created_stmt :=
  first [ apply created_insertParticipants
        | apply created_insertChatRoom; intros ?; apply directRoom_wellFormed
        | apply created_unchanged; intros ?; reflexivity ].

Lemma created_postRooms (base : list ChatRoom) userId b :
  pres (fun w => roomsSince base (db w)) (postRooms userId b).
Proof.
  unfold postRooms. apply pres_tryCatch; [| apply pres_mret].
  destruct (validCreateRoom b) eqn:E; simpl; [| apply pres_mret].
  apply pres_mbind; [| intros newRoom].
  - apply pres_db. apply created_insertChatRoom. intros n. by apply valid_wellFormed.
  - apply pres_mbind; [apply pres_newDate | intros t].
    apply pres_mbind; [| intros _; apply pres_mret].
    apply pres_db. apply created_insertParticipants.
Qed.

Lemma created_run (base : list ChatRoom) e w :
  roomsSince base (db w) -> roomsSince base (db (run e w)).
Proof.
  revert w. unfold run. change (pres (fun w => roomsSince base (db w)) (handle e)).
  destruct e;
    lazymatch goal with
    | |- pres _ (handle (PostRooms _ _)) =>
        unfold handle; apply pres_mbind; [apply created_postRooms | intros ?; apply pres_mret]
    | |- _ => db_invariant created_stmt
    end.
Qed.

(** X21. Every room the server creates is well formed. After any events
    the table of rooms is what it was, followed by rooms that are active
    and either direct rooms, for two participants and named ["DM: <sender>
    & <recipient>"], or public or private rooms with a name of 1 to 255
    characters. So [POST /rooms] never creates a direct room; and a body
    that fails validation is answered 400 with nothing read or written. *)
Theorem X21_created_rooms (es : list Event) (w : World) :
  (exists new,
     chatRooms (db (exec es w)) = (chatRooms (db w) ++ new)%list
     /\ Forall wellFormedRoom new)
  /\ forall userId b,
       validCreateRoom b = false ->
       postRooms userId b w = (w, Ret (mkHttpResponse 400 false "Validation failed" None)).
Proof.
  split.
  - apply (exec_keeps (fun w' => roomsSince (chatRooms (db w)) (db w'))).
    + intros e w'. apply created_run.
    + exists []. by rewrite app_nil_r.
  - intros userId b Hv. unfold postRooms, tryCatch. rewrite Hv. done.
Qed.

Example created_rooms :
  map (fun r => (r_name r, r_type r, r_maxParticipants r))
    (chatRooms (db (exec (generalChat ++ dmBothWays) world0)))
  = [("general", "public", 10); ("DM: alice & bob", "direct", 2);
     ("DM: bob & alice", "direct", 2)]
  /\ (postRooms 1 (mkCreateRoomBody "dm" None (Some "direct") None) world0).2
     = Ret (mkHttpResponse 400 false "Validation failed" None).
Proof. vm_compute. done. Qed.

(** ** Sends that overlap *)

(** The three stretches, one after the other, are the handler. *)
Lemma handleSendMessage_stretches sid user data w :
  handleSendMessage sid user data w
  = (participant <- sendCheck user data ;;
     message <- sendStore sid user data participant ;;
     match message with
     | Some message => sendEmit user data message
     | None => mret tt
     end) w.
Proof.
  unfold handleSendMessage, sendCheck, sendStore, sendEmit, mbind, newDate, mret,
    socketEmit, emitTo, modifyWorld.
  destruct (dbRun _ w) as [w1 [[p |] |]]; simpl; try done.
  destruct (dbRun _ w1) as [w2 [m |]]; done.
Qed.

Lemma perform_app acts1 acts2 s :
  perform (acts1 ++ acts2) s = perform acts2 (perform acts1 s).
Proof. unfold perform. apply fold_left_app. Qed.

Lemma perform_atomic es s :
  perform (map Atomic es) s = mkServer (exec es (world s)) (inFlight s).
Proof.
  revert s. induction es as [| e es IH]; intros s; simpl; [by destruct s |].
  unfold perform in *. simpl. rewrite IH. done.
Qed.

Lemma act_Resume_none i s : inFlight s !! i = None -> act (Resume i) s = s.
Proof. intros H. unfold act. by rewrite H. Qed.

(** A send whose stretches are not interrupted is the handler of [run]. *)
Lemma perform_send_alone sid data s :
  perform [StartSend sid data; Resume (length (inFlight s)); Resume (length (inFlight s))] s
  = mkServer (run (SendMessage sid data) (world s)) (inFlight s).
Proof.
  destruct s as [w fl]. unfold perform. cbn [fold_left world inFlight].
  remember (act (StartSend sid data) (mkServer w fl)) as s1 eqn:E1.
  unfold act in E1. cbn [world inFlight] in E1.
  unfold run, handle, withSocket.
  destruct (connectedUsers w !! sid) as [user |] eqn:Eu.
  2:{ subst s1.
      rewrite !(act_Resume_none (length fl) (mkServer w fl))
        by (apply lookup_ge_None_2; simpl; lia). done. }
  unfold onSendMessage, tryCatch. rewrite handleSendMessage_stretches.
  unfold mbind at 1.
  destruct (sendCheck user data w) as [w1 [p |]] eqn:Ec.
  2:{ subst s1.
      rewrite !(act_Resume_none (length fl) (mkServer (sendFailed sid w1) fl))
        by (apply lookup_ge_None_2; simpl; lia). done. }
  subst s1.
  remember (act (Resume (length fl)) _) as s2 eqn:E2.
  unfold act in E2. cbn [world inFlight] in E2.
  rewrite lookup_app_r in E2 by done. rewrite Nat.sub_diag in E2. cbn [lookup] in E2.
  simpl in E2. unfold mbind at 1.
  destruct (sendStore sid user data p w1) as [w2 [[m |] |]] eqn:Es; subst s2.
  - rewrite insert_app_r_alt by done. rewrite Nat.sub_diag. simpl insert.
    unfold act. cbn [world inFlight].
    rewrite lookup_app_r by done. rewrite Nat.sub_diag. simpl.
    rewrite (delete_middle fl []), app_nil_r. done.
  - rewrite (delete_middle fl []), app_nil_r. cbn [world inFlight].
    rewrite (lookup_ge_None_2 fl (length fl)) by lia. done.
  - rewrite (delete_middle fl []), app_nil_r. cbn [world inFlight].
    rewrite (lookup_ge_None_2 fl (length fl)) by lia. done.
Qed.

(** *** Invariants of the message log *)

(** An invariant that reads only the messages of the database and the
    outbox, and that no emit other than ['new-message'] disturbs, is kept
    by every handler that does not send. *)
Section MessageLog.
Context (I : World -> Prop).
Hypothesis I_world : forall w w', db w' = db w -> outbox w' = outbox w -> I w -> I w'.
Hypothesis I_stmt : forall d w,
  chatMessages d = chatMessages (db w) -> messageSeq d = messageSeq (db w) ->
  I w -> I (setDb d w).
Hypothesis I_emit : forall ev w tg,
  (forall m, ev <> EvNewMessage m) ->
  I w -> I (setOutbox (outbox w ++ map (fun s => (s, ev)) tg) w).






End MessageLog.

(** *** Persisted before delivered, however the sends overlap *)















(** *** In the order of the ids, when the sends do not overlap *)












(** Handlers that run to their end one after the other are the runs of
    [exec], and their sends do not overlap. *)
Lemma oneAtATime_atomic es s : inFlight s = [] -> oneAtATime (map Atomic es) s.
Proof.
  revert s. induction es as [|e es IH]; intros s H; [done|].
  split; [done|]. by apply IH.
Qed.



(** The sends of [sendsInTurn] do not overlap, although Bob's typing
    notice runs between two stretches of Alice's send. *)
Example sendsInTurn_oneAtATime : oneAtATime sendsInTurn (initServer db0 0).
Proof. vm_compute. repeat split; intros; congruence. Qed.

